(** * Jailer: the quarantine engine of [spikat/jailer], embedded in Rocq

    The Go program keeps a registry [ActiveJails : map[int]*Jail], talks to
    the kernel through [/proc] and the cgroup file systems, and moves
    processes between control groups by writing pids into [cgroup.procs]
    files.  The embedding below follows three of its Go files (the packet
    filter of [firewall.go] is an outside collaborator of the engine):

    - [main.go]     : [Jail], [JailerState], [jailProcess],
                      [unjailProcessSelective], [unjailProcess];
    - [cgroups.go]  : detection, initialisation, the [moveProcessTo...] and
                      [restoreProcessCgroup...] families;
    - [process.go]  : [getProcessChildren], [getAllDescendants],
                      [processExists], [cleanupDeadProcesses].

    Every system call goes through a small state monad [Sys] whose state is
    the trace of calls made so far; the kernel is an oracle that may answer
    differently depending on that history.  Lines printed on standard output
    are observability only and are not part of the model. *)

From Stdlib Require Import ZArith Lia Ascii String.
From stdpp Require Import base numbers option list strings pretty gmap fin_maps fin_sets.

#[local] Set Warnings "-clear-no-such-hyp".

Local Open Scope string_scope.
Local Open Scope list_scope.
Local Open Scope Z_scope.

(** ** Go library functions used by the program *)

Module Go.

Definition minInt : Z := - 2 ^ 63.
Definition maxInt : Z := 2 ^ 63 - 1.

(** [strconv.Itoa]. *)
Definition Itoa (n : Z) : string := pretty n.

Definition digit_of (a : ascii) : option Z :=
  let n := Z.of_N (Ascii.N_of_ascii a) in
  if (48 <=? n) && (n <=? 57) then Some (n - 48) else None.

Fixpoint parse_digits (acc : Z) (s : string) : option Z :=
  match s with
  | EmptyString => Some acc
  | String a s' =>
      match digit_of a with
      | Some d => parse_digits (acc * 10 + d) s'
      | None => None
      end
  end.

(** [strconv.Atoi]: an optional sign, at least one decimal digit, nothing
    else, and a value that fits the 64-bit [int]. *)
Definition Atoi (s : string) : option Z :=
  match s with
  | EmptyString => None
  | String a rest =>
      let neg := bool_decide (a = "-"%char) in
      let body := if bool_decide (a = "-"%char) || bool_decide (a = "+"%char)
                  then rest else s in
      match body with
      | EmptyString => None
      | _ =>
          match parse_digits 0 body with
          | Some n =>
              let v := if neg then - n else n in
              if (minInt <=? v) && (v <=? maxInt) then Some v else None
          | None => None
          end
      end
  end.

(** The ASCII white space of [unicode.IsSpace]; bytes above 127 are taken
    as ordinary characters. *)
Definition isSpace (a : ascii) : bool :=
  let n := Ascii.N_of_ascii a in
  ((9 <=? n) && (n <=? 13))%N || (n =? 32)%N.

(** [strings.Fields], with [cur] the field being read, reversed. *)
Fixpoint fields_go (cur : list ascii) (s : string) : list string :=
  let flush := match cur with [] => [] | _ => [string_of_list_ascii (rev cur)] end in
  match s with
  | EmptyString => flush
  | String a s' =>
      if isSpace a then flush ++ fields_go [] s'
      else fields_go (a :: cur) s'
  end.
Definition Fields (s : string) : list string := fields_go [] s.

(** [strings.Split] for a one-byte separator. *)
Fixpoint split_go (sep : ascii) (cur : list ascii) (s : string) : list string :=
  match s with
  | EmptyString => [string_of_list_ascii (rev cur)]
  | String a s' =>
      if bool_decide (a = sep) then string_of_list_ascii (rev cur) :: split_go sep [] s'
      else split_go sep (a :: cur) s'
  end.
Definition Split (s : string) (sep : ascii) : list string := split_go sep [] s.

(** [strings.Join]. *)
Fixpoint Join (elems : list string) (sep : string) : string :=
  match elems with
  | [] => ""
  | [e] => e
  | e :: rest => e +:+ sep +:+ Join rest sep
  end.

(** [strings.TrimPrefix s "/"]. *)
Definition TrimPrefixSlash (s : string) : string :=
  match s with
  | String a rest => if bool_decide (a = "/"%char) then rest else s
  | EmptyString => s
  end.

Fixpoint dropSpace (s : string) : string :=
  match s with
  | String a rest => if isSpace a then dropSpace rest else s
  | EmptyString => s
  end.

(** [strings.TrimSpace]. *)
Definition TrimSpace (s : string) : string :=
  String.rev (dropSpace (String.rev (dropSpace s))).

(** [filepath.Clean] on the components of a path: empty and [.] elements
    go away, [..] removes the element before it, or is dropped at the root
    and kept at the start of a relative path.  [stack] is reversed. *)
Fixpoint clean_go (rooted : bool) (stack : list string) (cs : list string) : list string :=
  match cs with
  | [] => rev stack
  | c :: cs' =>
      if bool_decide (c = "") || bool_decide (c = ".") then clean_go rooted stack cs'
      else if bool_decide (c = "..") then
        match stack with
        | top :: below =>
            if bool_decide (top = "..") then clean_go rooted (c :: stack) cs'
            else clean_go rooted below cs'
        | [] => if rooted then clean_go rooted [] cs' else clean_go rooted [c] cs'
        end
      else clean_go rooted (c :: stack) cs'
  end.

Definition Clean (p : string) : string :=
  let rooted := match p with String a _ => bool_decide (a = "/"%char) | _ => false end in
  let body := Join (clean_go rooted [] (Split p "/"%char)) "/" in
  let r := if rooted then "/" +:+ body else body in
  if bool_decide (r = "") then "." else r.

(** [filepath.Join]: leading empty elements are skipped, the rest is joined
    with a slash and cleaned. *)
Fixpoint PathJoin (elem : list string) : string :=
  match elem with
  | [] => ""
  | e :: rest => if bool_decide (e = "") then PathJoin rest else Clean (Join elem "/")
  end.

End Go.

Arguments Go.PathJoin : simpl never.
Arguments Go.Atoi : simpl never.
Arguments Go.Itoa : simpl never.
Arguments Go.Fields : simpl never.
Arguments Go.Split : simpl never.
Arguments Go.TrimSpace : simpl never.

(** ** [main.go]: the jail record *)

Record Jail := mkJail {
  PID : Z;
  OriginalCgroup : string;
  JailTypes : list string;
  Timestamp : Z;
  Children : list Z
}.

Definition setJailTypes (j : Jail) (ts : list string) : Jail :=
  mkJail (PID j) (OriginalCgroup j) ts (Timestamp j) (Children j).

Definition setChildren (j : Jail) (cs : list Z) : Jail :=
  mkJail (PID j) (OriginalCgroup j) (JailTypes j) (Timestamp j) cs.

Fixpoint hasType (ts : list string) (jailType : string) : bool :=
  match ts with
  | [] => false
  | t :: ts' => if bool_decide (t = jailType) then true else hasType ts' jailType
  end.

Definition HasJailType (j : Jail) (jailType : string) : bool :=
  hasType (JailTypes j) jailType.

Definition AddJailType (j : Jail) (jailType : string) : Jail :=
  if negb (HasJailType j jailType)
  then setJailTypes j (JailTypes j ++ [jailType])
  else j.

(** The loop of [RemoveJailType] cuts the first matching element out and
    breaks. *)
Fixpoint removeFirst (ts : list string) (jailType : string) : list string :=
  match ts with
  | [] => []
  | t :: ts' => if bool_decide (t = jailType) then ts' else t :: removeFirst ts' jailType
  end.

Definition RemoveJailType (j : Jail) (jailType : string) : Jail :=
  setJailTypes j (removeFirst (JailTypes j) jailType).

Definition GetJailTypesString (j : Jail) : string :=
  if bool_decide (length (JailTypes j) = 0%nat) then "none"
  else Go.Join (JailTypes j) ",".

Record JailerState := mkState {
  ActiveJails : gmap Z Jail;
  NetworkCgroupPath : string;
  CpuCgroupPath : string;
  NetworkCpuCgroupPath : string;
  CgroupVersion : Z;
  FirewallTool : string
}.

Definition NewJailerState : JailerState := mkState ∅ "" "" "" 0 "".

Definition setActiveJails (s : JailerState) (m : gmap Z Jail) : JailerState :=
  mkState m (NetworkCgroupPath s) (CpuCgroupPath s) (NetworkCpuCgroupPath s)
          (CgroupVersion s) (FirewallTool s).

(** ** The kernel, seen through the [os] package

    A system call is answered by an oracle that sees the whole history of
    calls; the history is the only state of the [Sys] monad. *)

Record DirEntry := mkEntry { entry_Name : string; entry_IsDir : bool }.

Inductive StatResult := StatOk | StatNotExist | StatError.

Inductive Event :=
| EvStat (path : string) (r : StatResult)
| EvMkdirAll (path : string) (ok : bool)
| EvWriteFile (path data : string) (ok : bool)
| EvReadFile (path : string) (r : option string)
| EvReadDir (path : string) (r : option (list DirEntry))
| EvNow (t : Z).

Definition Trace := list Event.

Record Kernel := mkKernel {
  k_Stat : Trace → string → StatResult;
  k_MkdirAll : Trace → string → bool;
  k_WriteFile : Trace → string → string → bool;
  k_ReadFile : Trace → string → option string;
  k_ReadDir : Trace → string → option (list DirEntry);
  k_Now : Trace → Z
}.

Definition Sys (A : Type) : Type := Trace → A * Trace.

Definition ret {A} (a : A) : Sys A := λ tr, (a, tr).

Definition bind {A B} (m : Sys A) (k : A → Sys B) : Sys B :=
  λ tr, let '(a, tr') := m tr in k a tr'.

Notation "x <- m ;; k" := (bind m (λ x, k))
  (at level 100, m at next level, right associativity).

(** Go's [error] values: what the [os] package returned, a [fmt.Errorf]
    message, or a [fmt.Errorf] message that ends in the [%v] of another
    error. *)
Inductive error :=
| OsError
| Errorf (msg : string)
| Wrapf (msg : string) (cause : error).

Inductive result (A : Type) :=
| Ok (a : A)
| Err (e : error).
Arguments Ok {A} a.
Arguments Err {A} e.

Section Program.

Context (K : Kernel).

Definition os_Stat (path : string) : Sys StatResult :=
  λ tr, let r := k_Stat K tr path in (r, tr ++ [EvStat path r]).

Definition os_MkdirAll (path : string) : Sys bool :=
  λ tr, let r := k_MkdirAll K tr path in (r, tr ++ [EvMkdirAll path r]).

Definition os_WriteFile (path data : string) : Sys bool :=
  λ tr, let r := k_WriteFile K tr path data in (r, tr ++ [EvWriteFile path data r]).

Definition os_ReadFile (path : string) : Sys (option string) :=
  λ tr, let r := k_ReadFile K tr path in (r, tr ++ [EvReadFile path r]).

Definition os_ReadDir (path : string) : Sys (option (list DirEntry)) :=
  λ tr, let r := k_ReadDir K tr path in (r, tr ++ [EvReadDir path r]).

Definition time_Now : Sys Z :=
  λ tr, let t := k_Now K tr in (t, tr ++ [EvNow t]).

(** *** [process.go] *)

Definition procPath (pid : Z) : string := "/proc/" +:+ Go.Itoa pid.

(** The loop of [getProcessChildren] over the entries of [/proc];
    every [continue] of the source is a call on the rest of the list. *)
Fixpoint scanEntries (pid : Z) (entries : list DirEntry) (children : list Z)
  : Sys (list Z) :=
  match entries with
  | [] => ret children
  | entry :: rest =>
      if negb (entry_IsDir entry) then scanEntries pid rest children
      else
        match Go.Atoi (entry_Name entry) with
        | None => scanEntries pid rest children
        | Some childPid =>
            content <- os_ReadFile (Go.PathJoin ["/proc"; entry_Name entry; "stat"]) ;;
            match content with
            | None => scanEntries pid rest children
            | Some text =>
                let fields := Go.Fields text in
                if (length fields <? 4)%nat then scanEntries pid rest children
                else
                  match Go.Atoi (nth 3 fields "") with
                  | None => scanEntries pid rest children
                  | Some ppid =>
                      if bool_decide (ppid = pid)
                      then scanEntries pid rest (children ++ [childPid])
                      else scanEntries pid rest children
                  end
            end
        end
  end.

Definition getProcessChildren (pid : Z) : Sys (result (list Z)) :=
  entries <- os_ReadDir "/proc" ;;
  match entries with
  | None => ret (Err (Wrapf "failed to read /proc directory" OsError))
  | Some es =>
      children <- scanEntries pid es [] ;;
      ret (Ok children)
  end.

(** The two variables captured by the closure [findDescendants]. *)
Record Scan := mkScan { descendants : list Z; visited : gset Z }.

(** The [for] loop of [findDescendants] over the children just read; [rec]
    is the recursive call, whose error is dropped by the [continue]. *)
Definition descendLoop (rec : Z → Scan → Sys (option (option error * Scan)))
  : list Z → Scan → Sys (option (option error * Scan)) :=
  fix loop (cs : list Z) (sc : Scan) :=
    match cs with
    | [] => ret (Some (None, sc))
    | childPid :: cs' =>
        let sc := mkScan (descendants sc ++ [childPid]) (visited sc) in
        r <- rec childPid sc ;;
        match r with
        | None => ret None
        | Some (_, sc) => loop cs' sc
        end
    end.

(** [findDescendants], the recursive closure of [getAllDescendants].  Go
    recursion has no bound of its own: [fuel] bounds the depth here, and
    [None] says that it ran out. *)
Fixpoint findDescendants (fuel : nat) (parentPid : Z) (sc : Scan)
  : Sys (option (option error * Scan)) :=
  match fuel with
  | O => ret None
  | S fuel' =>
      if bool_decide (parentPid ∈ visited sc) then ret (Some (None, sc))
      else
        let sc := mkScan (descendants sc) ({[parentPid]} ∪ visited sc) in
        r <- getProcessChildren parentPid ;;
        match r with
        | Err e => ret (Some (Some e, sc))
        | Ok children => descendLoop (findDescendants fuel') children sc
        end
  end.

Definition getAllDescendants (fuel : nat) (pid : Z) : Sys (option (result (list Z))) :=
  r <- findDescendants fuel pid (mkScan [] ∅) ;;
  match r with
  | None => ret None
  | Some (Some e, _) => ret (Some (Err e))
  | Some (None, sc) => ret (Some (Ok (descendants sc)))
  end.

Definition processExists (pid : Z) : Sys bool :=
  r <- os_Stat (procPath pid) ;;
  ret (match r with StatOk => true | _ => false end).

Definition getProcessName (pid : Z) : Sys string :=
  content <- os_ReadFile (procPath pid +:+ "/comm") ;;
  match content with
  | None => ret ("PID-" +:+ Go.Itoa pid)
  | Some text => ret (Go.TrimSpace text)
  end.

Definition validateProcessAccess (pid : Z) : Sys (option error) :=
  ex <- processExists pid ;;
  if negb ex then
    ret (Some (Errorf ("process " +:+ Go.Itoa pid +:+ " does not exist")))
  else
    r <- os_Stat (procPath pid +:+ "/cgroup") ;;
    match r with
    | StatOk => ret None
    | _ => ret (Some (Wrapf ("cannot access cgroup info for process " +:+ Go.Itoa pid)
                            OsError))
    end.

(** *** [cgroups.go] *)

Definition newline : string := String "010"%char "".
Definition cpuPeriod : string := "100000" +:+ newline.
Definition cpuQuota : string := "1000" +:+ newline.
Definition JailCpuCgroup : string := "jail-cpu".
Definition JailNetworkCgroup : string := "jail-network".
Definition JailNetworkCpuCgroup : string := "jail-network-cpu".

(** [strconv.Itoa(pid) + "\n"], the text written into a [cgroup.procs]. *)
Definition pidLine (pid : Z) : string := Go.Itoa pid +:+ newline.

Definition detectCgroupVersion : Sys (Z * string * option error) :=
  r <- os_Stat "/sys/fs/cgroup/cgroup.controllers" ;;
  match r with
  | StatOk => ret (2, "/sys/fs/cgroup", None)
  | _ =>
      r <- os_Stat "/sys/fs/cgroup/memory" ;;
      match r with
      | StatOk => ret (1, "/sys/fs/cgroup", None)
      | _ => ret (0, "", Some (Errorf "neither cgroups v1 nor v2 found"))
      end
  end.

Definition setupCpuLimitV2 (state : JailerState) : Sys (option error) :=
  let cpuMaxFile := Go.PathJoin [CpuCgroupPath state; "cpu.max"] in
  ok <- os_WriteFile cpuMaxFile ("10000 100000" +:+ newline) ;;
  if ok then ret None
  else ret (Some (Wrapf ("failed to set CPU limit in " +:+ cpuMaxFile) OsError)).

Definition initializeCgroupV2 (state : JailerState) : Sys (option error) :=
  ok <- os_MkdirAll (NetworkCgroupPath state) ;;
  if negb ok then ret (Some (Wrapf "failed to create network cgroup directory" OsError))
  else
  ok <- os_MkdirAll (CpuCgroupPath state) ;;
  if negb ok then ret (Some (Wrapf "failed to create CPU cgroup directory" OsError))
  else
  ok <- os_MkdirAll (NetworkCpuCgroupPath state) ;;
  if negb ok then
    ret (Some (Wrapf "failed to create network and CPU combined cgroup directory" OsError))
  else
  _ <- os_WriteFile "/sys/fs/cgroup/cgroup.subtree_control"
                    ("+memory +pids +cpu" +:+ newline) ;;
  err <- setupCpuLimitV2 state ;;
  match err with
  | Some e => ret (Some (Wrapf "failed to setup CPU limit" e))
  | None => ret None
  end.

Definition setupCpuLimitV1 (state : JailerState) : Sys (option error) :=
  let cpuCfsPeriodFile := Go.PathJoin [CpuCgroupPath state; "cpu.cfs_period_us"] in
  let cpuCfsQuotaFile := Go.PathJoin [CpuCgroupPath state; "cpu.cfs_quota_us"] in
  r <- os_Stat (CpuCgroupPath state) ;;
  match r with
  | StatNotExist => ret (Some (Wrapf "CPU cgroup directory does not exist" OsError))
  | _ =>
  ok <- os_WriteFile cpuCfsPeriodFile cpuPeriod ;;
  if negb ok then
    ret (Some (Wrapf ("failed to set CPU period in " +:+ cpuCfsPeriodFile) OsError))
  else
  ok <- os_WriteFile cpuCfsQuotaFile cpuQuota ;;
  if negb ok then
    ret (Some (Wrapf ("failed to set CPU quota in " +:+ cpuCfsQuotaFile) OsError))
  else
  let combinedCpuCgroupPath := NetworkCpuCgroupPath state in
  let cpuCfsPeriodFileCombined := Go.PathJoin [combinedCpuCgroupPath; "cpu.cfs_period_us"] in
  let cpuCfsQuotaFileCombined := Go.PathJoin [combinedCpuCgroupPath; "cpu.cfs_quota_us"] in
  ok <- os_WriteFile cpuCfsPeriodFileCombined cpuPeriod ;;
  if negb ok then
    ret (Some (Wrapf ("failed to set CPU period in " +:+ cpuCfsPeriodFileCombined) OsError))
  else
  ok <- os_WriteFile cpuCfsQuotaFileCombined cpuQuota ;;
  if negb ok then
    ret (Some (Wrapf ("failed to set CPU quota in " +:+ cpuCfsQuotaFileCombined) OsError))
  else ret None
  end.

(** The first loop of [initializeCgroupV1]. *)
Fixpoint createNetworkCgroups (subsystems : list string) : Sys (option error) :=
  match subsystems with
  | [] => ret None
  | subsys :: rest =>
      let cgroupDir := Go.PathJoin ["/sys/fs/cgroup"; subsys; JailNetworkCgroup] in
      ok <- os_MkdirAll cgroupDir ;;
      if negb ok then
        ret (Some (Wrapf ("failed to create cgroup for subsystem " +:+ subsys) OsError))
      else createNetworkCgroups rest
  end.

Definition initializeCgroupV1 (state : JailerState) : Sys (option error) :=
  let subsystems := ["memory"; "pids"; "net_cls"; "cpu"] in
  err <- createNetworkCgroups subsystems ;;
  match err with
  | Some e => ret (Some e)
  | None =>
  let cpuCgroupDir := Go.PathJoin ["/sys/fs/cgroup/cpu"; JailCpuCgroup] in
  ok <- os_MkdirAll cpuCgroupDir ;;
  if negb ok then ret (Some (Wrapf "failed to create CPU cgroup directory" OsError))
  else
  r <- os_Stat cpuCgroupDir ;;
  match r with
  | StatNotExist => ret (Some (Wrapf "CPU cgroup directory does not exist" OsError))
  | _ =>
  let networkCpuCgroupDir := Go.PathJoin ["/sys/fs/cgroup/cpu"; JailNetworkCpuCgroup] in
  ok <- os_MkdirAll networkCpuCgroupDir ;;
  if negb ok then
    ret (Some (Wrapf "failed to create network and CPU combined cgroup directory" OsError))
  else
  r <- os_Stat networkCpuCgroupDir ;;
  match r with
  | StatNotExist =>
      ret (Some (Wrapf "network and CPU combined cgroup directory does not exist" OsError))
  | _ =>
  err <- setupCpuLimitV1 state ;;
  match err with
  | Some e => ret (Some (Wrapf "failed to setup CPU limit" e))
  | None => ret None
  end
  end
  end
  end.

Definition initializeCgroup (state : JailerState) : Sys (option error * JailerState) :=
  r <- detectCgroupVersion ;;
  let '(version, basePath, err) := r in
  match err with
  | Some e => ret (Some (Wrapf "failed to detect cgroup version" e), state)
  | None =>
      if bool_decide (version = 2) then
        let state :=
          mkState (ActiveJails state)
                  (Go.PathJoin [basePath; JailNetworkCgroup])
                  (Go.PathJoin [basePath; JailCpuCgroup])
                  (Go.PathJoin [basePath; JailNetworkCpuCgroup])
                  version (FirewallTool state) in
        err <- initializeCgroupV2 state ;;
        ret (err, state)
      else
        let state :=
          mkState (ActiveJails state)
                  (Go.PathJoin [basePath; "memory"; JailNetworkCgroup])
                  (Go.PathJoin [basePath; "cpu"; JailCpuCgroup])
                  (Go.PathJoin [basePath; "cpu"; JailNetworkCpuCgroup])
                  version (FirewallTool state) in
        err <- initializeCgroupV1 state ;;
        ret (err, state)
  end.

(** The loop of [getProcessCgroup] over the lines of [/proc/<pid>/cgroup]. *)
Fixpoint firstCgroupPath (lines : list string) : option string :=
  match lines with
  | [] => None
  | line :: rest =>
      if bool_decide (line = "") then firstCgroupPath rest
      else
        let parts := Go.Split line ":"%char in
        if (3 <=? length parts)%nat then Some (nth 2 parts "")
        else firstCgroupPath rest
  end.

Definition getProcessCgroup (pid : Z) : Sys (result string) :=
  content <- os_ReadFile (procPath pid +:+ "/cgroup") ;;
  match content with
  | None =>
      ret (Err (Wrapf ("failed to read cgroup file for PID " +:+ Go.Itoa pid) OsError))
  | Some text =>
      match firstCgroupPath (Go.Split text "010"%char) with
      | Some path => ret (Ok path)
      | None => ret (Err (Errorf ("no cgroup found for PID " +:+ Go.Itoa pid)))
      end
  end.

Definition moveProcessToCgroupV2 (state : JailerState) (pid : Z) : Sys (option error) :=
  let procsFile := Go.PathJoin [NetworkCgroupPath state; "cgroup.procs"] in
  ok <- os_WriteFile procsFile (pidLine pid) ;;
  if ok then ret None
  else ret (Some (Wrapf ("failed to move PID " +:+ Go.Itoa pid +:+ " to jail cgroup")
                        OsError)).

(** The loop of [moveProcessToCgroupV1] over its subsystems. *)
Fixpoint moveToSubsystemsV1 (subsystems : list string) (pid : Z) : Sys (option error) :=
  match subsystems with
  | [] => ret None
  | subsys :: rest =>
      let procsFile := Go.PathJoin ["/sys/fs/cgroup"; subsys; "jail"; "cgroup.procs"] in
      ok <- os_WriteFile procsFile (pidLine pid) ;;
      if negb ok then
        ret (Some (Wrapf ("failed to move PID " +:+ Go.Itoa pid
                          +:+ " to jail cgroup (subsystem " +:+ subsys +:+ ")") OsError))
      else moveToSubsystemsV1 rest pid
  end.

Definition moveProcessToCgroupV1 (_ : JailerState) (pid : Z) : Sys (option error) :=
  moveToSubsystemsV1 ["net_cls"] pid.

Definition moveProcessToCgroup (state : JailerState) (pid : Z) : Sys (option error) :=
  if bool_decide (CgroupVersion state = 2) then moveProcessToCgroupV2 state pid
  else moveProcessToCgroupV1 state pid.

Definition moveProcessToCpuCgroupV2 (state : JailerState) (pid : Z) : Sys (option error) :=
  let procsFile := Go.PathJoin [CpuCgroupPath state; "cgroup.procs"] in
  ok <- os_WriteFile procsFile (pidLine pid) ;;
  if ok then ret None
  else ret (Some (Wrapf ("failed to move PID " +:+ Go.Itoa pid +:+ " to CPU jail cgroup")
                        OsError)).

Definition moveProcessToCpuCgroupV1 (state : JailerState) (pid : Z) : Sys (option error) :=
  ok <- os_MkdirAll (CpuCgroupPath state) ;;
  if negb ok then ret (Some (Wrapf "failed to create CPU cgroup directory" OsError))
  else
  r <- os_Stat (CpuCgroupPath state) ;;
  match r with
  | StatNotExist => ret (Some (Wrapf "CPU cgroup directory does not exist" OsError))
  | _ =>
  let procsFile := Go.PathJoin [CpuCgroupPath state; "cgroup.procs"] in
  ok <- os_WriteFile procsFile (pidLine pid) ;;
  if ok then ret None
  else ret (Some (Wrapf ("failed to move PID " +:+ Go.Itoa pid +:+ " to CPU jail cgroup")
                        OsError))
  end.

Definition moveProcessToCpuCgroup (state : JailerState) (pid : Z) : Sys (option error) :=
  if bool_decide (CgroupVersion state = 2) then moveProcessToCpuCgroupV2 state pid
  else moveProcessToCpuCgroupV1 state pid.

Definition restoreProcessCgroupV2 (pid : Z) (originalCgroup : string) : Sys (option error) :=
  let procsFile :=
    Go.PathJoin ["/sys/fs/cgroup"; Go.TrimPrefixSlash originalCgroup; "cgroup.procs"] in
  ok <- os_WriteFile procsFile (pidLine pid) ;;
  if ok then ret None
  else ret (Some (Wrapf ("failed to restore PID " +:+ Go.Itoa pid
                         +:+ " to original cgroup " +:+ originalCgroup) OsError)).

(** The loop of [restoreProcessCgroupV1] over its subsystems. *)
Fixpoint restoreSubsystemsV1 (subsystems : list string) (pid : Z) (originalCgroup : string)
  : Sys (option error) :=
  match subsystems with
  | [] => ret None
  | subsys :: rest =>
      let procsFile :=
        Go.PathJoin ["/sys/fs/cgroup"; subsys; Go.TrimPrefixSlash originalCgroup;
                     "cgroup.procs"] in
      ok <- os_WriteFile procsFile (pidLine pid) ;;
      if negb ok then
        ret (Some (Wrapf ("failed to restore PID " +:+ Go.Itoa pid
                          +:+ " to original cgroup " +:+ originalCgroup
                          +:+ " (subsystem " +:+ subsys +:+ ")") OsError))
      else restoreSubsystemsV1 rest pid originalCgroup
  end.

Definition restoreProcessCgroupV1 (pid : Z) (originalCgroup : string) : Sys (option error) :=
  restoreSubsystemsV1 ["memory"; "pids"; "net_cls"; "cpu"] pid originalCgroup.

Definition restoreProcessCgroup (state : JailerState) (pid : Z) (originalCgroup : string)
  : Sys (option error) :=
  if bool_decide (CgroupVersion state = 2) then restoreProcessCgroupV2 pid originalCgroup
  else restoreProcessCgroupV1 pid originalCgroup.

(** [combinedJailType] is only printed. *)
Definition moveProcessToCombinedCgroup (state : JailerState) (pid : Z)
    (combinedJailType : string) : Sys (option error) :=
  let combinedCgroupPath := NetworkCpuCgroupPath state in
  let netClsDir := Go.PathJoin ["/sys/fs/cgroup/net_cls"; JailNetworkCpuCgroup] in
  ok <- os_MkdirAll netClsDir ;;
  if negb ok then
    ret (Some (Wrapf "failed to create net_cls directory for combined jail" OsError))
  else
  let procsFile := Go.PathJoin [combinedCgroupPath; "cgroup.procs"] in
  ok <- os_WriteFile procsFile (pidLine pid) ;;
  if negb ok then
    ret (Some (Wrapf ("failed to move PID " +:+ Go.Itoa pid +:+ " to combined cgroup "
                      +:+ combinedCgroupPath) OsError))
  else
  let netClsProcsFile := Go.PathJoin [netClsDir; "cgroup.procs"] in
  ok <- os_WriteFile netClsProcsFile (pidLine pid) ;;
  if negb ok then
    ret (Some (Wrapf ("failed to move PID " +:+ Go.Itoa pid
                      +:+ " to net_cls combined cgroup " +:+ netClsDir) OsError))
  else ret None.

(** *** [process.go]: the reconciliation sweep *)

(** The inner loop of [cleanupDeadProcesses].  [aliveChildren] is
    [jail.Children[:0]], so it shares the backing array [arr] of
    [jail.Children]: every [append] writes slot [w] of the array that the
    [range] loop is still reading at index [i], with [n] elements to go.
    The result is the array, the length of [aliveChildren] and the count of
    dead children. *)
Fixpoint pruneLoop (n i : nat) (arr : list Z) (w deadChildren : nat)
  : Sys (list Z * nat * nat) :=
  match n with
  | O => ret (arr, w, deadChildren)
  | S n' =>
      match arr !! i with
      | None => ret (arr, w, deadChildren)
      | Some childPid =>
          ex <- processExists childPid ;;
          if ex then pruneLoop n' (S i) (<[w := childPid]> arr) (S w) deadChildren
          else pruneLoop n' (S i) arr w (S deadChildren)
      end
  end.

(** What has been collected by the first loop: the dead roots, and the
    records as the loop left them behind their pointers. *)
Record Sweep := mkSweep { deadProcesses : list Z; sweptJails : gmap Z Jail }.

(** One iteration of the first loop, for the entry [pid ↦ jail]. *)
Definition sweepJail (pid : Z) (jail : Jail) (sw : Sweep) : Sys Sweep :=
  ex <- processExists pid ;;
  if negb ex then ret (mkSweep (deadProcesses sw ++ [pid]) (sweptJails sw))
  else
    r <- pruneLoop (length (Children jail)) 0 (Children jail) 0 0 ;;
    let '(arr, w, deadChildren) := r in
    let children := if (0 <? deadChildren)%nat then take w arr else arr in
    ret (mkSweep (deadProcesses sw) (<[pid := setChildren jail children]> (sweptJails sw))).

(** The first loop ranges over the map; Go fixes no order, the model takes
    the one of [map_fold]. *)
Definition sweepJails (state : JailerState) : Sys Sweep :=
  map_fold (λ pid jail acc, sw <- acc ;; sweepJail pid jail sw)
           (ret (mkSweep [] (ActiveJails state))) (ActiveJails state).

Definition cleanupDeadProcesses (state : JailerState) : Sys JailerState :=
  sw <- sweepJails state ;;
  ret (setActiveJails state
         (foldl (λ jails pid, delete pid jails) (sweptJails sw) (deadProcesses sw))).

(** *** [main.go]: the transitions *)

(** The descendant loop of [jailProcess]; a descendant that cannot be moved
    is left out of [successfulDescendants]. *)
Fixpoint moveDescendants (state : JailerState) (jailType : string)
    (descendants successfulDescendants : list Z) : Sys (list Z) :=
  match descendants with
  | [] => ret successfulDescendants
  | descendantPid :: rest =>
      err <- (if bool_decide (jailType = "cpu")
              then moveProcessToCpuCgroup state descendantPid
              else moveProcessToCgroup state descendantPid) ;;
      match err with
      | Some _ => moveDescendants state jailType rest successfulDescendants
      | None => moveDescendants state jailType rest (successfulDescendants ++ [descendantPid])
      end
  end.

Definition jailProcess (fuel : nat) (state : JailerState) (jailType pidStr : string)
  : Sys (option (option error * JailerState)) :=
  match Go.Atoi pidStr with
  | None => ret (Some (Some (Errorf ("invalid PID: " +:+ pidStr)), state))
  | Some pid =>
  if negb (bool_decide (jailType = "network")) && negb (bool_decide (jailType = "cpu")) then
    ret (Some (Some (Errorf ("unsupported jail type: " +:+ jailType
                             +:+ " (only 'network' and 'cpu' are supported)")), state))
  else
  match ActiveJails state !! pid with
  | Some jail =>
      if HasJailType jail jailType then
        ret (Some (Some (Errorf ("process " +:+ Go.Itoa pid +:+ " is already jailed with "
                                 +:+ jailType +:+ " jail")), state))
      else
        let jail := AddJailType jail jailType in
        let state := setActiveJails state (<[pid := jail]> (ActiveJails state)) in
        _ <- getProcessName pid ;;
        let combinedJailType := GetJailTypesString jail in
        err <- moveProcessToCombinedCgroup state pid combinedJailType ;;
        match err with
        | Some e => ret (Some (Some (Wrapf "failed to move process to combined jail" e), state))
        | None => ret (Some (None, state))
        end
  | None =>
  err <- validateProcessAccess pid ;;
  match err with
  | Some e => ret (Some (Some e, state))
  | None =>
  r <- getProcessCgroup pid ;;
  match r with
  | Err e =>
      ret (Some (Some (Wrapf ("failed to get original cgroup for PID " +:+ Go.Itoa pid) e),
                 state))
  | Ok originalCgroup =>
  r <- getAllDescendants fuel pid ;;
  match r with
  | None => ret None
  | Some (Err e) =>
      ret (Some (Some (Wrapf ("failed to get descendants for PID " +:+ Go.Itoa pid) e),
                 state))
  | Some (Ok descendants) =>
  _ <- getProcessName pid ;;
  err <- (if bool_decide (jailType = "cpu") then moveProcessToCpuCgroup state pid
          else moveProcessToCgroup state pid) ;;
  match err with
  | Some e =>
      ret (Some (Some (Wrapf (if bool_decide (jailType = "cpu")
                              then "failed to move main process to CPU jail"
                              else "failed to move main process to jail") e), state))
  | None =>
  successfulDescendants <- moveDescendants state jailType descendants [] ;;
  now <- time_Now ;;
  let jail := mkJail pid originalCgroup [jailType] now successfulDescendants in
  ret (Some (None, setActiveJails state (<[pid := jail]> (ActiveJails state))))
  end
  end
  end
  end
  end
  end.

(** The child loop of [unjailProcess]; [restoredCount] is only printed. *)
Fixpoint restoreChildren (state : JailerState) (originalCgroup : string)
    (children : list Z) (restoredCount : nat) : Sys nat :=
  match children with
  | [] => ret restoredCount
  | childPid :: rest =>
      ex <- processExists childPid ;;
      if negb ex then restoreChildren state originalCgroup rest restoredCount
      else
        err <- restoreProcessCgroup state childPid originalCgroup ;;
        match err with
        | Some _ => restoreChildren state originalCgroup rest restoredCount
        | None => restoreChildren state originalCgroup rest (S restoredCount)
        end
  end.

Definition unjailProcess (state : JailerState) (pidStr : string)
  : Sys (option error * JailerState) :=
  match Go.Atoi pidStr with
  | None => ret (Some (Errorf ("invalid PID: " +:+ pidStr)), state)
  | Some pid =>
  match ActiveJails state !! pid with
  | None => ret (Some (Errorf ("process " +:+ Go.Itoa pid +:+ " is not jailed")), state)
  | Some jail =>
      _ <- getProcessName pid ;;
      ex <- processExists pid ;;
      _ <- (if ex then restoreProcessCgroup state pid (OriginalCgroup jail) else ret None) ;;
      _ <- restoreChildren state (OriginalCgroup jail) (Children jail) 0 ;;
      ret (None, setActiveJails state (delete pid (ActiveJails state)))
  end
  end.

(** The three child loops of [unjailProcessSelective] differ only in the
    move they call; a failed move is a warning. *)
Fixpoint moveLiveChildren (move : Z → Sys (option error)) (children : list Z) : Sys unit :=
  match children with
  | [] => ret tt
  | childPid :: rest =>
      ex <- processExists childPid ;;
      if ex then _ <- move childPid ;; moveLiveChildren move rest
      else moveLiveChildren move rest
  end.

Definition unjailProcessSelective (state : JailerState) (jailType pidStr : string)
  : Sys (option error * JailerState) :=
  match Go.Atoi pidStr with
  | None => ret (Some (Errorf ("invalid PID: " +:+ pidStr)), state)
  | Some pid =>
  match ActiveJails state !! pid with
  | None => ret (Some (Errorf ("process " +:+ Go.Itoa pid +:+ " is not jailed")), state)
  | Some jail =>
  if negb (HasJailType jail jailType) then
    ret (Some (Errorf ("process " +:+ Go.Itoa pid +:+ " is not jailed with "
                       +:+ jailType +:+ " jail")), state)
  else
  _ <- getProcessName pid ;;
  if bool_decide (length (JailTypes jail) = 1%nat) then unjailProcess state pidStr
  else
  let jail := RemoveJailType jail jailType in
  let state := setActiveJails state (<[pid := jail]> (ActiveJails state)) in
  let remainingJailTypes := GetJailTypesString jail in
  if bool_decide (length (JailTypes jail) = 1%nat) then
    let remainingType := nth 0 (JailTypes jail) "" in
    if bool_decide (remainingType = "cpu") then
      _ <- moveProcessToCpuCgroup state pid ;;
      _ <- moveLiveChildren (moveProcessToCpuCgroup state) (Children jail) ;;
      ret (None, state)
    else if bool_decide (remainingType = "network") then
      _ <- moveProcessToCgroup state pid ;;
      _ <- moveLiveChildren (moveProcessToCgroup state) (Children jail) ;;
      ret (None, state)
    else ret (None, state)
  else
    _ <- moveProcessToCombinedCgroup state pid remainingJailTypes ;;
    _ <- moveLiveChildren
           (λ childPid, moveProcessToCombinedCgroup state childPid remainingJailTypes)
           (Children jail) ;;
    ret (None, state)
  end
  end.

End Program.

(** * Properties *)

(** ** The type list of a record *)

Inductive JailTypeOp :=
| OpAdd (jailType : string)
| OpRemove (jailType : string).

Definition applyOp (j : Jail) (op : JailTypeOp) : Jail :=
  match op with
  | OpAdd t => AddJailType j t
  | OpRemove t => RemoveJailType j t
  end.

Lemma hasType_elem_of ts t : hasType ts t = true ↔ t ∈ ts.
Proof.
  induction ts as [|x ts IH]; simpl.
  - split; [discriminate | by intros ?%elem_of_nil].
  - case_bool_decide as Hx.
    + subst. split; [intros _; left | done].
    + rewrite IH. split; [by right | ].
      intros [?|?]%elem_of_cons; [congruence | done].
Qed.

Lemma removeFirst_subset ts t x : x ∈ removeFirst ts t → x ∈ ts.
Proof.
  induction ts as [|y ts IH]; simpl; [done|].
  case_bool_decide; [by right|].
  intros [->|?]%elem_of_cons; [left | right; auto].
Qed.

Lemma removeFirst_NoDup ts t : NoDup ts → NoDup (removeFirst ts t).
Proof.
  induction 1 as [|y ts Hy Hnd IH]; simpl; [constructor|].
  case_bool_decide; [done|].
  constructor; [|done]. intros ?%removeFirst_subset. done.
Qed.

Lemma AddJailType_NoDup j t : NoDup (JailTypes j) → NoDup (JailTypes (AddJailType j t)).
Proof.
  intros Hnd. unfold AddJailType, HasJailType.
  destruct (hasType (JailTypes j) t) eqn:Hh; simpl; [done|].
  apply NoDup_app. split_and!; [done | | apply NoDup_singleton].
  intros x Hx ->%list_elem_of_singleton.
  apply hasType_elem_of in Hx. congruence.
Qed.

Lemma applyOp_NoDup j op : NoDup (JailTypes j) → NoDup (JailTypes (applyOp j op)).
Proof.
  destruct op; simpl; [apply AddJailType_NoDup | apply removeFirst_NoDup].
Qed.

Lemma foldl_applyOp_NoDup ops j :
  NoDup (JailTypes j) → NoDup (JailTypes (foldl applyOp j ops)).
Proof.
  revert j. induction ops as [|op ops IH]; intros j Hnd; simpl; [done|].
  by apply IH, applyOp_NoDup.
Qed.

(** C10: from a duplicate-free [JailTypes], every sequence of [AddJailType]
    and [RemoveJailType] calls leaves the list duplicate-free, so that its
    length is the cardinality of the set of its members; and [AddJailType] of
    a type that is present changes nothing. *)
Theorem C10_JailTypes_duplicate_free (j : Jail) (ops : list JailTypeOp) :
  NoDup (JailTypes j) →
  let j' := foldl applyOp j ops in
  NoDup (JailTypes j')
  ∧ length (JailTypes j') = size (list_to_set (JailTypes j') : gset string)
  ∧ (∀ t, HasJailType j' t = true → AddJailType j' t = j').
Proof.
  intros Hnd j'.
  assert (NoDup (JailTypes j')) as Hnd' by by apply foldl_applyOp_NoDup.
  split_and!; [done | | ].
  - by rewrite size_list_to_set.
  - intros t Ht. unfold AddJailType. by rewrite Ht.
Qed.

Lemma C10_witness :
  let j := mkJail 1234 "/" ["network"] 0 [] in
  let j' := foldl applyOp j [OpAdd "cpu"; OpAdd "network"; OpRemove "network"; OpAdd "cpu"] in
  NoDup (JailTypes j')
  ∧ length (JailTypes j') = size (list_to_set (JailTypes j') : gset string)
  ∧ (∀ t, HasJailType j' t = true → AddJailType j' t = j').
Proof.
  apply (C10_JailTypes_duplicate_free (mkJail 1234 "/" ["network"] 0 [])).
  simpl. apply NoDup_singleton.
Defined.

(** ** Runs of the monad

    [runs m tr a evs]: started after the history [tr], the computation [m]
    returns [a] and makes the calls [evs]. *)

Definition runs {A} (m : Sys A) (tr : Trace) (a : A) (evs : list Event) : Prop :=
  m tr = (a, tr ++ evs).

Lemma runs_ret {A} (a : A) tr : runs (ret a) tr a [].
Proof. unfold runs, ret. by rewrite app_nil_r. Qed.

Lemma runs_bind {A B} (m : Sys A) (k : A → Sys B) tr a e1 b e2 :
  runs m tr a e1 → runs (k a) (tr ++ e1) b e2 → runs (x <- m ;; k x) tr b (e1 ++ e2).
Proof. unfold runs, bind. intros -> ->. by rewrite app_assoc. Qed.

Lemma runs_det {A} (m : Sys A) tr a a' evs evs' :
  runs m tr a evs → runs m tr a' evs' → a = a' ∧ evs = evs'.
Proof.
  unfold runs. intros -> [= -> H]. split; [done|]. by apply app_inv_head in H.
Qed.

Section Runs.

Context (K : Kernel).

Lemma runs_Stat path tr :
  runs (os_Stat K path) tr (k_Stat K tr path) [EvStat path (k_Stat K tr path)].
Proof. done. Qed.

Lemma runs_MkdirAll path tr :
  runs (os_MkdirAll K path) tr (k_MkdirAll K tr path)
       [EvMkdirAll path (k_MkdirAll K tr path)].
Proof. done. Qed.

Lemma runs_WriteFile path data tr :
  runs (os_WriteFile K path data) tr (k_WriteFile K tr path data)
       [EvWriteFile path data (k_WriteFile K tr path data)].
Proof. done. Qed.

Lemma runs_WriteFile_eq path data tr ok :
  k_WriteFile K tr path data = ok →
  runs (os_WriteFile K path data) tr ok [EvWriteFile path data ok].
Proof. by intros <-. Qed.

Lemma runs_MkdirAll_eq path tr ok :
  k_MkdirAll K tr path = ok → runs (os_MkdirAll K path) tr ok [EvMkdirAll path ok].
Proof. by intros <-. Qed.

Lemma runs_Stat_eq path tr r :
  k_Stat K tr path = r → runs (os_Stat K path) tr r [EvStat path r].
Proof. by intros <-. Qed.

Lemma runs_ReadFile path tr :
  runs (os_ReadFile K path) tr (k_ReadFile K tr path)
       [EvReadFile path (k_ReadFile K tr path)].
Proof. done. Qed.

Lemma runs_ReadDir path tr :
  runs (os_ReadDir K path) tr (k_ReadDir K tr path)
       [EvReadDir path (k_ReadDir K tr path)].
Proof. done. Qed.

Lemma runs_ReadDir_eq path tr r :
  k_ReadDir K tr path = r → runs (os_ReadDir K path) tr r [EvReadDir path r].
Proof. by intros <-. Qed.

Lemma runs_ReadFile_eq path tr r :
  k_ReadFile K tr path = r → runs (os_ReadFile K path) tr r [EvReadFile path r].
Proof. by intros <-. Qed.

(** Whether the kernel reports [pid] after the history [tr]. *)
Definition alive (tr : Trace) (pid : Z) : bool :=
  match k_Stat K tr (procPath pid) with StatOk => true | _ => false end.

Lemma runs_processExists pid tr :
  runs (processExists K pid) tr (alive tr pid)
       [EvStat (procPath pid) (k_Stat K tr (procPath pid))].
Proof. done. Qed.

Lemma runs_getProcessName pid tr :
  ∃ name, runs (getProcessName K pid) tr name
               [EvReadFile (procPath pid +:+ "/comm")
                           (k_ReadFile K tr (procPath pid +:+ "/comm"))].
Proof.
  unfold getProcessName, runs, bind, os_ReadFile, ret.
  destruct (k_ReadFile _ _ _); eauto.
Qed.

(** *** Restoring *)

(** The [cgroup.procs] files that a restore to [originalCgroup] writes, in
    the order of the writes. *)
Definition restoreFiles (version : Z) (originalCgroup : string) : list string :=
  if bool_decide (version = 2) then
    [Go.PathJoin ["/sys/fs/cgroup"; Go.TrimPrefixSlash originalCgroup; "cgroup.procs"]]
  else
    (λ subsys, Go.PathJoin ["/sys/fs/cgroup"; subsys; Go.TrimPrefixSlash originalCgroup;
                            "cgroup.procs"])
      <$> ["memory"; "pids"; "net_cls"; "cpu"].

(** Every write among [evs] writes [pid] into one of [files]. *)
Definition writesOnly (files : list string) (pid : Z) (evs : list Event) : Prop :=
  Forall (λ ev, ∃ file ok, file ∈ files ∧ ev = EvWriteFile file (pidLine pid) ok) evs.

Lemma writesOnly_mono files files' pid evs :
  files ⊆ files' → writesOnly files pid evs → writesOnly files' pid evs.
Proof.
  intros Hsub H. eapply Forall_impl; [exact H|]. intros ev (file & ok & Hin & ->).
  exists file, ok. split; [by apply Hsub | done].
Qed.

Lemma restoreSubsystemsV1_runs subsystems pid cg tr :
  ∃ err evs,
    runs (restoreSubsystemsV1 K subsystems pid cg) tr err evs
    ∧ writesOnly ((λ subsys, Go.PathJoin ["/sys/fs/cgroup"; subsys; Go.TrimPrefixSlash cg;
                                          "cgroup.procs"]) <$> subsystems) pid evs
    ∧ (∀ subsys rest, subsystems = subsys :: rest →
         ∃ ok evs', evs = EvWriteFile (Go.PathJoin ["/sys/fs/cgroup"; subsys;
                                                    Go.TrimPrefixSlash cg; "cgroup.procs"])
                                      (pidLine pid) ok :: evs').
Proof.
  revert tr. induction subsystems as [|subsys rest IH]; intros tr.
  - exists None, []. split_and!; [apply runs_ret | constructor | done].
  - cbn [restoreSubsystemsV1].
    set (file := Go.PathJoin _).
    destruct (k_WriteFile K tr file (pidLine pid)) eqn:Hw.
    + destruct (IH (tr ++ [EvWriteFile file (pidLine pid) true])) as (err & evs & Hr & Hall & _).
      exists err, ([EvWriteFile file (pidLine pid) true] ++ evs). split_and!.
      * eapply runs_bind; [by apply runs_WriteFile_eq|]. exact Hr.
      * constructor.
        -- exists file, true. split; [left | done].
        -- eapply writesOnly_mono; [|exact Hall]. intros x Hx. by right.
      * intros ? ? [= <- <-]. eauto.
    + eexists _, ([EvWriteFile file (pidLine pid) false] ++ []). split_and!.
      * eapply runs_bind; [by apply runs_WriteFile_eq|]. apply runs_ret.
      * constructor; [|constructor]. exists file, false. split; [left | done].
      * intros ? ? [= <- <-]. eauto.
Qed.

Lemma restoreProcessCgroup_runs state pid cg tr :
  ∃ err evs,
    runs (restoreProcessCgroup K state pid cg) tr err evs
    ∧ writesOnly (restoreFiles (CgroupVersion state) cg) pid evs
    ∧ ∃ ok evs', evs = EvWriteFile (hd "" (restoreFiles (CgroupVersion state) cg))
                                   (pidLine pid) ok :: evs'.
Proof.
  unfold restoreProcessCgroup, restoreFiles. case_bool_decide as Hv.
  - unfold restoreProcessCgroupV2. set (file := Go.PathJoin _).
    exists (if k_WriteFile K tr file (pidLine pid) then None
            else Some (Wrapf ("failed to restore PID " +:+ Go.Itoa pid
                              +:+ " to original cgroup " +:+ cg) OsError)),
           ([EvWriteFile file (pidLine pid) (k_WriteFile K tr file (pidLine pid))] ++ []).
    split_and!.
    + eapply runs_bind; [apply runs_WriteFile|].
      destruct (k_WriteFile _ _ _ _); apply runs_ret.
    + constructor; [|constructor]. eexists _, _. split; [left | done].
    + simpl. eauto.
  - destruct (restoreSubsystemsV1_runs ["memory"; "pids"; "net_cls"; "cpu"] pid cg tr)
      as (err & evs & Hr & Hall & Hfirst).
    exists err, evs. split_and!; [exact Hr | exact Hall | ].
    destruct (Hfirst _ _ eq_refl) as (ok & evs' & ->). simpl. eauto.
Qed.

(** The calls of a restore pass over [pids]: for each one a liveness check,
    followed, when the process is there, by the writes of its restore, the
    first of which is always attempted. *)
Fixpoint restoreSteps (files : list string) (pids : list Z) (evs : list Event) : Prop :=
  match pids with
  | [] => evs = []
  | pid :: rest =>
      ∃ r ws evs',
        evs = EvStat (procPath pid) r :: ws ++ evs'
        ∧ match r with
          | StatOk => writesOnly files pid ws
                      ∧ ∃ ok ws', ws = EvWriteFile (hd "" files) (pidLine pid) ok :: ws'
          | _ => ws = []
          end
        ∧ restoreSteps files rest evs'
  end.

Lemma restoreChildren_runs state cg children restoredCount tr :
  ∃ n evs,
    runs (restoreChildren K state cg children restoredCount) tr n evs
    ∧ restoreSteps (restoreFiles (CgroupVersion state) cg) children evs.
Proof.
  revert restoredCount tr.
  induction children as [|childPid rest IH]; intros restoredCount tr.
  - exists restoredCount, []. split; [apply runs_ret | done].
  - cbn [restoreChildren].
    pose proof (runs_processExists childPid tr) as Hex. unfold alive in Hex.
    destruct (k_Stat K tr (procPath childPid)) eqn:Hst.
    + destruct (restoreProcessCgroup_runs state childPid cg
                  (tr ++ [EvStat (procPath childPid) StatOk]))
        as (err & ws & Hws & Hall & Hfirst).
      set (count' := match err with Some _ => restoredCount | None => S restoredCount end).
      destruct (IH count' ((tr ++ [EvStat (procPath childPid) StatOk]) ++ ws))
        as (n & evs & Hr & Hsteps).
      exists n, ([EvStat (procPath childPid) StatOk] ++ ws ++ evs). split.
      * eapply runs_bind; [exact Hex|]. simpl.
        eapply runs_bind; [exact Hws|].
        subst count'. destruct err; exact Hr.
      * simpl. exists StatOk, ws, evs. split_and!; done.
    + destruct (IH restoredCount (tr ++ [EvStat (procPath childPid) StatNotExist]))
        as (n & evs & Hr & Hsteps).
      exists n, ([EvStat (procPath childPid) StatNotExist] ++ evs). split.
      * eapply runs_bind; [exact Hex|]. exact Hr.
      * simpl. exists StatNotExist, [], evs. split_and!; done.
    + destruct (IH restoredCount (tr ++ [EvStat (procPath childPid) StatError]))
        as (n & evs & Hr & Hsteps).
      exists n, ([EvStat (procPath childPid) StatError] ++ evs). split.
      * eapply runs_bind; [exact Hex|]. exact Hr.
      * simpl. exists StatError, [], evs. split_and!; done.
Qed.

(** What [unjailProcess] does on a record: one name lookup, a restore pass
    over the root and the children towards the one [OriginalCgroup] of the
    record, and the record is gone, whatever the kernel answered. *)
Lemma unjailProcess_runs state pidStr pid jail tr :
  Go.Atoi pidStr = Some pid →
  ActiveJails state !! pid = Some jail →
  ∃ steps,
    runs (unjailProcess K state pidStr) tr
         (None, setActiveJails state (delete pid (ActiveJails state)))
         (EvReadFile (procPath pid +:+ "/comm") (k_ReadFile K tr (procPath pid +:+ "/comm"))
            :: steps)
    ∧ restoreSteps (restoreFiles (CgroupVersion state) (OriginalCgroup jail))
                   (pid :: Children jail) steps.
Proof.
  intros Hpid Hjail. unfold unjailProcess. rewrite Hpid, Hjail.
  destruct (runs_getProcessName pid tr) as (name & Hname).
  set (tr1 := tr ++ [EvReadFile (procPath pid +:+ "/comm")
                                (k_ReadFile K tr (procPath pid +:+ "/comm"))]) in *.
  pose proof (runs_processExists pid tr1) as Hex. unfold alive in Hex.
  set (r := k_Stat K tr1 (procPath pid)) in *.
  assert (∃ ws, runs (if match r with StatOk => true | _ => false end
                      then restoreProcessCgroup K state pid (OriginalCgroup jail)
                      else ret None) (tr1 ++ [EvStat (procPath pid) r])
                     (if match r with StatOk => true | _ => false end
                      then fst (restoreProcessCgroup K state pid (OriginalCgroup jail)
                                  (tr1 ++ [EvStat (procPath pid) r]))
                      else None) ws
                ∧ match r with
                  | StatOk =>
                      writesOnly (restoreFiles (CgroupVersion state) (OriginalCgroup jail))
                                 pid ws
                      ∧ ∃ ok ws', ws = EvWriteFile
                                         (hd "" (restoreFiles (CgroupVersion state)
                                                              (OriginalCgroup jail)))
                                         (pidLine pid) ok :: ws'
                  | _ => ws = []
                  end) as (ws & Hws & Hroot).
  { destruct r.
    - destruct (restoreProcessCgroup_runs state pid (OriginalCgroup jail)
                  (tr1 ++ [EvStat (procPath pid) StatOk])) as (err & ws & Hr & Hall & Hfirst).
      exists ws. split; [|done]. unfold runs in *. by rewrite Hr.
    - exists []. split; [apply runs_ret | done].
    - exists []. split; [apply runs_ret | done]. }
  destruct (restoreChildren_runs state (OriginalCgroup jail) (Children jail) 0%nat
              ((tr1 ++ [EvStat (procPath pid) r]) ++ ws)) as (n & evs & Hr & Hsteps).
  exists ([EvStat (procPath pid) r] ++ ws ++ evs ++ []). split.
  - change (EvReadFile ?p ?c :: ?l) with ([EvReadFile p c] ++ l).
    eapply runs_bind; [exact Hname|].
    eapply runs_bind; [exact Hex|].
    eapply runs_bind; [exact Hws|].
    eapply runs_bind; [exact Hr|].
    apply runs_ret.
  - simpl. exists r, ws, evs. rewrite app_nil_r. split_and!; done.
Qed.

End Runs.


(** ** Descendant discovery *)

(** The number of times [/proc] was listed. *)
Fixpoint scans (evs : list Event) : nat :=
  match evs with
  | [] => 0
  | EvReadDir _ _ :: evs' => S (scans evs')
  | _ :: evs' => scans evs'
  end.

Lemma scans_app evs1 evs2 : scans (evs1 ++ evs2) = (scans evs1 + scans evs2)%nat.
Proof. induction evs1 as [|[] evs1 IH]; simpl; lia. Qed.

Section Descendants.

Context (K : Kernel).

(** Every pid that a listing of [/proc] can name lies in the finite set [U]
    (on Linux, the pids up to [pid_max]). *)
Definition pidsWithin (U : gset Z) : Prop :=
  ∀ tr es e c,
    k_ReadDir K tr "/proc" = Some es → e ∈ es → Go.Atoi (entry_Name e) = Some c → c ∈ U.

Lemma scanEntries_runs pid entries children tr :
  ∃ cs evs,
    runs (scanEntries K pid entries children) tr cs evs
    ∧ scans evs = 0%nat
    ∧ ∀ c, c ∈ cs → c ∈ children ∨ ∃ e, e ∈ entries ∧ Go.Atoi (entry_Name e) = Some c.
Proof.
  revert children tr. induction entries as [|entry rest IH]; intros children tr.
  - exists children, []. split_and!; [apply runs_ret | done | auto].
  - assert (∀ tr', ∃ cs evs,
              runs (scanEntries K pid rest children) tr' cs evs ∧ scans evs = 0%nat
              ∧ ∀ c, c ∈ cs → c ∈ children
                     ∨ ∃ e, e ∈ entry :: rest ∧ Go.Atoi (entry_Name e) = Some c) as Hskip.
    { intros tr'. destruct (IH children tr') as (cs & evs & Hr & Hs & Hin).
      exists cs, evs. split_and!; [done..|].
      intros c [?|(e & ? & ?)]%Hin; [by left | right; exists e; split; [by right | done]]. }
    cbn [scanEntries]. destruct (entry_IsDir entry); cbn [negb]; [|apply Hskip].
    destruct (Go.Atoi (entry_Name entry)) as [childPid|] eqn:Hname; [|apply Hskip].
    set (file := Go.PathJoin ["/proc"; entry_Name entry; "stat"]).
    assert (∀ k : option string → Sys (list Z),
              (∃ cs evs, runs (k (k_ReadFile K tr file)) (tr ++ [EvReadFile file (k_ReadFile K tr file)]) cs evs
                         ∧ scans evs = 0%nat
                         ∧ ∀ c, c ∈ cs → c ∈ children
                                ∨ ∃ e, e ∈ entry :: rest ∧ Go.Atoi (entry_Name e) = Some c) →
              ∃ cs evs, runs (content <- os_ReadFile K file ;; k content) tr cs evs
                        ∧ scans evs = 0%nat
                        ∧ ∀ c, c ∈ cs → c ∈ children
                               ∨ ∃ e, e ∈ entry :: rest ∧ Go.Atoi (entry_Name e) = Some c)
      as Hbind.
    { intros k (cs & evs & Hr & Hs & Hin).
      exists cs, ([EvReadFile file (k_ReadFile K tr file)] ++ evs). split_and!; [|done..].
      eapply runs_bind; [apply runs_ReadFile | exact Hr]. }
    apply Hbind. destruct (k_ReadFile K tr file) as [text|]; [|apply Hskip].
    destruct (length (Go.Fields text) <? 4)%nat; [apply Hskip|].
    destruct (Go.Atoi (nth 3 (Go.Fields text) "")) as [ppid|]; [|apply Hskip].
    case_bool_decide; [|apply Hskip].
    destruct (IH (children ++ [childPid]) (tr ++ [EvReadFile file (Some text)]))
      as (cs & evs & Hr & Hs & Hin).
    exists cs, evs. split_and!; [done..|].
    intros c [[?| ->%list_elem_of_singleton]%elem_of_app|(e & ? & ?)]%Hin.
    + by left.
    + right. exists entry. split; [left | done].
    + right. exists e. split; [by right | done].
Qed.

Lemma getProcessChildren_runs pid tr :
  ∃ r evs,
    runs (getProcessChildren K pid) tr r evs
    ∧ scans evs = 1%nat
    ∧ match k_ReadDir K tr "/proc" with
      | None => r = Err (Wrapf "failed to read /proc directory" OsError)
      | Some es =>
          ∃ cs, r = Ok cs
                ∧ ∀ c, c ∈ cs → ∃ e, e ∈ es ∧ Go.Atoi (entry_Name e) = Some c
      end.
Proof.
  unfold getProcessChildren.
  destruct (k_ReadDir K tr "/proc") as [es|] eqn:Hdir.
  - destruct (scanEntries_runs pid es [] (tr ++ [EvReadDir "/proc" (Some es)]))
      as (cs & evs & Hr & Hs & Hin).
    exists (Ok cs), ([EvReadDir "/proc" (Some es)] ++ evs ++ []). split_and!.
    + eapply runs_bind; [by apply runs_ReadDir_eq|].
      eapply runs_bind; [exact Hr | apply runs_ret].
    + rewrite !scans_app, Hs. reflexivity.
    + exists cs. split; [done|]. intros c [Hc|?]%Hin; [|done]. by apply elem_of_nil in Hc.
  - exists (Err (Wrapf "failed to read /proc directory" OsError)),
           ([EvReadDir "/proc" None] ++ []). split_and!; [|done..].
    eapply runs_bind; [by apply runs_ReadDir_eq|]. apply runs_ret.
Qed.

(** A pid that is already marked is not expanded again: no call is made and
    nothing changes. *)
Lemma findDescendants_visited fuel parentPid sc tr :
  parentPid ∈ visited sc →
  findDescendants K (S fuel) parentPid sc tr = (Some (None, sc), tr).
Proof. intros Hin. simpl. by rewrite bool_decide_eq_true_2. Qed.

Section Bounded.

Context (U : gset Z) (Hwithin : pidsWithin U).

(** What one call of the closure guarantees with [fuel] units. *)
Definition expands (fuel : nat) : Prop :=
  ∀ parentPid sc tr,
    parentPid ∈ U → visited sc ⊆ U → (size (U ∖ visited sc) < fuel)%nat →
    ∃ eo sc' evs,
      runs (findDescendants K fuel parentPid sc) tr (Some (eo, sc')) evs
      ∧ visited sc ⊆ visited sc' ∧ visited sc' ⊆ U
      ∧ (scans evs + size (visited sc))%nat = size (visited sc')
      ∧ (parentPid ∈ visited sc → eo = None ∧ sc' = sc ∧ evs = [])
      ∧ (parentPid ∉ visited sc →
           match k_ReadDir K tr "/proc" with
           | None => eo = Some (Wrapf "failed to read /proc directory" OsError)
                     ∧ descendants sc' = descendants sc
           | Some _ => eo = None
           end).

Lemma descendLoop_runs fuel cs sc tr :
  expands fuel →
  (∀ c, c ∈ cs → c ∈ U) → visited sc ⊆ U → (size (U ∖ visited sc) < fuel)%nat →
  ∃ sc' evs,
    runs (descendLoop (findDescendants K fuel) cs sc) tr (Some (None, sc')) evs
    ∧ visited sc ⊆ visited sc' ∧ visited sc' ⊆ U
    ∧ (scans evs + size (visited sc))%nat = size (visited sc').
Proof.
  intros Hfuel. revert sc tr.
  induction cs as [|childPid cs IH]; intros sc tr Hcs Hsub Hlt.
  - exists sc, []. split_and!; [apply runs_ret | done..].
  - cbn [descendLoop].
    set (sc0 := mkScan (descendants sc ++ [childPid]) (visited sc)).
    assert (childPid ∈ U) as Hchild by (apply Hcs; left).
    destruct (Hfuel childPid sc0 tr Hchild Hsub Hlt)
      as (eo & sc1 & evs1 & Hr1 & Hmono1 & Hsub1 & Hcount1 & _).
    assert (size (U ∖ visited sc1) < fuel)%nat as Hlt1.
    { eapply Nat.le_lt_trans; [|exact Hlt]. apply subseteq_size.
      subst sc0. simpl in Hmono1. set_solver. }
    assert (∀ c, c ∈ cs → c ∈ U) as Hcs' by (intros c Hc; apply Hcs; by right).
    destruct (IH sc1 (tr ++ evs1) Hcs' Hsub1 Hlt1)
      as (sc2 & evs2 & Hr2 & Hmono2 & Hsub2 & Hcount2).
    exists sc2, (evs1 ++ evs2). subst sc0. simpl in *. split_and!.
    + eapply runs_bind; [exact Hr1 | exact Hr2].
    + set_solver.
    + done.
    + rewrite scans_app. lia.
Qed.

Lemma findDescendants_expands fuel : expands fuel.
Proof.
  induction fuel as [|fuel IH]; intros parentPid sc tr Hp Hsub Hlt; [lia|].
  cbn [findDescendants]. case_bool_decide as Hvis.
  - exists None, sc, []. split_and!; [apply runs_ret | done..].
  - set (sc0 := mkScan (descendants sc) ({[parentPid]} ∪ visited sc)).
    assert (size (visited sc0) = S (size (visited sc))) as Hsize.
    { simpl. rewrite size_union by set_solver. by rewrite size_singleton. }
    assert (size (U ∖ visited sc0) < size (U ∖ visited sc))%nat as Hless.
    { apply subset_size. simpl. set_solver. }
    assert (visited sc0 ⊆ U) as Hsub0 by (simpl; set_solver).
    destruct (getProcessChildren_runs parentPid tr) as (r & evs0 & Hr0 & Hs0 & Hres).
    destruct (k_ReadDir K tr "/proc") as [es|] eqn:Hdir.
    + destruct Hres as (cs & -> & Hcs).
      assert (∀ c, c ∈ cs → c ∈ U) as Hcs'.
      { intros c (e & He & Hc)%Hcs. eapply Hwithin; eauto. }
      assert (size (U ∖ visited sc0) < fuel)%nat as Hlt0 by lia.
      destruct (descendLoop_runs fuel cs sc0 (tr ++ evs0) IH Hcs' Hsub0 Hlt0)
        as (sc' & evs & Hr & Hmono & Hsub' & Hcount).
      exists None, sc', (evs0 ++ evs). split_and!.
      * eapply runs_bind; [exact Hr0 | exact Hr].
      * simpl in Hmono. set_solver.
      * done.
      * rewrite scans_app. lia.
      * done.
      * done.
    + subst r.
      exists (Some (Wrapf "failed to read /proc directory" OsError)), sc0, (evs0 ++ []).
      split_and!.
      * eapply runs_bind; [exact Hr0 | apply runs_ret].
      * simpl. set_solver.
      * done.
      * rewrite scans_app, Hs0, Hsize. simpl. lia.
      * done.
      * done.
Qed.

End Bounded.

End Descendants.

(** The top call of the closure, on the empty visited set: with enough fuel
    for the pids in [U] it returns, and fails exactly when the first listing
    does. *)
Lemma findDescendants_root (K : Kernel) (U : gset Z) (fuel : nat) (pid : Z) (tr : Trace) :
  pidsWithin K U →
  (size U + 2 ≤ fuel)%nat →
  ∃ eo sc evs,
    runs (findDescendants K fuel pid (mkScan [] ∅)) tr (Some (eo, sc)) evs
    ∧ scans evs = size (visited sc)
    ∧ visited sc ⊆ {[pid]} ∪ U
    ∧ match k_ReadDir K tr "/proc" with
      | None => eo = Some (Wrapf "failed to read /proc directory" OsError)
      | Some _ => eo = None
      end.
Proof.
  intros Hwithin Hfuel.
  assert (pidsWithin K ({[pid]} ∪ U)) as Hwithin'.
  { intros tr' es e c ? ? ?. apply elem_of_union_r. eapply Hwithin; eauto. }
  destruct (findDescendants_expands K ({[pid]} ∪ U) Hwithin' fuel pid (mkScan [] ∅) tr)
    as (eo & sc & evs & Hr & _ & Hsub & Hcount & _ & Herr); simpl.
  { set_solver. }
  { set_solver. }
  { rewrite difference_empty_L.
    pose proof (size_union_alt {[pid]} U) as Hsz. rewrite size_singleton in Hsz.
    pose proof (subseteq_size (U ∖ {[pid]}) U ltac:(set_solver)). lia. }
  change (visited (mkScan [] ∅)) with (∅ : gset Z) in Hcount, Herr.
  rewrite size_empty in Hcount.
  specialize (Herr ltac:(set_solver)).
  exists eo, sc, evs. split_and!; [exact Hr | lia | exact Hsub |].
  destruct (k_ReadDir K tr "/proc"); [done | by destruct Herr].
Qed.

Lemma getAllDescendants_returns (K : Kernel) (U : gset Z) (fuel : nat) (pid : Z) (tr : Trace) :
  pidsWithin K U →
  (size U + 2 ≤ fuel)%nat →
  ∃ r evs, runs (getAllDescendants K fuel pid) tr (Some r) evs.
Proof.
  intros Hwithin Hfuel.
  destruct (findDescendants_root K U fuel pid tr Hwithin Hfuel) as (eo & sc & evs & Hr & _).
  exists (match eo with Some e => Err e | None => Ok (descendants sc) end), (evs ++ []).
  unfold getAllDescendants. eapply runs_bind; [exact Hr|]. destruct eo; apply runs_ret.
Qed.

(** A listing of [/proc] that does not change while the scan runs bounds the
    pids by itself. *)
Lemma pidsWithin_snapshot (K : Kernel) (es : list DirEntry) :
  (∀ tr, k_ReadDir K tr "/proc" = Some es) →
  pidsWithin K (list_to_set (omap (λ e, Go.Atoi (entry_Name e)) es)).
Proof.
  intros Hsnap tr es' e c Hes He Hc. rewrite Hsnap in Hes. injection Hes as <-.
  apply elem_of_list_to_set, list_elem_of_omap. eauto.
Qed.

(** C8: when the pids that [/proc] can show lie in a finite set [U],
    [getAllDescendants] returns with [size U + 2] units of recursion depth
    or more, whatever parent links the listings show and however they change
    between two listings.  [/proc] is listed once per pid marked in the
    visited set, a marked pid is never expanded again, and the result is an
    error exactly when the first listing of [/proc] fails: an unreadable
    [stat] file or a later failed listing only truncates the result. *)
Theorem C8_getAllDescendants_terminates (K : Kernel) (U : gset Z) (fuel : nat)
    (pid : Z) (tr : Trace) :
  pidsWithin K U →
  (size U + 2 ≤ fuel)%nat →
  ∃ r eo sc evs,
    runs (getAllDescendants K fuel pid) tr (Some r) evs
    ∧ runs (findDescendants K fuel pid (mkScan [] ∅)) tr (Some (eo, sc)) evs
    ∧ scans evs = size (visited sc)
    ∧ visited sc ⊆ {[pid]} ∪ U
    ∧ (∀ n p sc0 tr0, p ∈ visited sc0 →
         findDescendants K (S n) p sc0 tr0 = (Some (None, sc0), tr0))
    ∧ match k_ReadDir K tr "/proc" with
      | None => r = Err (Wrapf "failed to read /proc directory" OsError)
      | Some _ => r = Ok (descendants sc)
      end.
Proof.
  intros Hwithin Hfuel.
  destruct (findDescendants_root K U fuel pid tr Hwithin Hfuel)
    as (eo & sc & evs & Hr & Hcount & Hsub & Herr).
  exists (match eo with Some e => Err e | None => Ok (descendants sc) end), eo, sc, evs.
  split_and!.
  - unfold getAllDescendants. rewrite <- (app_nil_r evs).
    eapply runs_bind; [exact Hr|]. destruct eo; apply runs_ret.
  - exact Hr.
  - exact Hcount.
  - exact Hsub.
  - intros n p sc0 tr0. apply findDescendants_visited.
  - destruct (k_ReadDir K tr "/proc"); by subst eo.
Qed.

(** ** What a computation may emit

    [emits P m]: from any history, [m] returns, and every call it makes
    satisfies [P]. *)

Definition emits {A} (P : Event → Prop) (m : Sys A) : Prop :=
  ∀ tr, ∃ a evs, runs m tr a evs ∧ Forall P evs.

Lemma emits_ret {A} P (a : A) : emits P (ret a).
Proof. intros tr. exists a, []. split; [apply runs_ret | constructor]. Qed.

Lemma emits_bind {A B} P (m : Sys A) (k : A → Sys B) :
  emits P m → (∀ a, emits P (k a)) → emits P (x <- m ;; k x).
Proof.
  intros Hm Hk tr. destruct (Hm tr) as (a & e1 & Hr1 & H1).
  destruct (Hk a (tr ++ e1)) as (b & e2 & Hr2 & H2).
  exists b, (e1 ++ e2). split; [by eapply runs_bind | by apply Forall_app].
Qed.

Lemma emits_runs {A} P (m : Sys A) tr a evs : emits P m → runs m tr a evs → Forall P evs.
Proof.
  intros Hm Hr. destruct (Hm tr) as (a' & evs' & Hr' & HP).
  by destruct (runs_det _ _ _ _ _ _ Hr Hr') as [_ ->].
Qed.

(** A call that only asks the kernel something. *)
Definition isQuery (ev : Event) : Prop :=
  match ev with
  | EvStat _ _ | EvReadFile _ _ | EvReadDir _ _ => True
  | _ => False
  end.

(** A call that writes no other pid than [pid] into any file. *)
Definition touchesOnly (pid : Z) (ev : Event) : Prop :=
  match ev with
  | EvWriteFile _ data _ => data = pidLine pid
  | EvNow _ => False
  | _ => True
  end.

Lemma isQuery_touchesOnly pid evs : Forall isQuery evs → Forall (touchesOnly pid) evs.
Proof. intros H. eapply Forall_impl; [exact H|]. by intros []. Qed.

Section Emits.

Context (K : Kernel).

Lemma emits_Stat (P : Event → Prop) path :
  (∀ r, P (EvStat path r)) → emits P (os_Stat K path).
Proof. intros H tr. eexists _, _. split; [apply runs_Stat | by constructor]. Qed.

Lemma emits_MkdirAll (P : Event → Prop) path :
  (∀ ok, P (EvMkdirAll path ok)) → emits P (os_MkdirAll K path).
Proof. intros H tr. eexists _, _. split; [apply runs_MkdirAll | by constructor]. Qed.

Lemma emits_WriteFile (P : Event → Prop) path data :
  (∀ ok, P (EvWriteFile path data ok)) → emits P (os_WriteFile K path data).
Proof. intros H tr. eexists _, _. split; [apply runs_WriteFile | by constructor]. Qed.

Lemma emits_ReadFile (P : Event → Prop) path :
  (∀ r, P (EvReadFile path r)) → emits P (os_ReadFile K path).
Proof. intros H tr. eexists _, _. split; [apply runs_ReadFile | by constructor]. Qed.

Lemma emits_ReadDir (P : Event → Prop) path :
  (∀ r, P (EvReadDir path r)) → emits P (os_ReadDir K path).
Proof. intros H tr. eexists _, _. split; [apply runs_ReadDir | by constructor]. Qed.

(** One step of a proof that a computation emits only [P]: through a bind,
    a return, a system call, or a case distinction of the code. *)
Ltac emits_step :=
  match goal with
  | |- emits _ (ret _) => apply emits_ret
  | |- emits _ (bind _ _) => apply emits_bind; [|intros ?]
  | |- emits _ (os_Stat _ _) => apply emits_Stat; intros ?; exact I || reflexivity
  | |- emits _ (os_MkdirAll _ _) => apply emits_MkdirAll; intros ?; exact I || reflexivity
  | |- emits _ (os_WriteFile _ _ _) => apply emits_WriteFile; intros ?; exact I || reflexivity
  | |- emits _ (os_ReadFile _ _) => apply emits_ReadFile; intros ?; exact I || reflexivity
  | |- emits _ (os_ReadDir _ _) => apply emits_ReadDir; intros ?; exact I || reflexivity
  | |- emits _ (if ?b then _ else _) => destruct b
  | |- emits _ (match ?x with _ => _ end) => destruct x
  end.

Lemma processExists_query pid : emits isQuery (processExists K pid).
Proof. unfold processExists. repeat emits_step. Qed.

Lemma getProcessName_query pid : emits isQuery (getProcessName K pid).
Proof. unfold getProcessName. repeat emits_step. Qed.

Lemma validateProcessAccess_query pid : emits isQuery (validateProcessAccess K pid).
Proof.
  unfold validateProcessAccess.
  apply emits_bind; [apply processExists_query|]. intros ?. repeat emits_step.
Qed.

Lemma getProcessCgroup_query pid : emits isQuery (getProcessCgroup K pid).
Proof. unfold getProcessCgroup. repeat emits_step. Qed.

Lemma scanEntries_query pid entries children :
  emits isQuery (scanEntries K pid entries children).
Proof.
  revert children. induction entries as [|entry rest IH]; intros children.
  - apply emits_ret.
  - cbn [scanEntries]. repeat first [apply IH | emits_step].
Qed.

Lemma getProcessChildren_query pid : emits isQuery (getProcessChildren K pid).
Proof.
  unfold getProcessChildren. apply emits_bind; [emits_step|]. intros [es|].
  - apply emits_bind; [apply scanEntries_query | intros ?; apply emits_ret].
  - apply emits_ret.
Qed.

Lemma findDescendants_query fuel parentPid sc :
  emits isQuery (findDescendants K fuel parentPid sc).
Proof.
  revert parentPid sc. induction fuel as [|fuel IH]; intros parentPid sc.
  - apply emits_ret.
  - cbn [findDescendants]. case_bool_decide; [apply emits_ret|].
    apply emits_bind; [apply getProcessChildren_query|]. intros [children|e].
    + generalize (mkScan (descendants sc) ({[parentPid]} ∪ visited sc)).
      induction children as [|c cs IHcs]; intros sc0; cbn [descendLoop].
      * apply emits_ret.
      * apply emits_bind; [apply IH|]. intros [[eo sc']|]; [apply IHcs | apply emits_ret].
    + apply emits_ret.
Qed.

Lemma getAllDescendants_query fuel pid : emits isQuery (getAllDescendants K fuel pid).
Proof.
  unfold getAllDescendants. apply emits_bind; [apply findDescendants_query|].
  intros [[[e|] sc]|]; apply emits_ret.
Qed.

(** *** Moves *)

Lemma moveProcessToCgroup_touches state pid :
  emits (touchesOnly pid) (moveProcessToCgroup K state pid).
Proof.
  unfold moveProcessToCgroup, moveProcessToCgroupV2, moveProcessToCgroupV1.
  cbn [moveToSubsystemsV1]. repeat emits_step.
Qed.

Lemma moveProcessToCpuCgroup_touches state pid :
  emits (touchesOnly pid) (moveProcessToCpuCgroup K state pid).
Proof.
  unfold moveProcessToCpuCgroup, moveProcessToCpuCgroupV2, moveProcessToCpuCgroupV1.
  repeat emits_step.
Qed.

Lemma moveProcessToCombinedCgroup_touches state pid combined :
  emits (touchesOnly pid) (moveProcessToCombinedCgroup K state pid combined).
Proof. unfold moveProcessToCombinedCgroup. repeat emits_step. Qed.

Lemma moveLiveChildren_total move children :
  (∀ c, emits (λ _, True) (move c)) →
  emits (λ _, True) (moveLiveChildren K move children).
Proof.
  intros Hmove. induction children as [|c cs IH]; cbn [moveLiveChildren].
  - apply emits_ret.
  - apply emits_bind.
    + intros tr. eexists _, _. split; [apply runs_processExists | by constructor].
    + intros [|]; [|exact IH].
      apply emits_bind; [apply Hmove | intros _; exact IH].
Qed.

Lemma emits_mono {A} (P Q : Event → Prop) (m : Sys A) :
  (∀ ev, P ev → Q ev) → emits P m → emits Q m.
Proof.
  intros HPQ Hm tr. destruct (Hm tr) as (a & evs & Hr & HP).
  exists a, evs. split; [done|]. eapply Forall_impl; [exact HP | exact HPQ].
Qed.

End Emits.

(** ** Reconciliation *)

Section Sweep.

Context (K : Kernel).

(** The children that pass the liveness check, asked in order. *)
Fixpoint liveChildren (children : list Z) : Sys (list Z) :=
  match children with
  | [] => ret []
  | childPid :: rest =>
      ex <- processExists K childPid ;;
      l <- liveChildren rest ;;
      ret (if ex then childPid :: l else l)
  end.

(** The in-place loop computes [liveChildren]: the slots it overwrites have
    all been read already.  [pre] is the part of the array behind the read
    index. *)
Lemma pruneLoop_runs cs pre w dead tr :
  (w ≤ length pre)%nat →
  ∃ l evs arr' w' dead',
    runs (liveChildren cs) tr l evs
    ∧ runs (pruneLoop K (length cs) (length pre) (pre ++ cs) w dead) tr (arr', w', dead') evs
    ∧ w' = (w + length l)%nat
    ∧ dead' = (dead + (length cs - length l))%nat
    ∧ length arr' = length (pre ++ cs)
    ∧ take w' arr' = take w pre ++ l
    ∧ (length l ≤ length cs)%nat.
Proof.
  revert pre w dead tr. induction cs as [|c rest IH]; intros pre w dead tr Hw.
  - exists [], [], (pre ++ []), w, dead. simpl. split_and!.
    + apply runs_ret.
    + apply runs_ret.
    + lia.
    + lia.
    + done.
    + by rewrite !app_nil_r.
    + lia.
  - cbn [pruneLoop liveChildren length].
    rewrite (list_lookup_middle pre rest c (length pre) eq_refl).
    pose proof (runs_processExists K c tr) as Hex.
    set (ev := EvStat (procPath c) (k_Stat K tr (procPath c))) in *.
    destruct (alive K tr c) eqn:Halive.
    + assert (<[w:=c]> (pre ++ c :: rest) = <[w:=c]> (pre ++ [c]) ++ rest) as Harr.
      { rewrite (cons_middle c pre rest), app_assoc.
        apply insert_app_l. rewrite length_app. simpl. lia. }
      set (pre' := <[w:=c]> (pre ++ [c])).
      assert (length pre' = S (length pre)) as Hlen.
      { subst pre'. rewrite length_insert, length_app. simpl. lia. }
      destruct (IH pre' (S w) dead (tr ++ [ev]) ltac:(lia))
        as (l & evs & arr' & w' & dead' & Hl & Hr & -> & -> & Hlen' & Htake & Hle).
      exists (c :: l), ([ev] ++ evs), arr', (S w + length l)%nat,
             (dead + (length rest - length l))%nat.
      split_and!.
      * eapply runs_bind; [exact Hex|]. simpl. rewrite <- (app_nil_r evs).
        eapply runs_bind; [exact Hl | apply runs_ret].
      * eapply runs_bind; [exact Hex|]. simpl. rewrite Harr. fold pre'.
        rewrite <- Hlen. exact Hr.
      * simpl. lia.
      * simpl. lia.
      * rewrite Hlen', !length_app, Hlen. simpl. lia.
      * rewrite Htake. subst pre'.
        rewrite (take_S_r _ _ c).
        -- rewrite take_insert_ge by lia. rewrite take_app_le by lia.
           by rewrite <- app_assoc.
        -- apply list_lookup_insert_eq. rewrite length_app. simpl. lia.
      * simpl. lia.
    + destruct (IH (pre ++ [c]) w (S dead) (tr ++ [ev]))
        as (l & evs & arr' & w' & dead' & Hl & Hr & -> & -> & Hlen' & Htake & Hle).
      { rewrite length_app. simpl. lia. }
      exists l, ([ev] ++ evs), arr', (w + length l)%nat,
             (S dead + (length rest - length l))%nat.
      split_and!.
      * eapply runs_bind; [exact Hex|]. simpl. rewrite <- (app_nil_r evs).
        eapply runs_bind; [exact Hl | apply runs_ret].
      * eapply runs_bind; [exact Hex|]. simpl.
        rewrite (cons_middle c pre rest), app_assoc.
        replace (S (length pre)) with (length (pre ++ [c]))
          by (rewrite length_app; simpl; lia).
        exact Hr.
      * done.
      * simpl. lia.
      * rewrite Hlen', !length_app. simpl. lia.
      * rewrite Htake. by rewrite take_app_le by lia.
      * simpl. lia.
Qed.

(** One iteration of the sweep, with the in-place loop read as
    [liveChildren]. *)
Lemma sweepJail_runs pid jail sw tr :
  ∃ sw' evs,
    runs (sweepJail K pid jail sw) tr sw' (EvStat (procPath pid) (k_Stat K tr (procPath pid)) :: evs)
    ∧ if alive K tr pid then
        ∃ l, runs (liveChildren (Children jail))
                  (tr ++ [EvStat (procPath pid) (k_Stat K tr (procPath pid))]) l evs
             ∧ sw' = mkSweep (deadProcesses sw)
                             (<[pid := setChildren jail l]> (sweptJails sw))
      else evs = [] ∧ sw' = mkSweep (deadProcesses sw ++ [pid]) (sweptJails sw).
Proof.
  unfold sweepJail.
  pose proof (runs_processExists K pid tr) as Hex.
  set (ev := EvStat (procPath pid) (k_Stat K tr (procPath pid))) in *.
  destruct (alive K tr pid) eqn:Halive.
  - destruct (pruneLoop_runs (Children jail) [] 0 0 (tr ++ [ev]) ltac:(simpl; lia))
      as (l & evs & arr' & w' & dead' & Hl & Hr & -> & -> & Hlen' & Htake & Hle).
    simpl in Hr, Htake, Hlen'.
    assert ((if (0 <? length (Children jail) - length l)%nat
             then take (length l) arr' else arr') = l) as Hchildren.
    { destruct (0 <? length (Children jail) - length l)%nat eqn:Hdead; [done|].
      apply Nat.ltb_ge in Hdead. rewrite <- Htake. symmetry. apply take_ge. lia. }
    exists (mkSweep (deadProcesses sw) (<[pid := setChildren jail l]> (sweptJails sw))), evs.
    split; [|by exists l].
    change (ev :: evs) with ([ev] ++ evs).
    eapply runs_bind; [exact Hex|]. simpl.
    rewrite <- (app_nil_r evs). eapply runs_bind; [exact Hr|].
    simpl. rewrite Hchildren. apply runs_ret.
  - eexists _, []. split; [|done].
    change [ev] with ([ev] ++ []).
    eapply runs_bind; [exact Hex|]. simpl. apply runs_ret.
Qed.

(** Two records that differ at most in [Children]. *)
Definition sameIdentity (j j' : Jail) : Prop :=
  PID j' = PID j ∧ OriginalCgroup j' = OriginalCgroup j
  ∧ JailTypes j' = JailTypes j ∧ Timestamp j' = Timestamp j.

Lemma lookup_foldl_delete (dead : list Z) (jails : gmap Z Jail) (pid : Z) :
  foldl (λ jails pid, delete pid jails) jails dead !! pid
  = if bool_decide (pid ∈ dead) then None else jails !! pid.
Proof.
  revert jails. induction dead as [|d dead IH]; intros jails; simpl; [done|].
  rewrite IH. destruct (decide (pid = d)) as [->|Hne].
  - rewrite lookup_delete_eq. rewrite (bool_decide_eq_true_2 (d ∈ d :: dead)) by left.
    by case_bool_decide.
  - rewrite lookup_delete_ne by done.
    case_bool_decide as Hin.
    + rewrite bool_decide_eq_true_2; [done | by right].
    + rewrite bool_decide_eq_false_2; [done|].
      intros [?|?]%elem_of_cons; done.
Qed.

(** Whatever the kernel answers, a record that the sweep leaves in the
    registry is the record that was there, up to its children. *)
Lemma sweepJails_identity state tr pid j' :
  sweptJails (sweepJails K state tr).1 !! pid = Some j' →
  ∃ j, ActiveJails state !! pid = Some j ∧ sameIdentity j j'.
Proof.
  unfold sweepJails. revert tr pid j'.
  set (J := ActiveJails state).
  cut (∀ m : gmap Z Jail,
         (∀ p j, m !! p = Some j → J !! p = Some j) →
         ∀ tr pid j',
           sweptJails (map_fold (λ pid jail acc, sw <- acc ;; sweepJail K pid jail sw)
                                (ret (mkSweep [] J)) m tr).1 !! pid = Some j' →
           ∃ j, J !! pid = Some j ∧ sameIdentity j j').
  { intros H. apply H. auto. }
  intros m.
  apply (map_fold_weak_ind
           (λ (r : Sys Sweep) (m : gmap Z Jail),
              (∀ p j, m !! p = Some j → J !! p = Some j) →
              ∀ tr pid j', sweptJails (r tr).1 !! pid = Some j' →
                           ∃ j, J !! pid = Some j ∧ sameIdentity j j')).
  - intros _ tr pid j' Hl. simpl in Hl. exists j'. by split.
  - intros i x m' r Hi IH Hsub tr pid j'.
    assert (∀ p j, m' !! p = Some j → J !! p = Some j) as Hsub'.
    { intros p j Hp. apply Hsub. rewrite lookup_insert_ne; [done|]. congruence. }
    specialize (IH Hsub'). unfold bind at 1.
    destruct (r tr) as [sw tr1] eqn:Hrun.
    specialize (IH tr). rewrite Hrun in IH. simpl in IH.
    destruct (sweepJail_runs i x sw tr1) as (sw' & evs & Hr & Hcase).
    rewrite Hr. simpl.
    destruct (alive K tr1 i).
    + destruct Hcase as (l & _ & ->). simpl.
      destruct (decide (pid = i)) as [->|Hne].
      * rewrite lookup_insert_eq. intros [= <-].
        exists x. split; [apply Hsub, lookup_insert_eq | done].
      * rewrite lookup_insert_ne by done. apply IH.
    + destruct Hcase as (_ & ->). simpl. apply IH.
Qed.

Lemma cleanupDeadProcesses_identity state tr pid j' :
  ActiveJails (cleanupDeadProcesses K state tr).1 !! pid = Some j' →
  ∃ j, ActiveJails state !! pid = Some j ∧ sameIdentity j j'.
Proof.
  unfold cleanupDeadProcesses, bind.
  destruct (sweepJails K state tr) as [sw tr1] eqn:Hrun. simpl.
  rewrite lookup_foldl_delete. case_bool_decide; [done|].
  intros Hl. apply (sweepJails_identity state tr).
  by rewrite Hrun.
Qed.

End Sweep.

(** A record with the children that [live] reports. *)
Definition prune (live : Z → bool) (j : Jail) : Jail :=
  setChildren j (List.filter live (Children j)).

(** The registry that a sweep leaves when liveness is the fixed [live]. *)
Definition reconciled (live : Z → bool) (jails : gmap Z Jail) : gmap Z Jail :=
  map_imap (λ pid j, if live pid then Some (prune live j) else None) jails.

Lemma prune_idemp live j : prune live (prune live j) = prune live j.
Proof.
  unfold prune, setChildren. simpl. f_equal.
  induction (Children j) as [|c cs IH]; simpl; [done|].
  destruct (live c) eqn:Hc; simpl; [|done]. by rewrite Hc, IH.
Qed.

Lemma lookup_reconciled live jails pid :
  reconciled live jails !! pid
  = match jails !! pid with
    | Some j => if live pid then Some (prune live j) else None
    | None => None
    end.
Proof. unfold reconciled. rewrite map_lookup_imap. by destruct (jails !! pid). Qed.

Section StableSweep.

Context (K : Kernel) (tr0 : Trace).

(** From [tr0] on, the kernel's answer about a process does not change. *)
Hypothesis Hstable :
  ∀ tr' pid, k_Stat K (tr0 ++ tr') (procPath pid) = k_Stat K tr0 (procPath pid).

Lemma alive_stable x pid : alive K (tr0 ++ x) pid = alive K tr0 pid.
Proof. unfold alive. by rewrite Hstable. Qed.

Lemma liveChildren_stable cs x :
  ∃ evs, runs (liveChildren K cs) (tr0 ++ x) (List.filter (alive K tr0) cs) evs.
Proof.
  revert x. induction cs as [|c cs IH]; intros x.
  - exists []. apply runs_ret.
  - cbn [liveChildren List.filter].
    pose proof (runs_processExists K c (tr0 ++ x)) as Hex.
    rewrite alive_stable in Hex.
    set (ev := EvStat _ _) in Hex.
    destruct (IH (x ++ [ev])) as (evs & Hr). rewrite app_assoc in Hr.
    exists ([ev] ++ evs ++ []).
    eapply runs_bind; [exact Hex|].
    eapply runs_bind; [exact Hr|]. apply runs_ret.
Qed.

Lemma sweepJails_stable state x :
  ∃ sw evs,
    runs (sweepJails K state) (tr0 ++ x) sw evs
    ∧ (∀ p, p ∈ deadProcesses sw ↔ ∃ j, ActiveJails state !! p = Some j ∧ alive K tr0 p = false)
    ∧ (∀ p, sweptJails sw !! p
            = match ActiveJails state !! p with
              | Some j => if alive K tr0 p then Some (prune (alive K tr0) j) else Some j
              | None => None
              end).
Proof.
  unfold sweepJails. set (J := ActiveJails state).
  cut (∀ m : gmap Z Jail, ∀ x, ∃ sw evs,
         runs (map_fold (λ pid jail acc, sw <- acc ;; sweepJail K pid jail sw)
                        (ret (mkSweep [] J)) m) (tr0 ++ x) sw evs
         ∧ (∀ p, p ∈ deadProcesses sw ↔ ∃ j, m !! p = Some j ∧ alive K tr0 p = false)
         ∧ (∀ p, sweptJails sw !! p
                 = match m !! p with
                   | Some j => if alive K tr0 p then Some (prune (alive K tr0) j) else J !! p
                   | None => J !! p
                   end)).
  { intros H. destruct (H J x) as (sw & evs & Hr & Hdead & Hjails).
    exists sw, evs. split_and!; [done..|].
    intros p. rewrite Hjails. destruct (J !! p); [|done]. by destruct (alive K tr0 p). }
  intros m.
  apply (map_fold_weak_ind
           (λ (r : Sys Sweep) (m : gmap Z Jail), ∀ x, ∃ sw evs,
              runs r (tr0 ++ x) sw evs
              ∧ (∀ p, p ∈ deadProcesses sw ↔ ∃ j, m !! p = Some j ∧ alive K tr0 p = false)
              ∧ (∀ p, sweptJails sw !! p
                      = match m !! p with
                        | Some j => if alive K tr0 p then Some (prune (alive K tr0) j)
                                    else J !! p
                        | None => J !! p
                        end))).
  - intros x0. exists (mkSweep [] J), []. split_and!; [apply runs_ret | |done].
    intros p. simpl. split; [by intros ?%elem_of_nil|].
    intros (j & Hj & _). by rewrite lookup_empty in Hj.
  - clear x. intros i jail m' r Hi IH x.
    destruct (IH x) as (sw & evs & Hr & Hdead & Hjails).
    destruct (sweepJail_runs K i jail sw ((tr0 ++ x) ++ evs)) as (sw' & evs' & Hr' & Hcase).
    rewrite <- app_assoc in Hcase. rewrite alive_stable in Hcase.
    exists sw', (evs ++ EvStat (procPath i) (k_Stat K ((tr0 ++ x) ++ evs) (procPath i)) :: evs').
    split; [eapply runs_bind; [exact Hr | exact Hr']|].
    destruct (alive K tr0 i) eqn:Hlive.
    + destruct Hcase as (l & Hl & ->). simpl.
      destruct (liveChildren_stable (Children jail)
                  (x ++ evs ++ [EvStat (procPath i)
                                       (k_Stat K (tr0 ++ x ++ evs) (procPath i))]))
        as (evs'' & Hl').
      repeat rewrite <- app_assoc in Hl. repeat rewrite <- app_assoc in Hl'.
      destruct (runs_det _ _ _ _ _ _ Hl Hl') as [-> _].
      split.
      * intros p. rewrite Hdead. split; intros (j & Hj & Hp).
        -- exists j. split; [|done]. rewrite lookup_insert_ne; [done|]. congruence.
        -- destruct (decide (p = i)) as [->|Hne]; [congruence|].
           rewrite lookup_insert_ne in Hj by done. eauto.
      * intros p. destruct (decide (p = i)) as [->|Hne].
        -- rewrite !lookup_insert_eq, Hlive. done.
        -- rewrite !lookup_insert_ne by done. apply Hjails.
    + destruct Hcase as (-> & ->). simpl. split.
      * intros p. rewrite elem_of_app, list_elem_of_singleton, Hdead.
        split.
        -- intros [(j & Hj & Hp)| ->].
           ++ exists j. split; [|done]. rewrite lookup_insert_ne; [done|]. congruence.
           ++ exists jail. by rewrite lookup_insert_eq.
        -- intros (j & Hj & Hp). destruct (decide (p = i)) as [->|Hne]; [by right|].
           left. rewrite lookup_insert_ne in Hj by done. eauto.
      * intros p. destruct (decide (p = i)) as [->|Hne].
        -- rewrite lookup_insert_eq, Hlive, Hjails, Hi. done.
        -- rewrite lookup_insert_ne by done. apply Hjails.
Qed.

Lemma cleanupDeadProcesses_stable state x :
  ∃ evs,
    runs (cleanupDeadProcesses K state) (tr0 ++ x)
         (setActiveJails state (reconciled (alive K tr0) (ActiveJails state))) evs.
Proof.
  destruct (sweepJails_stable state x) as (sw & evs & Hr & Hdead & Hjails).
  exists (evs ++ []). unfold cleanupDeadProcesses.
  eapply runs_bind; [exact Hr|].
  replace (foldl (λ jails pid, delete pid jails) (sweptJails sw) (deadProcesses sw))
    with (reconciled (alive K tr0) (ActiveJails state)); [apply runs_ret|].
  apply map_eq. intros p.
  rewrite lookup_foldl_delete, lookup_reconciled, Hjails.
  case_bool_decide as Hin.
  - apply Hdead in Hin as (j & -> & ->). done.
  - destruct (ActiveJails state !! p) as [j|] eqn:Hj; [|done].
    destruct (alive K tr0 p) eqn:Hp; [done|].
    exfalso. apply Hin, Hdead. eauto.
Qed.

End StableSweep.

(** C9: when the kernel's answers about liveness do not change from the
    start of a first sweep on, a second sweep right after it returns the
    registry of the first: it collects no dead root and leaves every record,
    children included, as it found it.  And under any kernel, a record that
    survives a sweep keeps its pid, [OriginalCgroup], [JailTypes] and
    [Timestamp]. *)
Theorem C9_cleanup_idempotent (K : Kernel) (state : JailerState) (tr0 : Trace) :
  (∀ tr' pid, k_Stat K (tr0 ++ tr') (procPath pid) = k_Stat K tr0 (procPath pid)) →
  ∃ state1 evs1 evs2 sw2 evs2',
    runs (cleanupDeadProcesses K state) tr0 state1 evs1
    ∧ runs (cleanupDeadProcesses K state1) (tr0 ++ evs1) state1 evs2
    ∧ runs (sweepJails K state1) (tr0 ++ evs1) sw2 evs2'
    ∧ deadProcesses sw2 = []
    ∧ sweptJails sw2 = ActiveJails state1
    ∧ ∀ K' tr' pid j',
        ActiveJails (cleanupDeadProcesses K' state tr').1 !! pid = Some j' →
        ∃ j, ActiveJails state !! pid = Some j ∧ sameIdentity j j'.
Proof.
  intros Hstable.
  set (live := alive K tr0).
  set (state1 := setActiveJails state (reconciled live (ActiveJails state))).
  destruct (cleanupDeadProcesses_stable K tr0 Hstable state []) as (evs1 & Hr1).
  rewrite app_nil_r in Hr1.
  destruct (cleanupDeadProcesses_stable K tr0 Hstable state1 evs1) as (evs2 & Hr2).
  destruct (sweepJails_stable K tr0 Hstable state1 evs1) as (sw2 & evs2' & Hr3 & Hdead & Hjails).
  assert (reconciled live (reconciled live (ActiveJails state))
          = reconciled live (ActiveJails state)) as Hidem.
  { apply map_eq. intros p. rewrite !lookup_reconciled.
    destruct (ActiveJails state !! p) as [j|]; [|done].
    destruct (live p) eqn:Hp; [|done]. by rewrite prune_idemp. }
  exists state1, evs1, evs2, sw2, evs2'. split_and!.
  - exact Hr1.
  - subst state1. simpl in Hr2. fold live in Hr2. rewrite Hidem in Hr2. exact Hr2.
  - exact Hr3.
  - destruct (deadProcesses sw2) as [|p dead]; [done|]. exfalso.
    destruct (proj1 (Hdead p) ltac:(left)) as (j & Hj & Hp).
    subst state1. simpl in Hj. rewrite lookup_reconciled in Hj.
    destruct (ActiveJails state !! p); [|done]. fold live in Hp. by rewrite Hp in Hj.
  - apply map_eq. intros p. rewrite Hjails. subst state1. simpl.
    rewrite lookup_reconciled.
    destruct (ActiveJails state !! p) as [j|]; [|done]. fold live.
    destruct (live p) eqn:Hp; [|done]. by rewrite prune_idemp.
  - intros K' tr' pid j'. apply cleanupDeadProcesses_identity.
Qed.

(** ** Moves and their failures *)

(** A call that reports a failure to the move that made it. *)
Definition failed (ev : Event) : bool :=
  match ev with
  | EvMkdirAll _ false | EvWriteFile _ _ false | EvStat _ StatNotExist => true
  | _ => false
  end.

(** The [cgroup.procs] file of the single-type jail [jailType]. *)
Definition jailProcsFile (state : JailerState) (jailType : string) : string :=
  if bool_decide (jailType = "cpu") then Go.PathJoin [CpuCgroupPath state; "cgroup.procs"]
  else if bool_decide (CgroupVersion state = 2)
       then Go.PathJoin [NetworkCgroupPath state; "cgroup.procs"]
       else Go.PathJoin ["/sys/fs/cgroup"; "net_cls"; "jail"; "cgroup.procs"].

(** How a move of [pid] towards [file] ends: without error after the
    successful write of the pid, with an error right after a failed call. *)
Definition moveOutcome (file : string) (pid : Z) (err : option error) (ws : list Event)
  : Prop :=
  match err with
  | None => last ws = Some (EvWriteFile file (pidLine pid) true)
  | Some _ => ∃ ev, last ws = Some ev ∧ failed ev = true
  end.

(** The calls of the descendant loop of a first jail, and the descendants
    it keeps: those whose own move ended without error. *)
Fixpoint moveSteps (file : string) (descendants : list Z) (evs : list Event)
    (moved : list Z) : Prop :=
  match descendants with
  | [] => evs = [] ∧ moved = []
  | d :: rest =>
      ∃ err ws evs' moved',
        evs = ws ++ evs'
        ∧ moveOutcome file d err ws
        ∧ Forall (touchesOnly d) ws
        ∧ moved = match err with None => d :: moved' | Some _ => moved' end
        ∧ moveSteps file rest evs' moved'
  end.

(** The calls of a successful combined move of [pid]. *)
Definition combinedWrites (state : JailerState) (pid : Z) : list Event :=
  let netClsDir := Go.PathJoin ["/sys/fs/cgroup/net_cls"; JailNetworkCpuCgroup] in
  [EvMkdirAll netClsDir true;
   EvWriteFile (Go.PathJoin [NetworkCpuCgroupPath state; "cgroup.procs"]) (pidLine pid) true;
   EvWriteFile (Go.PathJoin [netClsDir; "cgroup.procs"]) (pidLine pid) true].

Section Transitions.

Context (K : Kernel).

Lemma moveProcessToCombinedCgroup_runs state pid combined tr :
  ∃ err ws,
    runs (moveProcessToCombinedCgroup K state pid combined) tr err ws
    ∧ match err with
      | None => ws = combinedWrites state pid
      | Some _ => ∃ ev, last ws = Some ev ∧ failed ev = true
      end.
Proof.
  unfold moveProcessToCombinedCgroup, combinedWrites.
  set (netClsDir := Go.PathJoin ["/sys/fs/cgroup/net_cls"; JailNetworkCpuCgroup]).
  set (file1 := Go.PathJoin [NetworkCpuCgroupPath state; "cgroup.procs"]).
  set (file2 := Go.PathJoin [netClsDir; "cgroup.procs"]).
  destruct (k_MkdirAll K tr netClsDir) eqn:Hmk.
  - set (tr1 := tr ++ [EvMkdirAll netClsDir true]).
    destruct (k_WriteFile K tr1 file1 (pidLine pid)) eqn:Hw1.
    + set (tr2 := tr1 ++ [EvWriteFile file1 (pidLine pid) true]).
      destruct (k_WriteFile K tr2 file2 (pidLine pid)) eqn:Hw2.
      * exists None. eexists. split; [|reflexivity].
        change (?a :: ?b :: ?c :: []) with ([a] ++ [b] ++ [c] ++ []).
        eapply runs_bind; [by apply runs_MkdirAll_eq|]. cbn [negb].
        eapply runs_bind; [by apply runs_WriteFile_eq|]. cbn [negb].
        eapply runs_bind; [by apply runs_WriteFile_eq|]. cbn [negb]. apply runs_ret.
      * eexists (Some _), ([_] ++ [_] ++ [EvWriteFile file2 (pidLine pid) false] ++ []).
        split; [|by eexists].
        eapply runs_bind; [by apply runs_MkdirAll_eq|]. cbn [negb].
        eapply runs_bind; [by apply runs_WriteFile_eq|]. cbn [negb].
        eapply runs_bind; [by apply runs_WriteFile_eq|]. cbn [negb]. apply runs_ret.
    + eexists (Some _), ([_] ++ [EvWriteFile file1 (pidLine pid) false] ++ []).
      split; [|by eexists].
      eapply runs_bind; [by apply runs_MkdirAll_eq|]. cbn [negb].
      eapply runs_bind; [by apply runs_WriteFile_eq|]. cbn [negb]. apply runs_ret.
  - eexists (Some _), ([EvMkdirAll netClsDir false] ++ []).
    split; [|by eexists].
    eapply runs_bind; [by apply runs_MkdirAll_eq|]. cbn [negb]. apply runs_ret.
Qed.

(** The move of a first jail, for the root and for each descendant. *)
Lemma jailMove_runs state jailType pid tr :
  ∃ err ws,
    runs (if bool_decide (jailType = "cpu") then moveProcessToCpuCgroup K state pid
          else moveProcessToCgroup K state pid) tr err ws
    ∧ moveOutcome (jailProcsFile state jailType) pid err ws
    ∧ Forall (touchesOnly pid) ws.
Proof.
  assert (∀ (m : Sys (option error)) file,
            emits (touchesOnly pid) m →
            (∀ err ws, runs m tr err ws → moveOutcome file pid err ws) →
            ∃ err ws, runs m tr err ws ∧ moveOutcome file pid err ws
                      ∧ Forall (touchesOnly pid) ws) as Hpack.
  { intros m file Hm Hout. destruct (Hm tr) as (err & ws & Hr & Hall).
    exists err, ws. split_and!; [done | by apply Hout | done]. }
  unfold jailProcsFile. case_bool_decide as Hcpu.
  - apply Hpack; [apply moveProcessToCpuCgroup_touches|].
    intros err ws. unfold moveProcessToCpuCgroup. case_bool_decide as Hv.
    + unfold moveProcessToCpuCgroupV2.
      set (file := Go.PathJoin [CpuCgroupPath state; "cgroup.procs"]).
      destruct (k_WriteFile K tr file (pidLine pid)) eqn:Hw; intros Hr.
      * assert (runs (ok <- os_WriteFile K file (pidLine pid) ;;
                      if ok then ret None
                      else ret (Some (Wrapf ("failed to move PID " +:+ Go.Itoa pid
                                              +:+ " to CPU jail cgroup") OsError)))
                     tr None ([EvWriteFile file (pidLine pid) true] ++ [])) as Hr'.
        { eapply runs_bind; [by apply runs_WriteFile_eq | apply runs_ret]. }
        destruct (runs_det _ _ _ _ _ _ Hr Hr') as [-> ->]. done.
      * assert (runs (ok <- os_WriteFile K file (pidLine pid) ;;
                      if ok then ret None
                      else ret (Some (Wrapf ("failed to move PID " +:+ Go.Itoa pid
                                              +:+ " to CPU jail cgroup") OsError)))
                     tr (Some (Wrapf ("failed to move PID " +:+ Go.Itoa pid
                                       +:+ " to CPU jail cgroup") OsError))
                     ([EvWriteFile file (pidLine pid) false] ++ [])) as Hr'.
        { eapply runs_bind; [by apply runs_WriteFile_eq | apply runs_ret]. }
        destruct (runs_det _ _ _ _ _ _ Hr Hr') as [-> ->]. by eexists.
    + unfold moveProcessToCpuCgroupV1, runs, bind, ret, os_MkdirAll, os_Stat, os_WriteFile.
      set (file := Go.PathJoin [CpuCgroupPath state; "cgroup.procs"]).
      destruct (k_MkdirAll K tr (CpuCgroupPath state)); cbn [negb].
      * destruct (k_Stat K _ (CpuCgroupPath state)) eqn:Hst;
          try (destruct (k_WriteFile K _ file (pidLine pid)) eqn:Hw);
          rewrite <- ?app_assoc; intros [= <- Hws%app_inv_head]; subst ws;
          simpl; eauto.
      * rewrite <- ?app_assoc. intros [= <- Hws%app_inv_head]; subst ws. simpl. eauto.
  - apply Hpack; [apply moveProcessToCgroup_touches|].
    intros err ws. unfold moveProcessToCgroup.
    unfold moveProcessToCgroupV2, moveProcessToCgroupV1. cbn [moveToSubsystemsV1].
    unfold runs, bind, ret, os_WriteFile.
    case_bool_decide as Hv.
    + destruct (k_WriteFile K tr _ (pidLine pid)) eqn:Hw;
        intros [= <- Hws%app_inv_head]; subst ws; simpl; eauto.
    + destruct (k_WriteFile K tr _ (pidLine pid)) eqn:Hw; cbn [negb];
        intros [= <- Hws%app_inv_head]; subst ws; simpl; eauto.
Qed.

Lemma moveDescendants_runs state jailType ds successful tr :
  ∃ moved evs,
    runs (moveDescendants K state jailType ds successful) tr (successful ++ moved) evs
    ∧ moveSteps (jailProcsFile state jailType) ds evs moved.
Proof.
  revert successful tr. induction ds as [|d rest IH]; intros successful tr.
  - exists [], []. rewrite app_nil_r. split; [apply runs_ret | done].
  - cbn [moveDescendants].
    destruct (jailMove_runs state jailType d tr) as (err & ws & Hr & Hout & Hall).
    destruct err as [e|].
    + destruct (IH successful (tr ++ ws)) as (moved & evs & Hr' & Hsteps).
      exists moved, (ws ++ evs). split; [eapply runs_bind; [exact Hr | exact Hr']|].
      simpl. exists (Some e), ws, evs, moved. split_and!; done.
    + destruct (IH (successful ++ [d]) (tr ++ ws)) as (moved & evs & Hr' & Hsteps).
      exists (d :: moved), (ws ++ evs). split.
      * eapply runs_bind; [exact Hr|]. simpl.
        by rewrite (cons_middle d successful moved), app_assoc.
      * simpl. exists None, ws, evs, moved. split_and!; done.
Qed.

(** Adding a type to a record: the record gets the type, the root alone is
    moved, and a failed call of that move is the error of the operation. *)
Lemma jailProcess_adds_type fuel state jailType pidStr pid jail tr :
  Go.Atoi pidStr = Some pid →
  jailType = "network" ∨ jailType = "cpu" →
  ActiveJails state !! pid = Some jail →
  HasJailType jail jailType = false →
  ∃ err state' ws,
    runs (jailProcess K fuel state jailType pidStr) tr (Some (err, state'))
         (EvReadFile (procPath pid +:+ "/comm") (k_ReadFile K tr (procPath pid +:+ "/comm"))
            :: ws)
    ∧ match err with
      | None =>
          ws = combinedWrites state pid
          ∧ state' = setActiveJails state
                       (<[pid := AddJailType jail jailType]> (ActiveJails state))
      | Some e =>
          (∃ cause, e = Wrapf "failed to move process to combined jail" cause)
          ∧ ∃ ev, last ws = Some ev ∧ failed ev = true
      end.
Proof.
  intros Hpid Htype Hjail Hhas.
  assert (negb (bool_decide (jailType = "network")) && negb (bool_decide (jailType = "cpu"))
          = false) as Htc by (destruct Htype as [-> | ->]; reflexivity).
  destruct (runs_getProcessName K pid tr) as (name & Hname).
  set (tr1 := tr ++ [EvReadFile (procPath pid +:+ "/comm")
                                (k_ReadFile K tr (procPath pid +:+ "/comm"))]) in *.
  set (state1 := setActiveJails state (<[pid := AddJailType jail jailType]> (ActiveJails state))).
  destruct (moveProcessToCombinedCgroup_runs state1 pid
              (GetJailTypesString (AddJailType jail jailType)) tr1) as (err & ws & Hr & Hout).
  assert (runs (jailProcess K fuel state jailType pidStr) tr
               (Some (match err with
                      | Some e => Some (Wrapf "failed to move process to combined jail" e)
                      | None => None
                      end, state1))
               ([EvReadFile (procPath pid +:+ "/comm")
                            (k_ReadFile K tr (procPath pid +:+ "/comm"))] ++ ws ++ [])) as Hrun.
  { unfold jailProcess. rewrite Hpid, Htc, Hjail, Hhas.
    eapply runs_bind; [exact Hname|].
    eapply runs_bind; [exact Hr|]. destruct err; apply runs_ret. }
  rewrite app_nil_r in Hrun.
  eexists _, state1, ws. split; [exact Hrun|].
  destruct err as [e|]; [split; [by eexists | done] | done].
Qed.

(** The first jail of a process: an error can only come from the steps up
    to the move of the root, and leaves the registry alone; past the root,
    the operation succeeds and records exactly the descendants whose own
    move ended without error. *)
Lemma jailProcess_first_runs (U : gset Z) fuel state jailType pidStr pid tr :
  pidsWithin K U →
  (size U + 2 ≤ fuel)%nat →
  Go.Atoi pidStr = Some pid →
  jailType = "network" ∨ jailType = "cpu" →
  ActiveJails state !! pid = None →
  ∃ err state' evs,
    runs (jailProcess K fuel state jailType pidStr) tr (Some (err, state')) evs
    ∧ match err with
      | Some _ => state' = state ∧ Forall (touchesOnly pid) evs
      | None =>
          ∃ originalCgroup ds rootEvs descEvs now moved,
            evs = rootEvs ++ descEvs ++ [EvNow now]
            ∧ Forall (touchesOnly pid) rootEvs
            ∧ last rootEvs = Some (EvWriteFile (jailProcsFile state jailType) (pidLine pid) true)
            ∧ moveSteps (jailProcsFile state jailType) ds descEvs moved
            ∧ state' = setActiveJails state
                         (<[pid := mkJail pid originalCgroup [jailType] now moved]>
                            (ActiveJails state))
      end.
Proof.
  intros Hwithin Hfuel Hpid Htype Hjail.
  assert (negb (bool_decide (jailType = "network")) && negb (bool_decide (jailType = "cpu"))
          = false) as Htc by (destruct Htype as [-> | ->]; reflexivity).
  destruct (validateProcessAccess_query K pid tr) as (e1 & evs1 & Hr1 & Hq1).
  destruct (getProcessCgroup_query K pid (tr ++ evs1)) as (r2 & evs2 & Hr2 & Hq2).
  destruct (getAllDescendants_returns K U fuel pid ((tr ++ evs1) ++ evs2) Hwithin Hfuel)
    as (r3 & evs3 & Hr3).
  pose proof (emits_runs _ _ _ _ _ (getAllDescendants_query K fuel pid) Hr3) as Hq3.
  destruct (getProcessName_query K pid (((tr ++ evs1) ++ evs2) ++ evs3))
    as (name & evs4 & Hr4 & Hq4).
  destruct (jailMove_runs state jailType pid ((((tr ++ evs1) ++ evs2) ++ evs3) ++ evs4))
    as (e5 & evs5 & Hr5 & Hout5 & Hall5).
  apply (isQuery_touchesOnly pid) in Hq1, Hq2, Hq3, Hq4.
  unfold jailProcess. rewrite Hpid, Htc, Hjail.
  destruct e1 as [e|].
  { exists (Some e), state, (evs1 ++ []). split.
    - eapply runs_bind; [exact Hr1 | apply runs_ret].
    - split; [done|]. rewrite app_nil_r. done. }
  destruct r2 as [originalCgroup|e].
  2:{ eexists (Some _), state, (evs1 ++ evs2 ++ []). split.
      - eapply runs_bind; [exact Hr1|]. eapply runs_bind; [exact Hr2 | apply runs_ret].
      - split; [done|]. rewrite app_nil_r. by apply Forall_app. }
  destruct r3 as [ds|e].
  2:{ eexists (Some _), state, (evs1 ++ evs2 ++ evs3 ++ []). split.
      - eapply runs_bind; [exact Hr1|]. eapply runs_bind; [exact Hr2|].
        eapply runs_bind; [exact Hr3 | apply runs_ret].
      - split; [done|]. rewrite app_nil_r. by rewrite !Forall_app. }
  destruct e5 as [e|].
  { eexists (Some _), state, (evs1 ++ evs2 ++ evs3 ++ evs4 ++ evs5 ++ []). split.
    - eapply runs_bind; [exact Hr1|]. eapply runs_bind; [exact Hr2|].
      eapply runs_bind; [exact Hr3|]. eapply runs_bind; [exact Hr4|].
      eapply runs_bind; [exact Hr5 | apply runs_ret].
    - split; [done|]. rewrite app_nil_r. by rewrite !Forall_app. }
  destruct (moveDescendants_runs state jailType ds []
              (((((tr ++ evs1) ++ evs2) ++ evs3) ++ evs4) ++ evs5))
    as (moved & evs6 & Hr6 & Hsteps).
  set (tr6 := (((((tr ++ evs1) ++ evs2) ++ evs3) ++ evs4) ++ evs5) ++ evs6).
  exists None,
    (setActiveJails state
       (<[pid := mkJail pid originalCgroup [jailType] (k_Now K tr6) moved]> (ActiveJails state))),
    (evs1 ++ evs2 ++ evs3 ++ evs4 ++ evs5 ++ evs6 ++ [EvNow (k_Now K tr6)] ++ []).
  split.
  - eapply runs_bind; [exact Hr1|]. eapply runs_bind; [exact Hr2|].
    eapply runs_bind; [exact Hr3|]. eapply runs_bind; [exact Hr4|].
    eapply runs_bind; [exact Hr5|]. eapply runs_bind; [exact Hr6|].
    eapply runs_bind; [reflexivity | apply runs_ret].
  - exists originalCgroup, ds, (evs1 ++ evs2 ++ evs3 ++ evs4 ++ evs5), evs6,
           (k_Now K tr6), moved.
    split_and!.
    + rewrite app_nil_r. by rewrite <- !app_assoc.
    + by rewrite !Forall_app.
    + simpl in Hout5. rewrite !app_assoc. rewrite last_app. by rewrite Hout5.
    + exact Hsteps.
    + reflexivity.
Qed.

(** Removing one type from a record that holds it: always a success; the
    record goes when this was its only type, and loses the type otherwise,
    whatever the moves answered. *)
Lemma unjailProcessSelective_succeeds state jailType pidStr pid jail tr :
  Go.Atoi pidStr = Some pid →
  ActiveJails state !! pid = Some jail →
  HasJailType jail jailType = true →
  ∃ state' evs,
    runs (unjailProcessSelective K state jailType pidStr) tr (None, state') evs
    ∧ state' = setActiveJails state
                 (if bool_decide (length (JailTypes jail) = 1%nat)
                  then delete pid (ActiveJails state)
                  else <[pid := RemoveJailType jail jailType]> (ActiveJails state)).
Proof.
  intros Hpid Hjail Hhas.
  destruct (runs_getProcessName K pid tr) as (name & Hname).
  set (tr1 := tr ++ [EvReadFile (procPath pid +:+ "/comm")
                                (k_ReadFile K tr (procPath pid +:+ "/comm"))]) in *.
  unfold unjailProcessSelective. rewrite Hpid, Hjail, Hhas. cbn [negb].
  case_bool_decide as Hone.
  - destruct (unjailProcess_runs K state pidStr pid jail tr1 Hpid Hjail) as (steps & Hr & _).
    eexists _, (_ ++ _). split; [eapply runs_bind; [exact Hname | exact Hr]|]. done.
  - set (jail1 := RemoveJailType jail jailType).
    set (state1 := setActiveJails state (<[pid := jail1]> (ActiveJails state))).
    assert (∀ (m1 : Sys (option error)) (move : Z → Sys (option error)) tr',
              emits (λ _, True) m1 → (∀ c, emits (λ _, True) (move c)) →
              ∃ evs, runs (_ <- m1 ;; _ <- moveLiveChildren K move (Children jail1) ;;
                           ret (@None error, state1)) tr' (None, state1) evs) as Hbranch.
    { intros m1 move tr' Hm1 Hmove.
      destruct (Hm1 tr') as (a & e1 & Hr1 & _).
      destruct (moveLiveChildren_total K move (Children jail1) Hmove (tr' ++ e1))
        as (u & e2 & Hr2 & _).
      exists (e1 ++ e2 ++ []).
      eapply runs_bind; [exact Hr1|]. eapply runs_bind; [exact Hr2 | apply runs_ret]. }
    assert (∃ evs, runs
              (if bool_decide (length (JailTypes jail1) = 1%nat) then
                 if bool_decide (nth 0 (JailTypes jail1) "" = "cpu") then
                   _ <- moveProcessToCpuCgroup K state1 pid ;;
                   _ <- moveLiveChildren K (moveProcessToCpuCgroup K state1) (Children jail1) ;;
                   ret (@None error, state1)
                 else if bool_decide (nth 0 (JailTypes jail1) "" = "network") then
                   _ <- moveProcessToCgroup K state1 pid ;;
                   _ <- moveLiveChildren K (moveProcessToCgroup K state1) (Children jail1) ;;
                   ret (@None error, state1)
                 else ret (@None error, state1)
               else
                 _ <- moveProcessToCombinedCgroup K state1 pid (GetJailTypesString jail1) ;;
                 _ <- moveLiveChildren K
                        (λ childPid, moveProcessToCombinedCgroup K state1 childPid
                                       (GetJailTypesString jail1))
                        (Children jail1) ;;
                 ret (@None error, state1)) tr1 (None, state1) evs) as (evs & Hr).
    { repeat case_bool_decide.
      - apply Hbranch; [|intros c];
          (eapply emits_mono; [|apply moveProcessToCpuCgroup_touches]); done.
      - apply Hbranch; [|intros c];
          (eapply emits_mono; [|apply moveProcessToCgroup_touches]); done.
      - exists []. apply runs_ret.
      - apply Hbranch; [|intros c];
          (eapply emits_mono; [|apply moveProcessToCombinedCgroup_touches]); done. }
    eexists state1, (_ ++ evs). split; [|done].
    eapply runs_bind; [exact Hname | exact Hr].
Qed.

End Transitions.

(** ** Full release *)

(** C2: full [unjailProcess] on a jailed process always succeeds and always
    deletes the record; before that it checks the root and every child for
    liveness and attempts, for each one found alive, a restore whose writes
    all go to the files of the record's single [OriginalCgroup], whatever
    the outcome of each write. *)
Theorem C2_unjail_deletes_record (K : Kernel) (state : JailerState) (pidStr : string)
    (pid : Z) (jail : Jail) (tr : Trace) :
  Go.Atoi pidStr = Some pid →
  ActiveJails state !! pid = Some jail →
  ∃ nameLookup steps,
    runs (unjailProcess K state pidStr) tr
         (None, setActiveJails state (delete pid (ActiveJails state)))
         (nameLookup :: steps)
    ∧ restoreSteps (restoreFiles (CgroupVersion state) (OriginalCgroup jail))
                   (pid :: Children jail) steps
    ∧ ActiveJails (setActiveJails state (delete pid (ActiveJails state))) !! pid = None.
Proof.
  intros Hpid Hjail.
  destruct (unjailProcess_runs K state pidStr pid jail tr Hpid Hjail) as (steps & Hr & Hs).
  eexists _, steps. split_and!; [exact Hr | exact Hs | ].
  simpl. apply lookup_delete_eq.
Qed.

(** ** Jailing twice *)

(** C6: when the record of [pid] already holds [jailType], [jailProcess]
    returns the already-jailed error, makes no system call and leaves the
    state, hence the record, as it was. *)
Theorem C6_already_jailed (K : Kernel) (fuel : nat) (state : JailerState)
    (jailType pidStr : string) (pid : Z) (jail : Jail) (tr : Trace) :
  Go.Atoi pidStr = Some pid →
  jailType = "network" ∨ jailType = "cpu" →
  ActiveJails state !! pid = Some jail →
  HasJailType jail jailType = true →
  jailProcess K fuel state jailType pidStr tr
  = (Some (Some (Errorf ("process " +:+ Go.Itoa pid +:+ " is already jailed with "
                         +:+ jailType +:+ " jail")), state), tr).
Proof.
  intros Hpid Htype Hjail Hhas. unfold jailProcess. rewrite Hpid.
  destruct Htype as [-> | ->]; simpl; rewrite Hjail, Hhas; reflexivity.
Qed.

(** ** Removing the last type *)

(** C7: on a record whose only type is [jailType], [unjailProcessSelective]
    is [unjailProcess] run after one more name lookup: same result, same
    restore pass, and the record is deleted. *)
Theorem C7_last_type_is_full_unjail (K : Kernel) (state : JailerState)
    (jailType pidStr : string) (pid : Z) (jail : Jail) (tr : Trace) :
  Go.Atoi pidStr = Some pid →
  ActiveJails state !! pid = Some jail →
  JailTypes jail = [jailType] →
  unjailProcessSelective K state jailType pidStr tr
  = unjailProcess K state pidStr
      (tr ++ [EvReadFile (procPath pid +:+ "/comm") (k_ReadFile K tr (procPath pid +:+ "/comm"))])
  ∧ ActiveJails (fst (unjailProcessSelective K state jailType pidStr tr)).2 !! pid = None.
Proof.
  intros Hpid Hjail Htypes.
  assert (unjailProcessSelective K state jailType pidStr tr
          = unjailProcess K state pidStr
              (tr ++ [EvReadFile (procPath pid +:+ "/comm")
                                 (k_ReadFile K tr (procPath pid +:+ "/comm"))])) as Heq.
  { unfold unjailProcessSelective. rewrite Hpid, Hjail.
    unfold HasJailType. rewrite Htypes. simpl.
    rewrite bool_decide_eq_true_2 by done. simpl.
    destruct (runs_getProcessName K pid tr) as (name & Hname).
    unfold bind at 1. rewrite Hname. reflexivity. }
  split; [exact Heq|]. rewrite Heq.
  destruct (unjailProcess_runs K state pidStr pid jail
              (tr ++ [EvReadFile (procPath pid +:+ "/comm")
                                 (k_ReadFile K tr (procPath pid +:+ "/comm"))]) Hpid Hjail)
    as (steps & Hr & _).
  rewrite Hr. simpl. apply lookup_delete_eq.
Qed.

(** ** Failures of moves and restores *)

(** C3, amended: every unjail operation on a record (full, or selective for
    a type the record holds) returns success and updates the registry
    whatever its moves and restores answered, a failed write to one
    hierarchy of a combined move included.  In a first jail an error can
    only arise up to the move of the root and leaves the registry as it was;
    past the root the operation succeeds and the record holds the
    descendants whose own move ended without error.  When a type is added to
    a record, the combined move of the root decides: jail succeeds after its
    directory creation and both writes succeeded, and returns an error right
    after the first of them that failed. *)
Theorem C3_failures_downgraded_except_root_move (K : Kernel) (U : gset Z) (fuel : nat)
    (state : JailerState) (jailType pidStr : string) (pid : Z) (tr : Trace) :
  pidsWithin K U →
  (size U + 2 ≤ fuel)%nat →
  Go.Atoi pidStr = Some pid →
  (∀ jail, ActiveJails state !! pid = Some jail →
     ∃ evs, runs (unjailProcess K state pidStr) tr
                 (None, setActiveJails state (delete pid (ActiveJails state))) evs)
  ∧ (∀ jail, ActiveJails state !! pid = Some jail → HasJailType jail jailType = true →
       ∃ evs, runs (unjailProcessSelective K state jailType pidStr) tr
                   (None, setActiveJails state
                            (if bool_decide (length (JailTypes jail) = 1%nat)
                             then delete pid (ActiveJails state)
                             else <[pid := RemoveJailType jail jailType]> (ActiveJails state)))
                   evs)
  ∧ (jailType = "network" ∨ jailType = "cpu" → ActiveJails state !! pid = None →
       ∃ err state' evs,
         runs (jailProcess K fuel state jailType pidStr) tr (Some (err, state')) evs
         ∧ match err with
           | Some _ => state' = state ∧ Forall (touchesOnly pid) evs
           | None =>
               ∃ originalCgroup ds rootEvs descEvs now moved,
                 evs = rootEvs ++ descEvs ++ [EvNow now]
                 ∧ Forall (touchesOnly pid) rootEvs
                 ∧ last rootEvs
                   = Some (EvWriteFile (jailProcsFile state jailType) (pidLine pid) true)
                 ∧ moveSteps (jailProcsFile state jailType) ds descEvs moved
                 ∧ state' = setActiveJails state
                              (<[pid := mkJail pid originalCgroup [jailType] now moved]>
                                 (ActiveJails state))
           end)
  ∧ (jailType = "network" ∨ jailType = "cpu" →
     ∀ jail, ActiveJails state !! pid = Some jail → HasJailType jail jailType = false →
       ∃ err state' nameLookup ws,
         runs (jailProcess K fuel state jailType pidStr) tr (Some (err, state'))
              (nameLookup :: ws)
         ∧ match err with
           | None =>
               ws = combinedWrites state pid
               ∧ state' = setActiveJails state
                            (<[pid := AddJailType jail jailType]> (ActiveJails state))
           | Some e =>
               (∃ cause, e = Wrapf "failed to move process to combined jail" cause)
               ∧ ∃ ev, last ws = Some ev ∧ failed ev = true
           end).
Proof.
  intros Hwithin Hfuel Hpid. split_and!.
  - intros jail Hjail.
    destruct (unjailProcess_runs K state pidStr pid jail tr Hpid Hjail) as (steps & Hr & _).
    eauto.
  - intros jail Hjail Hhas.
    destruct (unjailProcessSelective_succeeds K state jailType pidStr pid jail tr
                Hpid Hjail Hhas) as (state' & evs & Hr & ->).
    eauto.
  - intros Htype Hjail.
    exact (jailProcess_first_runs K U fuel state jailType pidStr pid tr
             Hwithin Hfuel Hpid Htype Hjail).
  - intros Htype jail Hjail Hhas.
    destruct (jailProcess_adds_type K fuel state jailType pidStr pid jail tr
                Hpid Htype Hjail Hhas) as (err & state' & ws & Hr & Hout).
    eauto 6.
Qed.

(** * Hosts and sessions *)

(** The successful writes and directory creations of a trace. *)
Fixpoint writes (evs : list Event) : list (string * string) :=
  match evs with
  | [] => []
  | EvWriteFile path data true :: rest => (path, data) :: writes rest
  | _ :: rest => writes rest
  end.

Fixpoint mkdirs (evs : list Event) : list string :=
  match evs with
  | [] => []
  | EvMkdirAll path true :: rest => path :: mkdirs rest
  | _ :: rest => mkdirs rest
  end.

(** A process table: init, a server 100 and its workers 101 and 102. *)
Definition demoFiles (path : string) : option string :=
  if bool_decide (path = "/proc/1/stat") then Some "1 (init) S 0 1 1 0"
  else if bool_decide (path = "/proc/100/stat") then Some "100 (server) S 1 100 100 0"
  else if bool_decide (path = "/proc/101/stat") then Some "101 (worker) S 100 100 100 0"
  else if bool_decide (path = "/proc/102/stat") then Some "102 (worker) S 100 100 100 0"
  else if bool_decide (path = "/proc/100/cgroup") then Some ("0::/user.slice" +:+ newline)
  else if bool_decide (path = "/proc/100/comm") then Some ("server" +:+ newline)
  else None.

Definition demoProc (path : string) : option (list DirEntry) :=
  if bool_decide (path = "/proc") then
    Some [mkEntry "1" true; mkEntry "100" true; mkEntry "101" true; mkEntry "102" true;
          mkEntry "self" true; mkEntry "cpuinfo" false]
  else None.

Definition demoPids : gset Z := {[1; 100; 101; 102]}.

(** A host with the unified hierarchy on which every call succeeds. *)
Definition hostV2 : Kernel :=
  mkKernel (λ _ _, StatOk) (λ _ _, true) (λ _ _ _, true)
           (λ _ path, demoFiles path) (λ _ path, demoProc path)
           (λ tr, Z.of_nat (length tr)).

(** A host with per-subsystem hierarchies on which every call succeeds. *)
Definition hostV1 : Kernel :=
  mkKernel (λ _ path, if bool_decide (path = "/sys/fs/cgroup/cgroup.controllers")
                      then StatNotExist else StatOk)
           (λ _ _, true) (λ _ _ _, true)
           (λ _ path, demoFiles path) (λ _ path, demoProc path)
           (λ tr, Z.of_nat (length tr)).

(** The same host, except that the [net_cls] hierarchy refuses pids in its
    combined jail. *)
Definition hostV1NetClsRefuses : Kernel :=
  mkKernel (k_Stat hostV1) (k_MkdirAll hostV1)
           (λ _ path _,
              negb (bool_decide (path = "/sys/fs/cgroup/net_cls/jail-network-cpu/cgroup.procs")))
           (k_ReadFile hostV1) (k_ReadDir hostV1) (k_Now hostV1).

(** Start-up followed by [jail network 100]: the state and the history. *)
Definition networkSession (K : Kernel) : JailerState * Trace :=
  let '(_, state, tr) := initializeCgroup K NewJailerState [] in
  match jailProcess K 8 state "network" "100" tr with
  | (Some (_, state), tr) => (state, tr)
  | (None, tr) => (state, tr)
  end.

(** The same, followed by [jail cpu 100]. *)
Definition bothSession (K : Kernel) : JailerState * Trace :=
  let '(state, tr) := networkSession K in
  match jailProcess K 8 state "cpu" "100" tr with
  | (Some (_, state), tr) => (state, tr)
  | (None, tr) => (state, tr)
  end.

(** The calls that [m] adds to the history [tr]. *)
Definition added {A} (m : Sys A) (tr : Trace) : list Event :=
  drop (length tr) (m tr).2.

(** The records of a registry, and the outcome of a jail operation. *)
Definition registry (state : JailerState) : list (Z * Jail) :=
  map_to_list (ActiveJails state).

Definition outcome (r : option (option error * JailerState))
  : option (option error * list (Z * Jail)) :=
  match r with
  | Some (err, state) => Some (err, registry state)
  | None => None
  end.

Definition demoJail : Jail := mkJail 100 "/user.slice" ["network"] 0 [101; 102].

(** The registry after [jail network 100] on a host with the unified
    hierarchy. *)
Definition demoState : JailerState :=
  mkState {[ 100 := demoJail ]} "/sys/fs/cgroup/jail-network" "/sys/fs/cgroup/jail-cpu"
          "/sys/fs/cgroup/jail-network-cpu" 2 "nftables".

Lemma demoPids_within : pidsWithin hostV2 demoPids.
Proof.
  intros tr es e c Hes He Hc. vm_compute in Hes. injection Hes as <-.
  repeat (apply elem_of_cons in He as [-> | He]);
    try (by apply elem_of_nil in He);
    vm_compute in Hc; try discriminate; injection Hc as <-;
    unfold demoPids; set_solver.
Qed.

(** ** Witnesses *)

Lemma C2_witness :
  Go.Atoi "100" = Some 100
  ∧ ActiveJails demoState !! 100 = Some demoJail
  ∧ ∃ nameLookup steps,
      runs (unjailProcess hostV2 demoState "100") []
           (None, setActiveJails demoState (delete 100 (ActiveJails demoState)))
           (nameLookup :: steps)
      ∧ restoreSteps (restoreFiles (CgroupVersion demoState) (OriginalCgroup demoJail))
                     (100 :: Children demoJail) steps
      ∧ ActiveJails (setActiveJails demoState (delete 100 (ActiveJails demoState))) !! 100
        = None.
Proof.
  split; [reflexivity|]. split; [reflexivity|].
  apply (C2_unjail_deletes_record hostV2 demoState "100" 100 demoJail []); reflexivity.
Defined.

Lemma C3_witness :
  pidsWithin hostV2 demoPids
  ∧ (size demoPids + 2 ≤ 8)%nat
  ∧ Go.Atoi "100" = Some 100
  ∧ ∃ err state' nameLookup ws,
      runs (jailProcess hostV2 8 demoState "cpu" "100") [] (Some (err, state'))
           (nameLookup :: ws)
      ∧ match err with
        | None =>
            ws = combinedWrites demoState 100
            ∧ state' = setActiveJails demoState
                         (<[100 := AddJailType demoJail "cpu"]> (ActiveJails demoState))
        | Some e =>
            (∃ cause, e = Wrapf "failed to move process to combined jail" cause)
            ∧ ∃ ev, last ws = Some ev ∧ failed ev = true
        end.
Proof.
  assert (size demoPids + 2 ≤ 8)%nat as Hsize by (vm_compute; lia).
  split; [exact demoPids_within|]. split; [exact Hsize|]. split; [reflexivity|].
  destruct (C3_failures_downgraded_except_root_move hostV2 demoPids 8 demoState "cpu" "100"
              100 [] demoPids_within Hsize eq_refl) as (_ & _ & _ & Hadd).
  exact (Hadd (or_intror eq_refl) demoJail eq_refl eq_refl).
Defined.

Lemma C6_witness :
  Go.Atoi "100" = Some 100
  ∧ ("network" = "network" ∨ "network" = "cpu")
  ∧ ActiveJails demoState !! 100 = Some demoJail
  ∧ HasJailType demoJail "network" = true
  ∧ jailProcess hostV2 8 demoState "network" "100" []
    = (Some (Some (Errorf ("process " +:+ Go.Itoa 100 +:+ " is already jailed with "
                           +:+ "network" +:+ " jail")), demoState), []).
Proof.
  split_and!; [reflexivity | by left | reflexivity | reflexivity |].
  apply (C6_already_jailed hostV2 8 demoState "network" "100" 100 demoJail []);
    [reflexivity | by left | reflexivity | reflexivity].
Defined.

Lemma C7_witness :
  Go.Atoi "100" = Some 100
  ∧ ActiveJails demoState !! 100 = Some demoJail
  ∧ JailTypes demoJail = ["network"]
  ∧ unjailProcessSelective hostV2 demoState "network" "100" []
    = unjailProcess hostV2 demoState "100"
        ([] ++ [EvReadFile (procPath 100 +:+ "/comm")
                           (k_ReadFile hostV2 [] (procPath 100 +:+ "/comm"))])
  ∧ ActiveJails (fst (unjailProcessSelective hostV2 demoState "network" "100" [])).2 !! 100
    = None.
Proof.
  split_and!; [reflexivity | reflexivity | reflexivity | |];
    apply (C7_last_type_is_full_unjail hostV2 demoState "network" "100" 100 demoJail []);
    reflexivity.
Defined.

Lemma C8_witness :
  pidsWithin hostV2 demoPids
  ∧ (size demoPids + 2 ≤ 8)%nat
  ∧ ∃ r eo sc evs,
      runs (getAllDescendants hostV2 8 100) [] (Some r) evs
      ∧ runs (findDescendants hostV2 8 100 (mkScan [] ∅)) [] (Some (eo, sc)) evs
      ∧ scans evs = size (visited sc)
      ∧ visited sc ⊆ {[100]} ∪ demoPids
      ∧ (∀ n p sc0 tr0, p ∈ visited sc0 →
           findDescendants hostV2 (S n) p sc0 tr0 = (Some (None, sc0), tr0))
      ∧ match k_ReadDir hostV2 [] "/proc" with
        | None => r = Err (Wrapf "failed to read /proc directory" OsError)
        | Some _ => r = Ok (descendants sc)
        end.
Proof.
  assert (size demoPids + 2 ≤ 8)%nat as Hsize by (vm_compute; lia).
  split; [exact demoPids_within|]. split; [exact Hsize|].
  exact (C8_getAllDescendants_terminates hostV2 demoPids 8 100 [] demoPids_within Hsize).
Defined.

Lemma C9_witness :
  (∀ tr' pid, k_Stat hostV2 ([] ++ tr') (procPath pid) = k_Stat hostV2 [] (procPath pid))
  ∧ ∃ state1 evs1 evs2 sw2 evs2',
      runs (cleanupDeadProcesses hostV2 demoState) [] state1 evs1
      ∧ runs (cleanupDeadProcesses hostV2 state1) ([] ++ evs1) state1 evs2
      ∧ runs (sweepJails hostV2 state1) ([] ++ evs1) sw2 evs2'
      ∧ deadProcesses sw2 = []
      ∧ sweptJails sw2 = ActiveJails state1
      ∧ ∀ K' tr' pid j',
          ActiveJails (cleanupDeadProcesses K' demoState tr').1 !! pid = Some j' →
          ∃ j, ActiveJails demoState !! pid = Some j ∧ sameIdentity j j'.
Proof.
  split; [reflexivity|].
  apply (C9_cleanup_idempotent hostV2 demoState []). reflexivity.
Defined.

(** * Where the code departs from the stated behaviour *)

(** C3, as stated, fails: on a host whose [net_cls] hierarchy refuses the
    pid, [jail cpu 100] after [jail network 100] has written the pid into the
    [cpu] hierarchy of the combined jail and then returns an error, not a
    success. *)
Lemma C3_combined_write_failure_fails_jail :
  let K := hostV1NetClsRefuses in
  let state := (networkSession K).1 in
  let tr := (networkSession K).2 in
  registry state = [(100, mkJail 100 "/user.slice" ["network"] 37 [101; 102])]
  ∧ fst <$> outcome (jailProcess K 8 state "cpu" "100" tr).1
    = Some (Some (Wrapf "failed to move process to combined jail"
                    (Wrapf ("failed to move PID 100 to net_cls combined cgroup "
                            +:+ "/sys/fs/cgroup/net_cls/jail-network-cpu") OsError)))
  ∧ writes (added (jailProcess K 8 state "cpu" "100") tr)
    = [("/sys/fs/cgroup/cpu/jail-network-cpu/cgroup.procs", pidLine 100)].
Proof. vm_compute. done. Qed.

(** C1 at a failing input: after [jail network 100] has moved 100 and its
    children 101 and 102, [jail cpu 100] adds the type to the same record and
    writes pid 100 alone into the combined jail; 101 and 102, alive and still
    listed as children, are written nowhere. *)
Theorem C1_children_stay_in_the_single_jail :
  let state := (networkSession hostV2).1 in
  let tr := (networkSession hostV2).2 in
  let r := jailProcess hostV2 8 state "cpu" "100" tr in
  registry state = [(100, mkJail 100 "/user.slice" ["network"] 28 [101; 102])]
  ∧ outcome r.1
    = Some (None, [(100, mkJail 100 "/user.slice" ["network"; "cpu"] 28 [101; 102])])
  ∧ writes (added (jailProcess hostV2 8 state "cpu" "100") tr)
    = [("/sys/fs/cgroup/jail-network-cpu/cgroup.procs", pidLine 100);
       ("/sys/fs/cgroup/net_cls/jail-network-cpu/cgroup.procs", pidLine 100)]
  ∧ alive hostV2 r.2 101 = true
  ∧ alive hostV2 r.2 102 = true.
Proof. vm_compute. done. Qed.

(** C4 at a failing input: on a host with the unified hierarchy, where
    start-up resolved the combined jail to one path, the combined move of
    pid 100 writes the pid into two [cgroup.procs] files, the second one
    under a [net_cls] directory that it creates itself. *)
Theorem C4_combined_move_writes_twice_on_v2 :
  let state := (initializeCgroup hostV2 NewJailerState []).1.2 in
  let tr := (initializeCgroup hostV2 NewJailerState []).2 in
  CgroupVersion state = 2
  ∧ NetworkCpuCgroupPath state = "/sys/fs/cgroup/jail-network-cpu"
  ∧ (moveProcessToCombinedCgroup hostV2 state 100 "network,cpu" tr).1 = None
  ∧ mkdirs (added (moveProcessToCombinedCgroup hostV2 state 100 "network,cpu") tr)
    = ["/sys/fs/cgroup/net_cls/jail-network-cpu"]
  ∧ writes (added (moveProcessToCombinedCgroup hostV2 state 100 "network,cpu") tr)
    = [("/sys/fs/cgroup/jail-network-cpu/cgroup.procs", pidLine 100);
       ("/sys/fs/cgroup/net_cls/jail-network-cpu/cgroup.procs", pidLine 100)].
Proof. vm_compute. done. Qed.

(** C5 at a failing input: on a host with per-subsystem hierarchies,
    [unjail cpu 100] on a record with both types leaves the type
    [network], and writes 100 and its children into
    [/sys/fs/cgroup/net_cls/jail/cgroup.procs]: not the network jail path of
    the state, and under no directory that start-up created. *)
Theorem C5_network_jail_path_on_v1 :
  let state := (bothSession hostV1).1 in
  let tr := (bothSession hostV1).2 in
  let r := unjailProcessSelective hostV1 state "cpu" "100" tr in
  CgroupVersion state = 1
  ∧ registry state = [(100, mkJail 100 "/user.slice" ["network"; "cpu"] 37 [101; 102])]
  ∧ r.1.1 = None
  ∧ registry r.1.2 = [(100, mkJail 100 "/user.slice" ["network"] 37 [101; 102])]
  ∧ writes (added (unjailProcessSelective hostV1 state "cpu" "100") tr)
    = [("/sys/fs/cgroup/net_cls/jail/cgroup.procs", pidLine 100);
       ("/sys/fs/cgroup/net_cls/jail/cgroup.procs", pidLine 101);
       ("/sys/fs/cgroup/net_cls/jail/cgroup.procs", pidLine 102)]
  ∧ NetworkCgroupPath state = "/sys/fs/cgroup/memory/jail-network"
  ∧ mkdirs (initializeCgroup hostV1 NewJailerState []).2
    = ["/sys/fs/cgroup/memory/jail-network"; "/sys/fs/cgroup/pids/jail-network";
       "/sys/fs/cgroup/net_cls/jail-network"; "/sys/fs/cgroup/cpu/jail-network";
       "/sys/fs/cgroup/cpu/jail-cpu"; "/sys/fs/cgroup/cpu/jail-network-cpu"].
Proof. vm_compute. done. Qed.

(** * Further properties of the code *)

(** ** The methods of [Jail] *)

Lemma hasType_app ts ts' t : hasType (ts ++ ts') t = hasType ts t || hasType ts' t.
Proof.
  induction ts as [|x ts IH]; simpl; [done|]. by case_bool_decide.
Qed.

Lemma removeFirst_absent ts t : hasType ts t = false → removeFirst ts t = ts.
Proof.
  induction ts as [|x ts IH]; simpl; [done|].
  case_bool_decide; [done|]. intros Hh. by rewrite IH.
Qed.

Lemma removeFirst_snoc ts t : hasType ts t = false → removeFirst (ts ++ [t]) t = ts.
Proof.
  induction ts as [|x ts IH]; simpl.
  - by rewrite bool_decide_eq_true_2.
  - case_bool_decide; [done|]. intros Hh. by rewrite IH.
Qed.

Lemma hasType_removeFirst ts t t' :
  NoDup ts →
  hasType (removeFirst ts t) t' = hasType ts t' && negb (bool_decide (t' = t)).
Proof.
  induction 1 as [|x ts Hx Hnd IH]; simpl; [done|].
  destruct (decide (x = t)) as [->|Hxt].
  - rewrite (bool_decide_eq_true_2 (t = t)) by done.
    destruct (decide (t' = t)) as [->|Ht'].
    + rewrite !bool_decide_eq_true_2 by done. simpl.
      apply not_true_is_false. by intros ?%hasType_elem_of.
    + rewrite (bool_decide_eq_false_2 (t = t')) by congruence.
      rewrite (bool_decide_eq_false_2 (t' = t)) by done.
      simpl. by rewrite andb_true_r.
  - rewrite (bool_decide_eq_false_2 (x = t)) by done. simpl.
    destruct (decide (x = t')) as [->|Hxt'].
    + rewrite (bool_decide_eq_true_2 (t' = t')) by done.
      by rewrite (bool_decide_eq_false_2 (t' = t)) by done.
    + rewrite (bool_decide_eq_false_2 (x = t')) by done. exact IH.
Qed.

Lemma length_removeFirst ts t :
  length (removeFirst ts t) = (length ts - (if hasType ts t then 1 else 0))%nat.
Proof.
  induction ts as [|x ts IH]; simpl; [done|].
  destruct (decide (x = t)) as [->|Hne].
  - rewrite bool_decide_eq_true_2 by done. lia.
  - rewrite bool_decide_eq_false_2 by done. simpl.
    rewrite IH. destruct (hasType ts t) eqn:Hh; [|lia].
    destruct ts; [discriminate | simpl; lia].
Qed.

(** X1: after [AddJailType j t] the record holds [t] and exactly the types it
    held before; nothing but [JailTypes] changes, and adding twice is adding
    once. *)
Theorem X1_AddJailType_membership (j : Jail) (t t' : string) :
  HasJailType (AddJailType j t) t' = bool_decide (t' = t) || HasJailType j t'
  ∧ AddJailType (AddJailType j t) t = AddJailType j t
  ∧ setJailTypes (AddJailType j t) (JailTypes j) = j.
Proof.
  assert (HasJailType (AddJailType j t) t = true) as Hnow.
  { unfold AddJailType, HasJailType.
    destruct (hasType (JailTypes j) t) eqn:Hh; simpl; [done|].
    rewrite hasType_app. simpl. rewrite bool_decide_eq_true_2 by done.
    by rewrite orb_true_r. }
  split_and!.
  - unfold AddJailType, HasJailType.
    destruct (hasType (JailTypes j) t) eqn:Hh; simpl.
    + destruct (decide (t' = t)) as [->|Hne].
      * by rewrite Hh, orb_true_r.
      * by rewrite bool_decide_eq_false_2.
    + rewrite hasType_app. simpl. destruct (decide (t' = t)) as [->|Hne].
      * rewrite !bool_decide_eq_true_2 by done. by rewrite orb_true_r.
      * rewrite (bool_decide_eq_false_2 (t = t')) by congruence.
        rewrite (bool_decide_eq_false_2 (t' = t)) by done. by rewrite orb_false_r.
  - unfold AddJailType at 1. by rewrite Hnow.
  - unfold AddJailType. destruct (negb (HasJailType j t)); by destruct j.
Qed.

(** X2: [RemoveJailType] shortens [JailTypes] by one when the type is there,
    and leaves it alone otherwise; on a duplicate-free list the type is gone
    afterwards and every other type stays. *)
Theorem X2_RemoveJailType_membership (j : Jail) (t : string) :
  NoDup (JailTypes j) →
  length (JailTypes (RemoveJailType j t))
  = (length (JailTypes j) - (if HasJailType j t then 1 else 0))%nat
  ∧ (HasJailType j t = false → RemoveJailType j t = j)
  ∧ ∀ t', HasJailType (RemoveJailType j t) t'
          = HasJailType j t' && negb (bool_decide (t' = t)).
Proof.
  intros Hnd. unfold RemoveJailType, HasJailType. simpl. split_and!.
  - apply length_removeFirst.
  - intros Hh. rewrite removeFirst_absent by done. by destruct j.
  - intros t'. by apply hasType_removeFirst.
Qed.

Lemma X2_witness :
  NoDup (JailTypes (mkJail 1234 "/" ["network"; "cpu"] 0 []))
  ∧ HasJailType (RemoveJailType (mkJail 1234 "/" ["network"; "cpu"] 0 []) "network") "cpu"
    = true
  ∧ HasJailType (RemoveJailType (mkJail 1234 "/" ["network"; "cpu"] 0 []) "network") "network"
    = false.
Proof.
  assert (NoDup (JailTypes (mkJail 1234 "/" ["network"; "cpu"] 0 []))) as Hnd.
  { simpl. apply NoDup_cons. split; [|apply NoDup_singleton].
    intros ?%list_elem_of_singleton. discriminate. }
  split; [exact Hnd|].
  destruct (X2_RemoveJailType_membership (mkJail 1234 "/" ["network"; "cpu"] 0 []) "network" Hnd)
    as (_ & _ & Hmem).
  split; rewrite Hmem; reflexivity.
Defined.

(** X3: adding a type that the record does not hold and removing it again
    gives the record back. *)
Theorem X3_Add_then_Remove (j : Jail) (t : string) :
  HasJailType j t = false → RemoveJailType (AddJailType j t) t = j.
Proof.
  intros Hh. unfold AddJailType, RemoveJailType. rewrite Hh. simpl.
  unfold HasJailType in Hh. rewrite removeFirst_snoc by done. by destruct j.
Qed.

Lemma X3_witness :
  HasJailType (mkJail 1234 "/" ["network"] 0 []) "cpu" = false
  ∧ RemoveJailType (AddJailType (mkJail 1234 "/" ["network"] 0 []) "cpu") "cpu"
    = mkJail 1234 "/" ["network"] 0 [].
Proof.
  split; [reflexivity|].
  apply (X3_Add_then_Remove (mkJail 1234 "/" ["network"] 0 []) "cpu"). reflexivity.
Defined.

(** ** Pids as text *)

Lemma digit_of_pretty_N_char (d : N) :
  (d < 10)%N → Go.digit_of (pretty_N_char d) = Some (Z.of_N d).
Proof.
  intros Hd.
  assert (d = 0 ∨ d = 1 ∨ d = 2 ∨ d = 3 ∨ d = 4 ∨ d = 5 ∨ d = 6 ∨ d = 7 ∨ d = 8 ∨ d = 9)%N
    as Hcases by lia.
  repeat (destruct Hcases as [-> | Hcases]; [reflexivity|]). by subst.
Qed.

Lemma parse_digits_pretty_N_go (x : N) (s : string) :
  Go.parse_digits 0 (pretty_N_go x s) = Go.parse_digits (Z.of_N x) s.
Proof.
  revert s. induction (N.lt_wf_0 x) as [x _ IH]; intros s.
  destruct (decide (0 < x)%N) as [Hpos|Hzero].
  - rewrite pretty_N_go_step by done.
    rewrite IH by (apply N.div_lt; lia).
    simpl. rewrite digit_of_pretty_N_char by (apply N.mod_lt; lia).
    f_equal. rewrite (N.div_mod x 10) at 3 by lia.
    rewrite N2Z.inj_add, N2Z.inj_mul. lia.
  - assert (x = 0%N) as -> by lia. by rewrite pretty_N_go_0.
Qed.

Lemma pretty_N_go_head (x : N) (s : string) :
  (0 < x)%N →
  ∃ a rest, pretty_N_go x s = String a rest ∧ a ≠ "-"%char ∧ a ≠ "+"%char.
Proof.
  revert s. induction (N.lt_wf_0 x) as [x _ IH]; intros s Hpos.
  rewrite pretty_N_go_step by done.
  destruct (N.eq_0_gt_0_cases (x `div` 10)) as [Hdiv|Hdiv].
  2:{ apply IH; [apply N.div_lt; lia | done]. }
  - rewrite Hdiv, pretty_N_go_0.
    eexists _, _. split; [done|].
    pose proof (digit_of_pretty_N_char (x `mod` 10) ltac:(apply N.mod_lt; lia)) as Hd.
    split; intros Heq; rewrite Heq in Hd; discriminate.
Qed.

Lemma Atoi_pretty_positive (p : positive) :
  ∃ a rest, pretty p = String a rest ∧ a ≠ "-"%char ∧ a ≠ "+"%char
            ∧ Go.parse_digits 0 (pretty p) = Some (Z.pos p).
Proof.
  unfold pretty, pretty_positive, pretty, pretty_N.
  rewrite decide_False by done.
  destruct (pretty_N_go_head (N.pos p) "" ltac:(lia)) as (a & rest & Heq & Hm & Hp).
  exists a, rest. split_and!; [done..|].
  by rewrite parse_digits_pretty_N_go.
Qed.

(** [strconv.Atoi] reads back what [strconv.Itoa] prints: every 64-bit [int]
    survives the trip through text, as [cleanup] relies on when it hands
    [strconv.Itoa(pid)] to [unjailProcess]. *)
Lemma Atoi_Itoa (n : Z) :
  Go.minInt ≤ n ≤ Go.maxInt → Go.Atoi (Go.Itoa n) = Some n.
Proof.
  intros Hrange. destruct n as [|p|p].
  - reflexivity.
  - destruct (Atoi_pretty_positive p) as (a & rest & Heq & Hm & Hp & Hparse).
    change (Go.Itoa (Z.pos p)) with (pretty p).
    unfold Go.Atoi. rewrite Heq in *.
    rewrite !bool_decide_eq_false_2 by done. simpl orb. cbv iota.
    rewrite Hparse.
    rewrite (proj2 (Z.leb_le _ _) (proj1 Hrange)), (proj2 (Z.leb_le _ _) (proj2 Hrange)).
    done.
  - destruct (Atoi_pretty_positive p) as (a & rest & Heq & Hm & Hp & Hparse).
    change (Go.Itoa (Z.neg p)) with (String "-"%char (pretty p)).
    unfold Go.Atoi. rewrite bool_decide_eq_true_2 by done.
    simpl orb. cbv iota. rewrite Heq in *. rewrite Hparse.
    change (- Z.pos p) with (Z.neg p).
    rewrite (proj2 (Z.leb_le _ _) (proj1 Hrange)), (proj2 (Z.leb_le _ _) (proj2 Hrange)).
    done.
Qed.

Lemma parse_digits_nonneg (d : string) (acc m : Z) :
  0 ≤ acc → Go.parse_digits acc d = Some m → 0 ≤ m.
Proof.
  revert acc. induction d as [|c d IH]; intros acc Hacc; simpl.
  - by intros [= <-].
  - destruct (Go.digit_of c) as [dg|] eqn:Hd; [|done]. apply IH.
    unfold Go.digit_of in Hd.
    destruct ((48 <=? Z.of_N (N_of_ascii c)) && (Z.of_N (N_of_ascii c) <=? 57)) eqn:Hb;
      [|done].
    injection Hd as <-. apply andb_true_iff in Hb as [H1%Z.leb_le _]. lia.
Qed.

(** Whatever [strconv.Atoi] accepts is a 64-bit [int], and it accepts
    neither the empty string nor a sign alone nor a text with a character
    that is not a decimal digit after the optional sign. *)
Lemma Atoi_accepts (s : string) (n : Z) :
  Go.Atoi s = Some n →
  Go.minInt ≤ n ≤ Go.maxInt
  ∧ s ≠ "" ∧ s ≠ "-" ∧ s ≠ "+"
  ∧ ∃ sign digits, s = sign +:+ digits
                   ∧ (sign = "" ∨ sign = "-" ∨ sign = "+")
                   ∧ Go.parse_digits 0 digits = Some (Z.abs n).
Proof.
  unfold Go.Atoi. destruct s as [|a rest]; [done|].
  set (body := if bool_decide (a = "-"%char) || bool_decide (a = "+"%char)
               then rest else String a rest).
  destruct body as [|b body'] eqn:Hbody; [done|].
  destruct (Go.parse_digits 0 (String b body')) as [m|] eqn:Hparse; [|done].
  assert (0 ≤ m) as Hm by (by eapply (parse_digits_nonneg _ 0)).
  destruct ((Go.minInt <=? (if bool_decide (a = "-"%char) then - m else m))
            && ((if bool_decide (a = "-"%char) then - m else m) <=? Go.maxInt)) eqn:Hr; [|done].
  intros [= <-]. apply andb_true_iff in Hr as [H1%Z.leb_le H2%Z.leb_le].
  split; [done|].
  subst body. split_and!; try done.
  - intros [= -> ->]. by rewrite bool_decide_eq_true_2 in Hbody.
  - intros [= -> ->]. rewrite bool_decide_eq_true_2 in Hbody by done.
    by rewrite orb_true_r in Hbody.
  - case_bool_decide as Hminus.
    + subst a. simpl in Hbody. exists "-", (String b body').
      split_and!; [by rewrite Hbody | auto | ].
      rewrite Hparse. f_equal. lia.
    + case_bool_decide as Hplus.
      * subst a. simpl in Hbody. exists "+", (String b body').
        split_and!; [by rewrite Hbody | auto | ].
        rewrite Hparse. f_equal. lia.
      * simpl in Hbody. exists "", (String b body').
        split_and!; [by rewrite Hbody | auto | ].
        rewrite Hparse. f_equal. lia.
Qed.

(** ** An invariant of the registry *)

(** What every record that the program puts in the registry looks like: it
    sits under its own pid, a 64-bit [int]; its types are [network] and
    [cpu], each at most once, and at least one of them. *)
Definition wellFormedJail (pid : Z) (j : Jail) : Prop :=
  PID j = pid
  ∧ Go.minInt ≤ pid ≤ Go.maxInt
  ∧ NoDup (JailTypes j)
  ∧ JailTypes j ≠ []
  ∧ Forall (λ t, t = "network" ∨ t = "cpu") (JailTypes j).

Definition wellFormed (state : JailerState) : Prop :=
  ∀ pid j, ActiveJails state !! pid = Some j → wellFormedJail pid j.

Lemma wellFormed_insert state pid j :
  wellFormed state → wellFormedJail pid j →
  wellFormed (setActiveJails state (<[pid := j]> (ActiveJails state))).
Proof.
  intros Hwf Hj pid' j'. simpl. destruct (decide (pid' = pid)) as [->|Hne].
  - rewrite lookup_insert_eq. by intros [= <-].
  - rewrite lookup_insert_ne by done. apply Hwf.
Qed.

Lemma wellFormed_delete state pid :
  wellFormed state → wellFormed (setActiveJails state (delete pid (ActiveJails state))).
Proof.
  intros Hwf pid' j'. simpl. destruct (decide (pid' = pid)) as [->|Hne].
  - by rewrite lookup_delete_eq.
  - rewrite lookup_delete_ne by done. apply Hwf.
Qed.

Lemma Atoi_range s n : Go.Atoi s = Some n → Go.minInt ≤ n ≤ Go.maxInt.
Proof.
  unfold Go.Atoi. destruct s as [|a rest]; [done|].
  destruct (if bool_decide (a = "-"%char) || bool_decide (a = "+"%char)
            then rest else String a rest) as [|b body']; [done|].
  destruct (Go.parse_digits 0 (String b body')) as [m|]; [|done].
  destruct ((Go.minInt <=? (if bool_decide (a = "-"%char) then - m else m))
            && ((if bool_decide (a = "-"%char) then - m else m) <=? Go.maxInt)) eqn:Hr; [|done].
  intros [= <-]. apply andb_true_iff in Hr as [H1%Z.leb_le H2%Z.leb_le]. done.
Qed.

Lemma wellFormedJail_add pid j t :
  wellFormedJail pid j → t = "network" ∨ t = "cpu" → wellFormedJail pid (AddJailType j t).
Proof.
  intros (Hpid & Hrange & Hnd & Hne & Hall) Ht.
  refine (conj _ (conj Hrange (conj _ (conj _ _)))).
  - unfold AddJailType. by destruct (negb (HasJailType j t)).
  - by apply AddJailType_NoDup.
  - unfold AddJailType. destruct (negb (HasJailType j t)); simpl; [|done].
    by destruct (JailTypes j).
  - unfold AddJailType. destruct (negb (HasJailType j t)); simpl; [|done].
    apply Forall_app. split; [done|]. by constructor.
Qed.

Lemma wellFormedJail_remove pid j t :
  wellFormedJail pid j → HasJailType j t = true → length (JailTypes j) ≠ 1%nat →
  wellFormedJail pid (RemoveJailType j t) ∧ length (JailTypes (RemoveJailType j t)) = 1%nat.
Proof.
  intros (Hpid & Hrange & Hnd & Hne & Hall) Hhas Hlen.
  pose proof (length_removeFirst (JailTypes j) t) as Hlen'.
  unfold HasJailType in Hhas. rewrite Hhas in Hlen'.
  assert (length (JailTypes j) ≤ 2)%nat as Hle.
  { clear -Hnd Hall.
    assert (JailTypes j ⊆ ["network"; "cpu"]) as Hsub.
    { intros t Ht. rewrite Forall_forall in Hall. destruct (Hall t Ht) as [-> | ->].
      - left.
      - right; left. }
    apply (submseteq_length _ ["network"; "cpu"]).
    by apply NoDup_submseteq. }
  assert (length (JailTypes j) ≠ 0)%nat as Hpos by (by destruct (JailTypes j)).
  split; [|simpl; lia].
  refine (conj Hpid (conj Hrange (conj _ (conj _ _)))); simpl.
  - by apply removeFirst_NoDup.
  - intros Hnil. rewrite Hnil in Hlen'. simpl in Hlen'.
    destruct (JailTypes j) as [|? [|]]; simpl in *; try done; lia.
  - rewrite Forall_forall in *. intros x Hx. apply Hall. by eapply removeFirst_subset.
Qed.

(** Case analysis on every scrutinee of the goal, system calls included. *)
Ltac break_matches :=
  repeat first
    [ case_bool_decide
    | match goal with
      | |- context [match ?x with _ => _ end] => destruct x eqn:?
      end ].

(** The registry after [jailProcess], whatever the kernel answered: as it
    was, or with the record of the pid extended by the type, or with a new
    record for the pid. *)
Lemma jailProcess_state K fuel state jailType pidStr tr err state' tr' :
  jailProcess K fuel state jailType pidStr tr = (Some (err, state'), tr') →
  state' = state
  ∨ (∃ pid jail,
       Go.Atoi pidStr = Some pid ∧ (jailType = "network" ∨ jailType = "cpu")
       ∧ ActiveJails state !! pid = Some jail
       ∧ state' = setActiveJails state
                    (<[pid := AddJailType jail jailType]> (ActiveJails state)))
  ∨ (∃ pid originalCgroup now moved,
       Go.Atoi pidStr = Some pid ∧ (jailType = "network" ∨ jailType = "cpu")
       ∧ ActiveJails state !! pid = None ∧ err = None
       ∧ state' = setActiveJails state
                    (<[pid := mkJail pid originalCgroup [jailType] now moved]>
                       (ActiveJails state))).
Proof.
  unfold jailProcess, bind, ret.
  destruct (Go.Atoi pidStr) as [pid|] eqn:Hpid; [|intros [= <- <-]; by left].
  destruct (decide (jailType = "network")) as [Hn|Hn];
    destruct (decide (jailType = "cpu")) as [Hc|Hc];
    try (rewrite (bool_decide_eq_true_2 (jailType = "network")) by done);
    try (rewrite (bool_decide_eq_false_2 (jailType = "network")) by done);
    try (rewrite (bool_decide_eq_true_2 (jailType = "cpu")) by done);
    try (rewrite (bool_decide_eq_false_2 (jailType = "cpu")) by done);
    cbn [negb andb];
    try (intros [= <- <-]; by left);
    (destruct (ActiveJails state !! pid) as [jail|] eqn:Hjail;
     [ destruct (HasJailType jail jailType); [intros [= <- <-]; by left|];
       destruct (getProcessName K pid tr) as [name tr1];
       destruct (moveProcessToCombinedCgroup K _ pid _ tr1) as [[e|] tr2];
       intros [= <- <- <-]; right; left; exists pid, jail; auto
     | destruct (validateProcessAccess K pid tr) as [[e1|] tr1];
       [intros [= <- <-]; by left|];
       destruct (getProcessCgroup K pid tr1) as [[cg|e2] tr2];
       [|intros [= <- <-]; by left];
       destruct (getAllDescendants K fuel pid tr2) as [[[ds|e3]|] tr3];
       [|intros [= <- <-]; by left|discriminate];
       destruct (getProcessName K pid tr3) as [name tr4];
       match goal with
       | |- context [match ?m tr4 with _ => _ end] => destruct (m tr4) as [[e5|] tr5]
       end;
       [intros [= <- <-]; by left|];
       destruct (moveDescendants K state jailType ds [] tr5) as [moved tr6];
       cbn [time_Now]; intros [= <- <- <-]; right; right;
       exists pid, cg, (k_Now K tr6), moved; auto 10 ]).
Qed.

(** The registry after [unjailProcess]: as it was, or without the record of
    the pid. *)
Lemma unjailProcess_state K state pidStr tr err state' tr' :
  unjailProcess K state pidStr tr = (err, state', tr') →
  state' = state
  ∨ ∃ pid, Go.Atoi pidStr = Some pid
           ∧ state' = setActiveJails state (delete pid (ActiveJails state)).
Proof.
  unfold unjailProcess, bind, ret.
  destruct (Go.Atoi pidStr) as [pid|]; [|intros [= <- <-]; by left].
  destruct (ActiveJails state !! pid) as [jail|]; [|intros [= <- <-]; by left].
  destruct (getProcessName K pid tr) as [name tr1].
  destruct (processExists K pid tr1) as [ex tr2].
  destruct ((if ex then restoreProcessCgroup K state pid (OriginalCgroup jail) else λ tr, (None, tr))
              tr2) as [e tr3].
  destruct (restoreChildren K state (OriginalCgroup jail) (Children jail) 0 tr3) as [n tr4].
  intros [= <- <- <-]. right. eauto.
Qed.

(** The registry after [unjailProcessSelective]: as it was, without the
    record of the pid, or with a record that lost the type and is left with
    one type. *)
Lemma unjailProcessSelective_state K state jailType pidStr tr err state' tr' :
  unjailProcessSelective K state jailType pidStr tr = (err, state', tr') →
  state' = state
  ∨ (∃ pid, Go.Atoi pidStr = Some pid
            ∧ state' = setActiveJails state (delete pid (ActiveJails state)))
  ∨ (∃ pid jail,
       Go.Atoi pidStr = Some pid ∧ ActiveJails state !! pid = Some jail
       ∧ HasJailType jail jailType = true
       ∧ length (JailTypes jail) ≠ 1%nat
       ∧ state' = setActiveJails state
                    (<[pid := RemoveJailType jail jailType]> (ActiveJails state))).
Proof.
  unfold unjailProcessSelective. unfold bind at 1.
  destruct (Go.Atoi pidStr) as [pid|] eqn:Hpid; [|intros [= <- <-]; by left].
  destruct (ActiveJails state !! pid) as [jail|] eqn:Hjail; [|intros [= <- <-]; by left].
  destruct (HasJailType jail jailType) eqn:Hhas; cbn [negb]; [|intros [= <- <-]; by left].
  destruct (getProcessName K pid tr) as [name tr1].
  case_bool_decide as Hone.
  - intros [Hsame|(pid' & H1 & H2)]%unjailProcess_state; [by left|].
    right; left. exists pid'. split; [congruence | done].
  - intros Hrun. right; right. exists pid, jail. split_and!; [done..|].
    revert Hrun. unfold bind, ret. break_matches; intros [= <- <- <-]; done.
Qed.

(** X4: the well-formedness of the registry is an invariant of the program:
    it holds of the empty registry and is kept by [jailProcess] (whenever it
    returns, also with an error), by both unjail operations and by the
    sweep, whatever the kernel answers. *)
Theorem X4_wellFormed_invariant (K : Kernel) (fuel : nat) (state : JailerState)
    (jailType pidStr : string) (tr : Trace) :
  wellFormed state →
  wellFormed NewJailerState
  ∧ (∀ err state' tr',
       jailProcess K fuel state jailType pidStr tr = (Some (err, state'), tr') →
       wellFormed state')
  ∧ wellFormed (unjailProcess K state pidStr tr).1.2
  ∧ wellFormed (unjailProcessSelective K state jailType pidStr tr).1.2
  ∧ wellFormed (cleanupDeadProcesses K state tr).1.
Proof.
  intros Hwf. split_and!.
  - intros pid j Hl. simpl in Hl. by rewrite lookup_empty in Hl.
  - intros err state' tr' Hrun.
    destruct (jailProcess_state _ _ _ _ _ _ _ _ _ Hrun)
      as [-> | [(pid & jail & Hpid & Ht & Hjail & ->)
               | (pid & cg & now & moved & Hpid & Ht & Hjail & _ & ->)]]; [done | |].
    + apply wellFormed_insert; [done|]. apply wellFormedJail_add; [by apply Hwf | done].
    + apply wellFormed_insert; [done|].
      refine (conj eq_refl (conj (Atoi_range _ _ Hpid) (conj _ (conj _ _)))); simpl.
      * apply NoDup_singleton.
      * done.
      * by constructor.
  - destruct (unjailProcess K state pidStr tr) as [[err state'] tr'] eqn:Hrun.
    destruct (unjailProcess_state _ _ _ _ _ _ _ Hrun) as [-> | (pid & _ & ->)]; [done|].
    by apply wellFormed_delete.
  - destruct (unjailProcessSelective K state jailType pidStr tr) as [[err state'] tr'] eqn:Hrun.
    destruct (unjailProcessSelective_state _ _ _ _ _ _ _ _ Hrun)
      as [-> | [(pid & _ & ->) | (pid & jail & _ & Hjail & Hhas & Hlen & ->)]]; [done | |].
    + by apply wellFormed_delete.
    + apply wellFormed_insert; [done|].
      by apply wellFormedJail_remove; [apply Hwf | |].
  - intros pid j' Hl.
    destruct (cleanupDeadProcesses_identity K state tr pid j' Hl)
      as (j & Hj & Hpid & Hcg & Htypes & Htime).
    destruct (Hwf pid j Hj) as (H1 & H2 & H3 & H4 & H5).
    unfold wellFormedJail. rewrite Hpid, Htypes. done.
Qed.

Lemma demoState_wellFormed : wellFormed demoState.
Proof.
  intros pid j Hl. change (ActiveJails demoState) with ({[100 := demoJail]} : gmap Z Jail) in Hl.
  apply lookup_singleton_Some in Hl as [<- <-].
  refine (conj eq_refl (conj _ (conj _ (conj _ _)))); simpl.
  - vm_compute. split; discriminate.
  - apply NoDup_singleton.
  - done.
  - constructor; [by left | constructor].
Qed.

Lemma X4_witness :
  wellFormed demoState
  ∧ wellFormed (unjailProcessSelective hostV2 demoState "network" "100" []).1.2.
Proof.
  split; [exact demoState_wellFormed|].
  exact (proj1 (proj2 (proj2 (proj2
           (X4_wellFormed_invariant hostV2 8 demoState "network" "100" []
              demoState_wellFormed))))).
Defined.

(** ** Giving up one of two types *)

(** The calls of a pass that moves the live ones among [children] towards
    [file]: for each child a liveness check, followed, when it is there, by
    the calls of its move. *)
Fixpoint liveMoveSteps (file : string) (children : list Z) (evs : list Event) : Prop :=
  match children with
  | [] => evs = []
  | c :: rest =>
      ∃ r ws evs',
        evs = EvStat (procPath c) r :: ws ++ evs'
        ∧ match r with
          | StatOk => (∃ err, moveOutcome file c err ws) ∧ Forall (touchesOnly c) ws
          | _ => ws = []
          end
        ∧ liveMoveSteps file rest evs'
  end.

Lemma moveLiveChildren_steps K (move : Z → Sys (option error)) file children tr :
  (∀ c tr, ∃ err ws, runs (move c) tr err ws ∧ moveOutcome file c err ws
                      ∧ Forall (touchesOnly c) ws) →
  ∃ evs, runs (moveLiveChildren K move children) tr tt evs
         ∧ liveMoveSteps file children evs.
Proof.
  intros Hmove. revert tr. induction children as [|c rest IH]; intros tr.
  - exists []. split; [apply runs_ret | done].
  - cbn [moveLiveChildren].
    pose proof (runs_processExists K c tr) as Hex. unfold alive in Hex.
    set (r := k_Stat K tr (procPath c)) in *.
    destruct r eqn:Hr.
    + destruct (Hmove c (tr ++ [EvStat (procPath c) StatOk])) as (err & ws & Hws & Hout & Hall).
      destruct (IH ((tr ++ [EvStat (procPath c) StatOk]) ++ ws)) as (evs & Hrest & Hsteps).
      exists ([EvStat (procPath c) StatOk] ++ ws ++ evs). split.
      * eapply runs_bind; [exact Hex|]. cbv iota.
        eapply runs_bind; [exact Hws | exact Hrest].
      * simpl. exists StatOk, ws, evs. split_and!; eauto.
    + destruct (IH (tr ++ [EvStat (procPath c) StatNotExist])) as (evs & Hrest & Hsteps).
      exists ([EvStat (procPath c) StatNotExist] ++ evs). split.
      * eapply runs_bind; [exact Hex | exact Hrest].
      * simpl. exists StatNotExist, [], evs. split_and!; done.
    + destruct (IH (tr ++ [EvStat (procPath c) StatError])) as (evs & Hrest & Hsteps).
      exists ([EvStat (procPath c) StatError] ++ evs). split.
      * eapply runs_bind; [exact Hex | exact Hrest].
      * simpl. exists StatError, [], evs. split_and!; done.
Qed.

(** X5: on a well-formed registry, [unjailProcessSelective] of one of the two
    types of a record always takes the single-type branch: the record keeps
    its other type, and the root and then every child found alive are moved
    by the move of a first jail of that type, towards the same
    [cgroup.procs] file; failures of these moves do not stop the pass, and
    the operation returns success. *)
Theorem X5_selective_unjail_moves_to_single_jail (K : Kernel) (state : JailerState)
    (jailType pidStr : string) (pid : Z) (jail : Jail) (tr : Trace) :
  wellFormed state →
  Go.Atoi pidStr = Some pid →
  ActiveJails state !! pid = Some jail →
  HasJailType jail jailType = true →
  length (JailTypes jail) ≠ 1%nat →
  ∃ remaining nameLookup ws evs,
    JailTypes (RemoveJailType jail jailType) = [remaining]
    ∧ remaining ≠ jailType
    ∧ (remaining = "network" ∨ remaining = "cpu")
    ∧ runs (unjailProcessSelective K state jailType pidStr) tr
           (None, setActiveJails state
                    (<[pid := RemoveJailType jail jailType]> (ActiveJails state)))
           (nameLookup :: ws ++ evs)
    ∧ (∃ err, moveOutcome (jailProcsFile state remaining) pid err ws)
    ∧ Forall (touchesOnly pid) ws
    ∧ liveMoveSteps (jailProcsFile state remaining) (Children jail) evs.
Proof.
  intros Hwf Hpid Hjail Hhas Hlen.
  destruct (wellFormedJail_remove pid jail jailType (Hwf pid jail Hjail) Hhas Hlen)
    as ((_ & _ & Hnd1 & _ & Hall1) & Hlen1).
  destruct (JailTypes (RemoveJailType jail jailType)) as [|remaining [|]] eqn:Htypes;
    try discriminate.
  assert (remaining = "network" ∨ remaining = "cpu") as Hrem by by inversion Hall1.
  assert (remaining ≠ jailType) as Hne.
  { intros ->. destruct (Hwf pid jail Hjail) as (_ & _ & Hnd & _).
    pose proof (hasType_removeFirst (JailTypes jail) jailType jailType Hnd) as Hgone.
    unfold RemoveJailType in Htypes. simpl in Htypes. rewrite Htypes in Hgone.
    simpl in Hgone. rewrite !bool_decide_eq_true_2 in Hgone by done.
    by rewrite andb_false_r in Hgone. }
  set (state1 := setActiveJails state
                   (<[pid := RemoveJailType jail jailType]> (ActiveJails state))).
  destruct (runs_getProcessName K pid tr) as (name & Hname).
  set (tr1 := tr ++ [EvReadFile (procPath pid +:+ "/comm")
                                (k_ReadFile K tr (procPath pid +:+ "/comm"))]) in *.
  destruct (jailMove_runs K state1 remaining pid tr1) as (err & ws & Hws & Hout & Hall).
  destruct (moveLiveChildren_steps K
              (λ c, if bool_decide (remaining = "cpu") then moveProcessToCpuCgroup K state1 c
                    else moveProcessToCgroup K state1 c)
              (jailProcsFile state1 remaining) (Children jail) (tr1 ++ ws))
    as (evs & Hevs & Hsteps).
  { intros c tr'. apply jailMove_runs. }
  exists remaining, (EvReadFile (procPath pid +:+ "/comm")
                                (k_ReadFile K tr (procPath pid +:+ "/comm"))), ws, evs.
  split_and!; [done | done | done | | by exists err | done | done].
  change (?e :: ws ++ evs) with ([e] ++ ws ++ evs).
  unfold unjailProcessSelective. rewrite Hpid, Hjail, Hhas. cbn [negb].
  eapply runs_bind; [exact Hname|].
  rewrite (bool_decide_eq_false_2 (length (JailTypes jail) = 1%nat)) by done.
  fold state1. rewrite Htypes. cbn [length nth].
  rewrite (bool_decide_eq_true_2 (1%nat = 1%nat)) by done.
  rewrite <- (app_nil_r evs).
  destruct Hrem as [-> | ->].
  - rewrite (bool_decide_eq_false_2 ("network" = "cpu")) in * by done.
    rewrite (bool_decide_eq_true_2 ("network" = "network")) by done.
    eapply runs_bind; [exact Hws|]. eapply runs_bind; [exact Hevs | apply runs_ret].
  - rewrite (bool_decide_eq_true_2 ("cpu" = "cpu")) in * by done.
    eapply runs_bind; [exact Hws|]. eapply runs_bind; [exact Hevs | apply runs_ret].
Qed.

Definition demoJailBoth : Jail := mkJail 100 "/user.slice" ["network"; "cpu"] 0 [101; 102].

Definition demoStateBoth : JailerState :=
  mkState {[ 100 := demoJailBoth ]} "/sys/fs/cgroup/jail-network" "/sys/fs/cgroup/jail-cpu"
          "/sys/fs/cgroup/jail-network-cpu" 2 "nftables".

Lemma demoStateBoth_wellFormed : wellFormed demoStateBoth.
Proof.
  intros pid j Hl.
  change (ActiveJails demoStateBoth) with ({[100 := demoJailBoth]} : gmap Z Jail) in Hl.
  apply lookup_singleton_Some in Hl as [<- <-].
  refine (conj eq_refl (conj _ (conj _ (conj _ _)))); simpl.
  - vm_compute. split; discriminate.
  - apply NoDup_cons. split; [|apply NoDup_singleton].
    intros ?%list_elem_of_singleton. discriminate.
  - done.
  - constructor; [by left | constructor; [by right | constructor]].
Qed.

Lemma X5_witness :
  wellFormed demoStateBoth
  ∧ Go.Atoi "100" = Some 100
  ∧ ActiveJails demoStateBoth !! 100 = Some demoJailBoth
  ∧ HasJailType demoJailBoth "cpu" = true
  ∧ length (JailTypes demoJailBoth) ≠ 1%nat
  ∧ ∃ evs, runs (unjailProcessSelective hostV2 demoStateBoth "cpu" "100") []
                (None, setActiveJails demoStateBoth
                         (<[100 := RemoveJailType demoJailBoth "cpu"]>
                            (ActiveJails demoStateBoth))) evs.
Proof.
  split_and!; [exact demoStateBoth_wellFormed | reflexivity | reflexivity | reflexivity
              | discriminate |].
  destruct (X5_selective_unjail_moves_to_single_jail hostV2 demoStateBoth "cpu" "100" 100
              demoJailBoth [] demoStateBoth_wellFormed eq_refl eq_refl eq_refl
              ltac:(discriminate))
    as (remaining & nameLookup & ws & evs & _ & _ & _ & Hr & _).
  eauto.
Defined.

(** ** Restoring under per-subsystem hierarchies *)

Definition restoreFileV1 (originalCgroup subsys : string) : string :=
  Go.PathJoin ["/sys/fs/cgroup"; subsys; Go.TrimPrefixSlash originalCgroup; "cgroup.procs"].

Lemma restoreSubsystemsV1_stops K subsystems pid cg tr :
  ∃ err written,
    runs (restoreSubsystemsV1 K subsystems pid cg) tr err
         (((λ subsys, EvWriteFile (restoreFileV1 cg subsys) (pidLine pid) true) <$> written)
          ++ match err with
             | None => []
             | Some _ =>
                 [EvWriteFile (restoreFileV1 cg (nth (length written) subsystems ""))
                              (pidLine pid) false]
             end)
    ∧ match err with
      | None => written = subsystems
      | Some _ => ∃ rest, subsystems = written ++ rest ∧ rest ≠ []
      end.
Proof.
  revert tr. induction subsystems as [|subsys rest IH]; intros tr.
  - exists None, []. split; [apply runs_ret | done].
  - cbn [restoreSubsystemsV1]. fold (restoreFileV1 cg subsys).
    destruct (k_WriteFile K tr (restoreFileV1 cg subsys) (pidLine pid)) eqn:Hw.
    + destruct (IH (tr ++ [EvWriteFile (restoreFileV1 cg subsys) (pidLine pid) true]))
        as (err & written & Hr & Hshape).
      exists err, (subsys :: written). split.
      * rewrite fmap_cons. rewrite <- app_comm_cons.
        change (?e :: ?l) with ([e] ++ l).
        eapply runs_bind; [by apply runs_WriteFile_eq|]. exact Hr.
      * destruct err; [|by subst].
        destruct Hshape as (rest' & -> & Hne). by exists rest'.
    + eexists (Some _), []. split.
      * simpl. change [?e] with ([e] ++ []).
        eapply runs_bind; [by apply runs_WriteFile_eq|]. apply runs_ret.
      * by exists (subsys :: rest).
Qed.

(** X6: under per-subsystem hierarchies a restore writes the pid into the
    [memory], [pids], [net_cls] and [cpu] hierarchies in this order and gives
    up at the first write that fails: it succeeds exactly when all four
    writes succeeded, and after a failure the later hierarchies are not
    tried. *)
Theorem X6_restore_v1_stops_at_first_failure (K : Kernel) (state : JailerState) (pid : Z)
    (originalCgroup : string) (tr : Trace) :
  CgroupVersion state ≠ 2 →
  ∃ err written,
    runs (restoreProcessCgroup K state pid originalCgroup) tr err
         (((λ subsys, EvWriteFile (restoreFileV1 originalCgroup subsys) (pidLine pid) true)
             <$> written)
          ++ match err with
             | None => []
             | Some _ =>
                 [EvWriteFile (restoreFileV1 originalCgroup
                                 (nth (length written) ["memory"; "pids"; "net_cls"; "cpu"] ""))
                              (pidLine pid) false]
             end)
    ∧ match err with
      | None => written = ["memory"; "pids"; "net_cls"; "cpu"]
      | Some _ => ∃ rest, ["memory"; "pids"; "net_cls"; "cpu"] = written ++ rest ∧ rest ≠ []
      end.
Proof.
  intros Hv. unfold restoreProcessCgroup, restoreProcessCgroupV1.
  rewrite bool_decide_eq_false_2 by done.
  apply restoreSubsystemsV1_stops.
Qed.

Lemma X6_witness :
  CgroupVersion (bothSession hostV1).1 ≠ 2
  ∧ ∃ err written,
      runs (restoreProcessCgroup hostV1 (bothSession hostV1).1 100 "/user.slice") [] err
           (((λ subsys, EvWriteFile (restoreFileV1 "/user.slice" subsys) (pidLine 100) true)
               <$> written)
            ++ match err with
               | None => []
               | Some _ =>
                   [EvWriteFile (restoreFileV1 "/user.slice"
                                   (nth (length written) ["memory"; "pids"; "net_cls"; "cpu"] ""))
                                (pidLine 100) false]
               end)
      ∧ match err with
        | None => written = ["memory"; "pids"; "net_cls"; "cpu"]
        | Some _ => ∃ rest, ["memory"; "pids"; "net_cls"; "cpu"] = written ++ rest ∧ rest ≠ []
        end.
Proof.
  assert (CgroupVersion (bothSession hostV1).1 ≠ 2) as Hv by (vm_compute; discriminate).
  split; [exact Hv|].
  exact (X6_restore_v1_stops_at_first_failure hostV1 (bothSession hostV1).1 100 "/user.slice"
           [] Hv).
Defined.

(** ** Undoing a jail *)

(** X7: whenever [jailProcess] changed the registry, the matching unjail
    changes it back.  After a first jail of a process that had no record,
    [unjailProcess] returns success and the registry as it was; after a type
    was added to a record, [unjailProcessSelective] of that type returns
    success and the record as it was.  This holds whatever the kernel
    answers to the moves and restores. *)
Theorem X7_unjail_undoes_jail (K : Kernel) (fuel : nat) (state state1 : JailerState)
    (jailType pidStr : string) (pid : Z) (err : option error) (tr tr1 : Trace) :
  Go.Atoi pidStr = Some pid →
  jailProcess K fuel state jailType pidStr tr = (Some (err, state1), tr1) →
  state1 ≠ state →
  (ActiveJails state !! pid = None → (unjailProcess K state1 pidStr tr1).1 = (None, state))
  ∧ (∀ jail, ActiveJails state !! pid = Some jail → JailTypes jail ≠ [] →
       (unjailProcessSelective K state1 jailType pidStr tr1).1 = (None, state)).
Proof.
  intros Hpid Hrun Hchanged.
  assert (∀ m, m = ActiveJails state → setActiveJails state m = state) as Hback.
  { intros m ->. by destruct state. }
  destruct (jailProcess_state _ _ _ _ _ _ _ _ _ Hrun)
    as [-> | [(pid' & jail & Hpid' & Ht & Hjail & ->)
             | (pid' & cg & now & moved & Hpid' & Ht & Hjail & _ & ->)]]; [done | |];
    assert (pid' = pid) as -> by congruence.
  - split; [intros Hnone; congruence|].
    intros jail' Hjail' Hne. assert (jail' = jail) as -> by congruence.
    assert (HasJailType jail jailType = false) as Hhas.
    { destruct (HasJailType jail jailType) eqn:Hhas; [|done]. exfalso. apply Hchanged.
      unfold AddJailType. rewrite Hhas. simpl. apply Hback. by rewrite insert_id. }
    set (state1 := setActiveJails state (<[pid := AddJailType jail jailType]> (ActiveJails state))).
    assert (ActiveJails state1 !! pid = Some (AddJailType jail jailType)) as Hl1
      by apply lookup_insert_eq.
    assert (HasJailType (AddJailType jail jailType) jailType = true) as Hhas1.
    { unfold AddJailType, HasJailType in *. rewrite Hhas. simpl.
      rewrite hasType_app. simpl. rewrite bool_decide_eq_true_2 by done.
      by rewrite orb_true_r. }
    destruct (unjailProcessSelective_succeeds K state1 jailType pidStr pid _ tr1
                Hpid Hl1 Hhas1) as (state2 & evs & Hr & ->).
    rewrite Hr. simpl. f_equal.
    rewrite bool_decide_eq_false_2.
    2:{ unfold AddJailType. rewrite Hhas. simpl. rewrite length_app. simpl.
        destruct (JailTypes jail); [done | simpl; lia]. }
    apply Hback. rewrite insert_insert_eq.
    unfold AddJailType, RemoveJailType. rewrite Hhas. simpl.
    unfold HasJailType in Hhas. rewrite removeFirst_snoc by done.
    rewrite insert_id; [done|]. rewrite Hjail. by destruct jail.
  - split; [|intros jail Hjail'; congruence].
    intros _.
    set (state1 := setActiveJails state
                     (<[pid := mkJail pid cg [jailType] now moved]> (ActiveJails state))).
    assert (ActiveJails state1 !! pid = Some (mkJail pid cg [jailType] now moved)) as Hl1
      by apply lookup_insert_eq.
    destruct (unjailProcess_runs K state1 pidStr pid _ tr1 Hpid Hl1) as (steps & Hr & _).
    rewrite Hr. simpl. f_equal. apply Hback. by rewrite delete_insert_id.
Qed.

Lemma X7_witness :
  Go.Atoi "100" = Some 100
  ∧ (jailProcess hostV2 8 demoState "cpu" "100" []).1 ≠ None
  ∧ (unjailProcessSelective hostV2
       (setActiveJails demoState (<[100 := AddJailType demoJail "cpu"]> (ActiveJails demoState)))
       "cpu" "100" (jailProcess hostV2 8 demoState "cpu" "100" []).2).1
    = (None, demoState).
Proof.
  split; [reflexivity|]. split; [vm_compute; discriminate|].
  assert (jailProcess hostV2 8 demoState "cpu" "100" []
          = (Some (None, setActiveJails demoState
                           (<[100 := AddJailType demoJail "cpu"]> (ActiveJails demoState))),
             (jailProcess hostV2 8 demoState "cpu" "100" []).2)) as Hrun.
  { destruct (jailProcess_adds_type hostV2 8 demoState "cpu" "100" 100 demoJail []
                eq_refl (or_intror eq_refl) eq_refl eq_refl)
      as (err & state' & ws & Hr & Hout).
    unfold runs in Hr. rewrite Hr. simpl.
    destruct err as [e|]; [|by destruct Hout as [_ ->]].
    exfalso. destruct Hout as (_ & ev & Hlast & Hfailed).
    assert (ws = combinedWrites demoState 100) as ->.
    { assert ((jailProcess hostV2 8 demoState "cpu" "100" []).2
              = [] ++ EvReadFile (procPath 100 +:+ "/comm")
                                 (k_ReadFile hostV2 [] (procPath 100 +:+ "/comm")) :: ws) as H2
        by by rewrite Hr.
      vm_compute in H2. by injection H2 as <-. }
    vm_compute in Hlast. injection Hlast as <-. discriminate. }
  refine (proj2 (X7_unjail_undoes_jail hostV2 8 demoState _ "cpu" "100" 100 None [] _
                   eq_refl Hrun _) demoJail eq_refl _).
  - intros Heq. apply (f_equal (λ s, JailTypes <$> ActiveJails s !! 100)) in Heq.
    vm_compute in Heq. discriminate.
  - discriminate.
Defined.

(** ** Rejected unjail requests *)

(** X8: the unjail operations fail only by rejecting the request, before any
    system call: [unjailProcess] returns an error exactly when the text is
    not a pid or the pid has no record, [unjailProcessSelective] exactly when
    in addition the record does not hold the type; a rejected request leaves
    the registry and the kernel untouched. *)
Theorem X8_unjail_rejections (K : Kernel) (state : JailerState) (jailType pidStr : string)
    (tr : Trace) :
  ((unjailProcess K state pidStr tr).1.1 = None
   ↔ ∃ pid jail, Go.Atoi pidStr = Some pid ∧ ActiveJails state !! pid = Some jail)
  ∧ (∀ e, (unjailProcess K state pidStr tr).1.1 = Some e →
          unjailProcess K state pidStr tr = (Some e, state, tr))
  ∧ ((unjailProcessSelective K state jailType pidStr tr).1.1 = None
     ↔ ∃ pid jail, Go.Atoi pidStr = Some pid ∧ ActiveJails state !! pid = Some jail
                   ∧ HasJailType jail jailType = true)
  ∧ (∀ e, (unjailProcessSelective K state jailType pidStr tr).1.1 = Some e →
          unjailProcessSelective K state jailType pidStr tr = (Some e, state, tr)).
Proof.
  assert (∀ pid jail, Go.Atoi pidStr = Some pid → ActiveJails state !! pid = Some jail →
            (unjailProcess K state pidStr tr).1.1 = None) as Hfull.
  { intros pid jail Hpid Hjail.
    destruct (unjailProcess_runs K state pidStr pid jail tr Hpid Hjail) as (steps & Hr & _).
    by rewrite Hr. }
  assert (∀ pid jail, Go.Atoi pidStr = Some pid → ActiveJails state !! pid = Some jail →
            HasJailType jail jailType = true →
            (unjailProcessSelective K state jailType pidStr tr).1.1 = None) as Hsel.
  { intros pid jail Hpid Hjail Hhas.
    destruct (unjailProcessSelective_succeeds K state jailType pidStr pid jail tr
                Hpid Hjail Hhas) as (state' & evs & Hr & _).
    by rewrite Hr. }
  split_and!.
  - split; [|intros (pid & jail & Hpid & Hjail); eauto].
    unfold unjailProcess.
    destruct (Go.Atoi pidStr) as [pid|]; [|discriminate].
    destruct (ActiveJails state !! pid) as [jail|] eqn:Hjail; [|discriminate].
    intros _. by exists pid, jail.
  - intros e. unfold unjailProcess.
    destruct (Go.Atoi pidStr) as [pid|] eqn:Hpid; [|by intros [= <-]].
    destruct (ActiveJails state !! pid) as [jail|] eqn:Hjail; [|by intros [= <-]].
    intros He. specialize (Hfull pid jail eq_refl Hjail).
    unfold unjailProcess in Hfull. rewrite Hpid, Hjail in Hfull. congruence.
  - split; [|intros (pid & jail & Hpid & Hjail & Hhas); eauto].
    unfold unjailProcessSelective.
    destruct (Go.Atoi pidStr) as [pid|]; [|discriminate].
    destruct (ActiveJails state !! pid) as [jail|] eqn:Hjail; [|discriminate].
    destruct (HasJailType jail jailType) eqn:Hhas; [|discriminate].
    intros _. by exists pid, jail.
  - intros e. unfold unjailProcessSelective.
    destruct (Go.Atoi pidStr) as [pid|] eqn:Hpid; [|by intros [= <-]].
    destruct (ActiveJails state !! pid) as [jail|] eqn:Hjail; [|by intros [= <-]].
    destruct (HasJailType jail jailType) eqn:Hhas; [|by intros [= <-]].
    intros He. specialize (Hsel pid jail eq_refl Hjail Hhas).
    unfold unjailProcessSelective in Hsel. rewrite Hpid, Hjail, Hhas in Hsel. congruence.
Qed.

(** ** What a sweep leaves *)






(** ** Start-up *)

(** [wp m tr Q]: run after the history [tr], the computation [m] returns a
    value and makes calls that satisfy [Q]. *)
Definition wp {A} (m : Sys A) (tr : Trace) (Q : A → list Event → Prop) : Prop :=
  ∃ a evs, runs m tr a evs ∧ Q a evs.

Lemma wp_ret {A} (a : A) tr (Q : A → list Event → Prop) : Q a [] → wp (ret a) tr Q.
Proof. intros HQ. exists a, []. split; [apply runs_ret | done]. Qed.

Lemma wp_bind {A B} (m : Sys A) (k : A → Sys B) tr (Q : B → list Event → Prop) :
  wp m tr (λ a evs, wp (k a) (tr ++ evs) (λ b evs', Q b (evs ++ evs'))) →
  wp (x <- m ;; k x) tr Q.
Proof.
  intros (a & evs & Hr & b & evs' & Hr' & HQ).
  exists b, (evs ++ evs'). split; [by eapply runs_bind | done].
Qed.

Lemma wp_Stat K path tr (Q : StatResult → list Event → Prop) :
  Q (k_Stat K tr path) [EvStat path (k_Stat K tr path)] → wp (os_Stat K path) tr Q.
Proof. intros HQ. eexists _, _. split; [apply runs_Stat | done]. Qed.

Lemma wp_MkdirAll K path tr (Q : bool → list Event → Prop) :
  Q (k_MkdirAll K tr path) [EvMkdirAll path (k_MkdirAll K tr path)] →
  wp (os_MkdirAll K path) tr Q.
Proof. intros HQ. eexists _, _. split; [apply runs_MkdirAll | done]. Qed.

Lemma wp_WriteFile K path data tr (Q : bool → list Event → Prop) :
  Q (k_WriteFile K tr path data) [EvWriteFile path data (k_WriteFile K tr path data)] →
  wp (os_WriteFile K path data) tr Q.
Proof. intros HQ. eexists _, _. split; [apply runs_WriteFile | done]. Qed.

Lemma wp_ReadFile K path tr (Q : option string → list Event → Prop) :
  Q (k_ReadFile K tr path) [EvReadFile path (k_ReadFile K tr path)] →
  wp (os_ReadFile K path) tr Q.
Proof. intros HQ. eexists _, _. split; [apply runs_ReadFile | done]. Qed.

(** One system call of a computation, with a case for each answer. *)
Ltac wp_call :=
  apply wp_bind;
  first
    [ apply wp_Stat; match goal with |- context [k_Stat ?K ?t ?p] =>
                                       destruct (k_Stat K t p) eqn:? end
    | apply wp_MkdirAll; match goal with |- context [k_MkdirAll ?K ?t ?p] =>
                                           destruct (k_MkdirAll K t p) eqn:? end
    | apply wp_WriteFile; match goal with |- context [k_WriteFile ?K ?t ?p ?d] =>
                                            destruct (k_WriteFile K t p d) eqn:? end ];
  cbn [negb].

Lemma initializeCgroupV2_wp K state tr :
  wp (initializeCgroupV2 K state) tr
     (λ err evs,
        err = None →
        mkdirs evs = [NetworkCgroupPath state; CpuCgroupPath state; NetworkCpuCgroupPath state]
        ∧ (writes evs
           = [(Go.PathJoin [CpuCgroupPath state; "cpu.max"], "10000 100000" +:+ newline)]
           ∨ writes evs
             = [("/sys/fs/cgroup/cgroup.subtree_control", "+memory +pids +cpu" +:+ newline);
                (Go.PathJoin [CpuCgroupPath state; "cpu.max"], "10000 100000" +:+ newline)])).
Proof.
  unfold initializeCgroupV2, setupCpuLimitV2.
  wp_call; [|by apply wp_ret].
  wp_call; [|by apply wp_ret].
  wp_call; [|by apply wp_ret].
  wp_call; apply wp_bind; (wp_call; apply wp_ret; apply wp_ret; [|done]);
    intros _; simpl; auto.
Qed.

Lemma initializeCgroupV1_wp K state tr :
  wp (initializeCgroupV1 K state) tr
     (λ err evs,
        err = None →
        mkdirs evs
        = ["/sys/fs/cgroup/memory/jail-network"; "/sys/fs/cgroup/pids/jail-network";
           "/sys/fs/cgroup/net_cls/jail-network"; "/sys/fs/cgroup/cpu/jail-network";
           "/sys/fs/cgroup/cpu/jail-cpu"; "/sys/fs/cgroup/cpu/jail-network-cpu"]
        ∧ writes evs
          = [(Go.PathJoin [CpuCgroupPath state; "cpu.cfs_period_us"], cpuPeriod);
             (Go.PathJoin [CpuCgroupPath state; "cpu.cfs_quota_us"], cpuQuota);
             (Go.PathJoin [NetworkCpuCgroupPath state; "cpu.cfs_period_us"], cpuPeriod);
             (Go.PathJoin [NetworkCpuCgroupPath state; "cpu.cfs_quota_us"], cpuQuota)]).
Proof.
  unfold initializeCgroupV1, setupCpuLimitV1.
  apply wp_bind. cbn [createNetworkCgroups].
  wp_call; [|apply wp_ret; by apply wp_ret].
  wp_call; [|apply wp_ret; by apply wp_ret].
  wp_call; [|apply wp_ret; by apply wp_ret].
  wp_call; [|apply wp_ret; by apply wp_ret].
  apply wp_ret.
  wp_call; [|by apply wp_ret].
  wp_call; [|by apply wp_ret|].
  all: (wp_call; [|by apply wp_ret]).
  all: (wp_call; [|by apply wp_ret|]).
  all: apply wp_bind.
  all: (wp_call; [|apply wp_ret; by apply wp_ret|]).
  all: (wp_call; [|apply wp_ret; by apply wp_ret]).
  all: (wp_call; [|apply wp_ret; by apply wp_ret]).
  all: (wp_call; [|apply wp_ret; by apply wp_ret]).
  all: (wp_call; [|apply wp_ret; by apply wp_ret]).
  all: apply wp_ret; apply wp_ret; intros _; vm_compute; done.
Qed.

Lemma wp_mono {A} (m : Sys A) tr (Q Q' : A → list Event → Prop) :
  wp m tr Q → (∀ a evs, Q a evs → Q' a evs) → wp m tr Q'.
Proof. intros (a & evs & Hr & HQ) Himp. exists a, evs. auto. Qed.

Lemma wp_pair {A B} (m : Sys (A * B)) tr (Q : A → B → list Event → Prop) :
  wp m tr (λ r evs, Q r.1 r.2 evs) → ∃ a b evs, runs m tr (a, b) evs ∧ Q a b evs.
Proof. intros ([a b] & evs & Hr & HQ). by exists a, b, evs. Qed.

(** X10: [initializeCgroup] keeps the registry, and when it succeeds it has
    detected v2 or v1, set the three cgroup paths of that version, created
    exactly the directories of that version in a fixed order, and written the
    CPU limit: on v2 the one line [10000 100000] into [cpu.max] of [jail-cpu]
    only (preceded by the controller line when that write was accepted), on
    v1 period [100000] and quota [1000] for [jail-cpu] and for
    [jail-network-cpu]. *)
Theorem X10_initializeCgroup_success (K : Kernel) (state : JailerState) (tr : Trace) :
  ∃ err state1 evs,
    runs (initializeCgroup K state) tr (err, state1) evs
    ∧ ActiveJails state1 = ActiveJails state
    ∧ (err = None →
       (CgroupVersion state1 = 2
        ∧ NetworkCgroupPath state1 = "/sys/fs/cgroup/jail-network"
        ∧ CpuCgroupPath state1 = "/sys/fs/cgroup/jail-cpu"
        ∧ NetworkCpuCgroupPath state1 = "/sys/fs/cgroup/jail-network-cpu"
        ∧ mkdirs evs = ["/sys/fs/cgroup/jail-network"; "/sys/fs/cgroup/jail-cpu";
                        "/sys/fs/cgroup/jail-network-cpu"]
        ∧ (writes evs = [("/sys/fs/cgroup/jail-cpu/cpu.max", "10000 100000" +:+ newline)]
           ∨ writes evs
             = [("/sys/fs/cgroup/cgroup.subtree_control", "+memory +pids +cpu" +:+ newline);
                ("/sys/fs/cgroup/jail-cpu/cpu.max", "10000 100000" +:+ newline)]))
       ∨ (CgroupVersion state1 = 1
          ∧ NetworkCgroupPath state1 = "/sys/fs/cgroup/memory/jail-network"
          ∧ CpuCgroupPath state1 = "/sys/fs/cgroup/cpu/jail-cpu"
          ∧ NetworkCpuCgroupPath state1 = "/sys/fs/cgroup/cpu/jail-network-cpu"
          ∧ mkdirs evs
            = ["/sys/fs/cgroup/memory/jail-network"; "/sys/fs/cgroup/pids/jail-network";
               "/sys/fs/cgroup/net_cls/jail-network"; "/sys/fs/cgroup/cpu/jail-network";
               "/sys/fs/cgroup/cpu/jail-cpu"; "/sys/fs/cgroup/cpu/jail-network-cpu"]
          ∧ writes evs
            = [("/sys/fs/cgroup/cpu/jail-cpu/cpu.cfs_period_us", "100000" +:+ newline);
               ("/sys/fs/cgroup/cpu/jail-cpu/cpu.cfs_quota_us", "1000" +:+ newline);
               ("/sys/fs/cgroup/cpu/jail-network-cpu/cpu.cfs_period_us",
                "100000" +:+ newline);
               ("/sys/fs/cgroup/cpu/jail-network-cpu/cpu.cfs_quota_us",
                "1000" +:+ newline)])).
Proof.
  apply wp_pair. unfold initializeCgroup, detectCgroupVersion.
  apply wp_bind. wp_call.
  1: apply wp_ret.
  2,3: wp_call; apply wp_ret.
  all: cbn beta iota zeta; try (apply wp_ret; split; [done | discriminate]).
  all: rewrite ?bool_decide_eq_true_2 by done; rewrite ?bool_decide_eq_false_2 by done.
  all: apply wp_bind.
  - eapply wp_mono; [apply initializeCgroupV2_wp|].
    intros err evs Hpost. apply wp_ret. cbn [fst snd]. split; [done|]. intros ->. left.
    destruct (Hpost eq_refl) as [Hm Hw]. rewrite !app_nil_r.
    cbn [mkdirs app]. rewrite Hm. split_and!; try reflexivity. exact Hw.
  - eapply wp_mono; [apply initializeCgroupV1_wp|].
    intros err evs Hpost. apply wp_ret. cbn [fst snd]. split; [done|]. intros ->. right.
    destruct (Hpost eq_refl) as [Hm Hw]. rewrite !app_nil_r.
    cbn [mkdirs writes app]. rewrite Hm, Hw. split_and!; reflexivity.
  - eapply wp_mono; [apply initializeCgroupV1_wp|].
    intros err evs Hpost. apply wp_ret. cbn [fst snd]. split; [done|]. intros ->. right.
    destruct (Hpost eq_refl) as [Hm Hw]. rewrite !app_nil_r.
    cbn [mkdirs writes app]. rewrite Hm, Hw. split_and!; reflexivity.
Qed.

(** ** Reading [/proc/<pid>/cgroup] *)

(** The character [a] does not occur in [s]. *)
Fixpoint lacks (a : ascii) (s : string) : bool :=
  match s with
  | EmptyString => true
  | String b s' => negb (bool_decide (b = a)) && lacks a s'
  end.

(** [s] is empty or starts with [a]. *)
Definition endsField (a : ascii) (s : string) : bool :=
  match s with
  | EmptyString => true
  | String b _ => bool_decide (b = a)
  end.

Lemma lacks_app a s1 s2 : lacks a (s1 +:+ s2) = lacks a s1 && lacks a s2.
Proof. induction s1 as [|b s1 IH]; simpl; [done|]. by rewrite IH, andb_assoc. Qed.

Lemma string_of_rev_cur (cur : list ascii) (s : string) :
  string_of_list_ascii (rev (rev (list_ascii_of_string s) ++ cur))
  = string_of_list_ascii (rev cur) +:+ s.
Proof.
  rewrite rev_app_distr, rev_involutive.
  induction (rev cur) as [|b l IH]; simpl.
  - apply string_of_list_ascii_of_string.
  - by rewrite IH.
Qed.

Lemma split_go_lacks sep cur s1 s2 :
  lacks sep s1 →
  Go.split_go sep cur (s1 +:+ s2)
  = Go.split_go sep (rev (list_ascii_of_string s1) ++ cur) s2.
Proof.
  revert cur. induction s1 as [|b s1 IH]; intros cur Hl; simpl; [done|].
  simpl in Hl. apply andb_prop_elim in Hl as [Hb Hl].
  rewrite bool_decide_eq_false_2 by (intros ->; by rewrite bool_decide_eq_true_2 in Hb).
  rewrite IH by done. by rewrite <- List.app_assoc.
Qed.

(** Splitting reads a field up to the separator or the end of the text. *)
Lemma split_go_field sep s1 s2 :
  lacks sep s1 → endsField sep s2 →
  ∃ more, Go.split_go sep [] (s1 +:+ s2) = s1 :: more
          ∧ (s2 = "" → more = [])
          ∧ ∀ b s2', s2 = String b s2' → more = Go.split_go sep [] s2'.
Proof.
  intros Hl He. rewrite split_go_lacks by done. destruct s2 as [|b s2']; simpl.
  - exists []. rewrite string_of_rev_cur. simpl. split_and!; [done | done | intros; done].
  - simpl in He. rewrite bool_decide_eq_true_2 by (by apply bool_decide_unpack in He).
    eexists. rewrite string_of_rev_cur. simpl. split_and!; [done | done |].
    by intros ? ? [= <- <-].
Qed.

(** X11: [getProcessCgroup] returns the third colon-separated field of the
    first line of [/proc/<pid>/cgroup]: for a first line [h:c:path] it is
    [path], whatever lines follow, and when the path itself holds a colon
    only the part before that colon is returned. *)
Theorem X11_getProcessCgroup_first_line (K : Kernel) (pid : Z) (tr : Trace)
    (h c path tail rest : string) :
  let line := h +:+ ":" +:+ c +:+ ":" +:+ path +:+ tail in
  let file := procPath pid +:+ "/cgroup" in
  k_ReadFile K tr file = Some (line +:+ rest) →
  lacks ":" h → lacks ":" c → lacks ":" path →
  lacks "010" line →
  endsField ":" tail → endsField "010" rest →
  runs (getProcessCgroup K pid) tr (Ok path) [EvReadFile file (Some (line +:+ rest))].
Proof.
  intros line file Hread Hh Hc Hpath Hline Htail Hrest.
  unfold getProcessCgroup. fold file.
  replace [EvReadFile file (Some (line +:+ rest))]
    with ([EvReadFile file (Some (line +:+ rest))] ++ []) by done.
  eapply runs_bind; [by apply runs_ReadFile_eq|].
  unfold Go.Split.
  destruct (split_go_field "010" line rest Hline Hrest) as (more & -> & _).
  cbn [firstCgroupPath].
  rewrite bool_decide_eq_false_2.
  2:{ subst line. destruct h; discriminate. }
  unfold Go.Split. subst line.
  destruct (split_go_field ":" h (":" +:+ c +:+ ":" +:+ path +:+ tail) Hh I)
    as (more1 & -> & _ & Hmore1).
  rewrite (Hmore1 _ _ eq_refl).
  destruct (split_go_field ":" c (":" +:+ path +:+ tail) Hc I) as (more2 & -> & _ & Hmore2).
  rewrite (Hmore2 _ _ eq_refl).
  destruct (split_go_field ":" path tail Hpath Htail) as (more3 & -> & _).
  simpl. apply runs_ret.
Qed.

Lemma X11_witness :
  runs (getProcessCgroup hostV2 100) [] (Ok "/user.slice")
       [EvReadFile "/proc/100/cgroup" (k_ReadFile hostV2 [] "/proc/100/cgroup")].
Proof.
  assert (k_ReadFile hostV2 [] "/proc/100/cgroup" = Some ("0::/user.slice" +:+ newline))
    as Hfile by reflexivity.
  rewrite Hfile.
  exact (X11_getProcessCgroup_first_line hostV2 100 [] "0" "" "/user.slice" "" newline
           Hfile I I I I I I).
Defined.

(** ** The process tree of a snapshot of [/proc] *)



(** The parent pid that [getProcessChildren] reads in the text of a [stat]
    file: the fourth field, when there are four and it is a number. *)
Definition ppidOf (text : string) : option Z :=
  let fields := Go.Fields text in
  if (length fields <? 4)%nat then None else Go.Atoi (nth 3 fields "").







Lemma size_listed_le (l : list DirEntry) :
  (size (list_to_set (C := gset Z) (omap (λ e, Go.Atoi (entry_Name e)) l)) ≤ length l)%nat.
Proof.
  induction l as [|e l IH]; cbn [omap list_omap length].
  - rewrite list_to_set_nil, size_empty. lia.
  - destruct (Go.Atoi (entry_Name e)) as [c|]; [|lia].
    rewrite list_to_set_cons, size_union_alt, size_singleton.
    pose proof (subseteq_size
                  (list_to_set (omap (λ e, Go.Atoi (entry_Name e)) l) ∖ {[c]})
                  (list_to_set (C := gset Z) (omap (λ e, Go.Atoi (entry_Name e)) l))
                  ltac:(set_solver)).
    lia.
Qed.

Section Snapshot.

Context (K : Kernel) (es : list DirEntry) (files : string → option string).

Definition statFile (e : DirEntry) : string := Go.PathJoin ["/proc"; entry_Name e; "stat"].

(** The pid under which an entry of [/proc] is taken, and its parent. *)
Definition listed (e : DirEntry) : option Z :=
  if entry_IsDir e then Go.Atoi (entry_Name e) else None.

Definition parentOf (e : DirEntry) : option Z := files (statFile e) ≫= ppidOf.

(** [link p c]: the snapshot shows [c] with parent [p]. *)
Definition link (p c : Z) : Prop :=
  ∃ e, e ∈ es ∧ listed e = Some c ∧ parentOf e = Some p.

Definition childIn (pid : Z) (e : DirEntry) : option Z :=
  match listed e, parentOf e with
  | Some c, Some p => if bool_decide (p = pid) then Some c else None
  | _, _ => None
  end.

(** What the scan knows about [root] while the pids in [S] are being
    expanded: what is marked is reachable, what is collected is a proper
    descendant, and a marked pid that is not being expanded has all its
    children marked and collected. *)
Definition scanInv (root : Z) (S : gset Z) (sc : Scan) : Prop :=
  (∀ v, v ∈ visited sc → rtc link root v)
  ∧ (∀ d, d ∈ descendants sc → tc link root d)
  ∧ (∀ v c, v ∈ visited sc → v ∉ S → link v c → c ∈ visited sc ∧ c ∈ descendants sc).

Definition visits (fuel : nat) : Prop :=
  ∀ root S p sc tr eo sc' tr',
    findDescendants K fuel p sc tr = (Some (eo, sc'), tr') →
    scanInv root S sc → rtc link root p →
    eo = None ∧ scanInv root S sc' ∧ p ∈ visited sc'
    ∧ visited sc ⊆ visited sc' ∧ (∀ d, d ∈ descendants sc → d ∈ descendants sc').

Hypothesis Hdir : ∀ tr, k_ReadDir K tr "/proc" = Some es.
Hypothesis Hfiles : ∀ tr path, k_ReadFile K tr path = files path.

Lemma scanEntries_snapshot pid entries children tr :
  (scanEntries K pid entries children tr).1 = children ++ omap (childIn pid) entries.
Proof.
  revert children tr. induction entries as [|e rest IH]; intros children tr.
  - simpl. by rewrite app_nil_r.
  - cbn [scanEntries omap list_omap]. unfold childIn at 1, listed, parentOf.
    destruct (entry_IsDir e); cbn [negb]; [|by rewrite IH].
    destruct (Go.Atoi (entry_Name e)) as [c|]; [|by rewrite IH].
    unfold bind, os_ReadFile. rewrite Hfiles. fold (statFile e).
    destruct (files (statFile e)) as [text|]; cbn [mbind option_bind]; [|by rewrite IH].
    unfold ppidOf. destruct (length (Go.Fields text) <? 4)%nat; [by rewrite IH|].
    destruct (Go.Atoi (nth 3 (Go.Fields text) "")) as [p|]; [|by rewrite IH].
    case_bool_decide; rewrite IH; [|done]. by rewrite <- List.app_assoc.
Qed.

Lemma getProcessChildren_snapshot pid tr :
  (getProcessChildren K pid tr).1 = Ok (omap (childIn pid) es).
Proof.
  unfold getProcessChildren, bind, os_ReadDir, ret. rewrite Hdir.
  pose proof (scanEntries_snapshot pid es [] (tr ++ [EvReadDir "/proc" (Some es)])) as Hs.
  destruct (scanEntries K pid es [] (tr ++ [EvReadDir "/proc" (Some es)])) as [cs tr1].
  simpl in *. by rewrite Hs.
Qed.

Lemma elem_of_childIn pid c : c ∈ omap (childIn pid) es ↔ link pid c.
Proof.
  rewrite list_elem_of_omap. unfold link, childIn. split.
  - intros (e & He & Hc). exists e. split; [done|].
    destruct (listed e) as [c'|]; [|done]. destruct (parentOf e) as [p|]; [|done].
    case_bool_decide; [|done]. by simplify_eq.
  - intros (e & He & Hl & Hp). exists e. split; [done|].
    rewrite Hl, Hp. by rewrite bool_decide_eq_true_2.
Qed.

Lemma descendLoop_snapshot fuel root S cs :
  visits fuel →
  ∀ sc tr eo sc' tr',
    descendLoop (findDescendants K fuel) cs sc tr = (Some (eo, sc'), tr') →
    scanInv root S sc → (∀ c, c ∈ cs → tc link root c) →
    eo = None ∧ scanInv root S sc'
    ∧ visited sc ⊆ visited sc' ∧ (∀ d, d ∈ descendants sc → d ∈ descendants sc')
    ∧ ∀ c, c ∈ cs → c ∈ visited sc' ∧ c ∈ descendants sc'.
Proof.
  intros Hfuel. induction cs as [|c cs IH]; intros sc tr eo sc' tr' Hrun Hinv Hcs.
  - injection Hrun as <- <- <-. split_and!; try done. intros c Hc. by apply elem_of_nil in Hc.
  - cbn [descendLoop] in Hrun. unfold bind in Hrun.
    set (sc0 := mkScan (descendants sc ++ [c]) (visited sc)) in Hrun.
    destruct (findDescendants K fuel c sc0 tr) as [[[eo1 sc1]|] tr1] eqn:Hrec;
      [|discriminate].
    assert (tc link root c) as Hc by (apply Hcs; left).
    assert (scanInv root S sc0) as Hinv0.
    { destruct Hinv as (Hv & Hd & Hcl). split_and!; simpl.
      - done.
      - intros d [?| ->%list_elem_of_singleton]%elem_of_app; auto.
      - intros v c' Hvis HS Hl. destruct (Hcl v c' Hvis HS Hl). split; [done|].
        apply elem_of_app. by left. }
    destruct (Hfuel root S c sc0 tr eo1 sc1 tr1 Hrec Hinv0 (tc_rtc _ _ Hc))
      as (_ & Hinv1 & Hc1 & Hmono1 & Hdesc1).
    destruct (IH sc1 tr1 eo sc' tr' Hrun Hinv1) as (-> & Hinv' & Hmono' & Hdesc' & Hin').
    { intros c' Hc'. apply Hcs. by right. }
    split_and!; try done.
    + simpl in Hmono1. set_solver.
    + intros d Hd. apply Hdesc', Hdesc1. simpl. apply elem_of_app. by left.
    + intros c' [->|Hc']%elem_of_cons; [|by apply Hin'].
      split; [set_solver|]. apply Hdesc', Hdesc1. simpl. apply elem_of_app. right.
      by apply list_elem_of_singleton.
Qed.

Lemma findDescendants_visits fuel : visits fuel.
Proof.
  induction fuel as [|fuel IH]; intros root S p sc tr eo sc' tr' Hrun Hinv Hp;
    [discriminate|].
  cbn [findDescendants] in Hrun. case_bool_decide as Hvis.
  - injection Hrun as <- <- <-. by split_and!.
  - unfold bind in Hrun.
    pose proof (getProcessChildren_snapshot p tr) as Hcs.
    destruct (getProcessChildren K p tr) as [r tr1]. simpl in Hcs. subst r.
    set (sc0 := mkScan (descendants sc) ({[p]} ∪ visited sc)) in Hrun.
    assert (scanInv root (S ∪ {[p]}) sc0) as Hinv0.
    { destruct Hinv as (Hv & Hd & Hcl). split_and!; simpl.
      - intros v [->%elem_of_singleton|?]%elem_of_union; auto.
      - done.
      - intros v c Hv' HS Hl.
        assert (v ∈ visited sc) as Hvv by set_solver.
        destruct (Hcl v c Hvv ltac:(set_solver) Hl). split; [set_solver | done]. }
    destruct (descendLoop_snapshot fuel root (S ∪ {[p]}) _ IH sc0 tr1 eo sc' tr' Hrun Hinv0)
      as (-> & (Hv' & Hd' & Hcl') & Hmono & Hdesc & Hin).
    { intros c Hc%elem_of_childIn. eapply tc_rtc_l; [exact Hp | by apply tc_once]. }
    simpl in Hmono. split_and!; [done | | set_solver | set_solver | done].
    split_and!; [done | done |].
    intros v c Hv HS Hl. destruct (decide (v = p)) as [->|Hne].
    + by apply Hin, elem_of_childIn.
    + apply (Hcl' v c Hv); [set_solver | done].
Qed.

(** On a snapshot the top call returns without an error, and leaves the
    scan closed under the parent links. *)
Lemma findDescendants_snapshot fuel pid tr :
  (length es + 2 ≤ fuel)%nat →
  ∃ sc evs,
    runs (findDescendants K fuel pid (mkScan [] ∅)) tr (Some (None, sc)) evs
    ∧ scanInv pid ∅ sc ∧ pid ∈ visited sc.
Proof.
  intros Hfuel.
  destruct (findDescendants_root K _ fuel pid tr (pidsWithin_snapshot K es Hdir))
    as (eo & sc & evs & Hr & _).
  { pose proof (size_listed_le es). lia. }
  destruct (findDescendants_visits fuel pid ∅ pid (mkScan [] ∅) tr eo sc (tr ++ evs) Hr)
    as (-> & Hinv & Hp & _); [|done|].
  { split_and!; simpl; [set_solver | | set_solver]. intros d Hd. by apply elem_of_nil in Hd. }
  by exists sc, evs.
Qed.

End Snapshot.


(** The entries of [/proc] on the demonstration hosts. *)
Definition demoEntries : list DirEntry :=
  [mkEntry "1" true; mkEntry "100" true; mkEntry "101" true; mkEntry "102" true;
   mkEntry "self" true; mkEntry "cpuinfo" false].










Lemma omap_NoDup_inj {A B} (f : A → option B) (l : list A) (x y : A) (b : B) :
  NoDup (omap f l) → x ∈ l → y ∈ l → f x = Some b → f y = Some b → x = y.
Proof.
  induction l as [|a l IH]; intros Hnd Hx Hy Hfx Hfy; [by apply elem_of_nil in Hx|].
  cbn [omap list_omap] in Hnd.
  apply elem_of_cons in Hx as [->|Hx]; apply elem_of_cons in Hy as [->|Hy]; [done|..].
  - rewrite Hfx in Hnd. apply NoDup_cons in Hnd as [Hnin _].
    exfalso. apply Hnin, list_elem_of_omap. eauto.
  - rewrite Hfy in Hnd. apply NoDup_cons in Hnd as [Hnin _].
    exfalso. apply Hnin, list_elem_of_omap. eauto.
  - apply IH; try done. destruct (f a); [by apply NoDup_cons in Hnd as [_ ?] | done].
Qed.

Section SnapshotOnce.

Context (K : Kernel) (es : list DirEntry) (files : string → option string).

(** From [sc] to [sc'] the scan has only marked more pids, and has collected
    pids once each: pids that are [allowed], or children of the pids that it
    has marked in between. *)
Definition collects (allowed : Z → Prop) (sc sc' : Scan) : Prop :=
  visited sc ⊆ visited sc'
  ∧ ∃ new, descendants sc' = descendants sc ++ new ∧ NoDup new
           ∧ ∀ d, d ∈ new →
                  allowed d ∨ ∃ q, link es files q d ∧ q ∈ visited sc' ∧ q ∉ visited sc.

Definition collecting (fuel : nat) : Prop :=
  ∀ p sc tr eo sc' tr',
    findDescendants K fuel p sc tr = (Some (eo, sc'), tr') → collects (λ _, False) sc sc'.

Hypothesis Hdir : ∀ tr, k_ReadDir K tr "/proc" = Some es.
Hypothesis Hfiles : ∀ tr path, k_ReadFile K tr path = files path.
Hypothesis Hnodup : NoDup (omap listed es).

Lemma link_one_parent p q c : link es files p c → link es files q c → p = q.
Proof.
  intros (e & He & Hl & Hp) (e' & He' & Hl' & Hq).
  assert (e = e') as <- by (by eapply (omap_NoDup_inj listed es)).
  congruence.
Qed.

Lemma childIn_NoDup pid : NoDup (omap (childIn files pid) es).
Proof.
  clear Hdir. induction es as [|e l IH]; cbn [omap list_omap]; [constructor|].
  cbn [omap list_omap] in Hnodup.
  assert (NoDup (omap listed l)) as Hl
    by (destruct (listed e); [by apply NoDup_cons in Hnodup as [_ ?] | done]).
  destruct (childIn files pid e) as [c|] eqn:Hc; [|by apply IH].
  apply NoDup_cons. split; [|by apply IH].
  assert (listed e = Some c) as He.
  { unfold childIn in Hc. destruct (listed e); [|done]. destruct (parentOf files e); [|done].
    case_bool_decide; [|done]. done. }
  rewrite He in Hnodup. apply NoDup_cons in Hnodup as [Hnin _].
  intros (e' & He' & Hc')%list_elem_of_omap. apply Hnin, list_elem_of_omap.
  exists e'. split; [done|].
  unfold childIn in Hc'. destruct (listed e'); [|done]. destruct (parentOf files e'); [|done].
  case_bool_decide; [|done]. done.
Qed.

Lemma descendLoop_collects fuel p cs :
  collecting fuel →
  ∀ sc tr eo sc' tr',
    descendLoop (findDescendants K fuel) cs sc tr = (Some (eo, sc'), tr') →
    NoDup cs → (∀ c, c ∈ cs → link es files p c) → p ∈ visited sc →
    collects (λ d, d ∈ cs) sc sc'.
Proof.
  intros Hfuel. induction cs as [|c cs IH]; intros sc tr eo sc' tr' Hrun Hnd Hcs Hp.
  - injection Hrun as <- <- <-. split; [done|]. exists []. rewrite app_nil_r.
    split_and!; [done | constructor |]. intros d Hd. by apply elem_of_nil in Hd.
  - cbn [descendLoop] in Hrun. unfold bind in Hrun.
    set (sc0 := mkScan (descendants sc ++ [c]) (visited sc)) in Hrun.
    destruct (findDescendants K fuel c sc0 tr) as [[[eo1 sc1]|] tr1] eqn:Hrec;
      [|discriminate].
    apply NoDup_cons in Hnd as [Hc Hnd].
    destruct (Hfuel c sc0 tr eo1 sc1 tr1 Hrec) as (Hmono1 & new1 & Hd1 & Hnd1 & Hnew1).
    simpl in Hmono1, Hd1, Hnew1.
    destruct (IH sc1 tr1 eo sc' tr' Hrun Hnd) as (Hmono2 & new2 & Hd2 & Hnd2 & Hnew2).
    { intros c' Hc'. apply Hcs. by right. }
    { by apply Hmono1. }
    assert (link es files p c) as Hpc by (apply Hcs; left).
    split; [set_solver|]. exists ([c] ++ new1 ++ new2). split_and!.
    + rewrite Hd2, Hd1. by rewrite <- !List.app_assoc.
    + apply NoDup_app. split_and!; [apply NoDup_singleton | | apply NoDup_app; split_and!].
      * intros d ->%list_elem_of_singleton [Hin|Hin]%elem_of_app.
        -- destruct (Hnew1 c Hin) as [[]|(q & Hq & _ & Hnq)].
           rewrite (link_one_parent q p c Hq Hpc) in Hnq. done.
        -- destruct (Hnew2 c Hin) as [?|(q & Hq & _ & Hnq)]; [done|].
           rewrite (link_one_parent q p c Hq Hpc) in Hnq. apply Hnq. by apply Hmono1.
      * done.
      * intros d Hin1 Hin2.
        destruct (Hnew1 d Hin1) as [[]|(q1 & Hq1 & Hv1 & Hnv1)].
        destruct (Hnew2 d Hin2) as [Hdcs|(q2 & Hq2 & _ & Hnv2)].
        -- rewrite (link_one_parent q1 p d Hq1) in Hnv1; [done|]. apply Hcs. by right.
        -- rewrite (link_one_parent q2 q1 d Hq2 Hq1) in Hnv2. done.
      * done.
    + intros d [->%list_elem_of_singleton|[Hin|Hin]%elem_of_app]%elem_of_app.
      * left. by left.
      * destruct (Hnew1 d Hin) as [[]|(q & Hq & Hv & Hnv)].
        right. exists q. split_and!; [done | by apply Hmono2 | done].
      * destruct (Hnew2 d Hin) as [?|(q & Hq & Hv & Hnv)]; [left; by right|].
        right. exists q. split_and!; [done | done |]. intros ?. apply Hnv. by apply Hmono1.
Qed.

Lemma findDescendants_collecting fuel : collecting fuel.
Proof.
  induction fuel as [|fuel IH]; intros p sc tr eo sc' tr' Hrun; [discriminate|].
  cbn [findDescendants] in Hrun. case_bool_decide as Hvis.
  - injection Hrun as <- <- <-. split; [done|]. exists []. rewrite app_nil_r.
    split_and!; [done | constructor |]. intros d Hd. by apply elem_of_nil in Hd.
  - unfold bind in Hrun.
    pose proof (getProcessChildren_snapshot K es files Hdir Hfiles p tr) as Hcs.
    destruct (getProcessChildren K p tr) as [r tr1]. simpl in Hcs. subst r.
    set (sc0 := mkScan (descendants sc) ({[p]} ∪ visited sc)) in Hrun.
    destruct (descendLoop_collects fuel p _ IH sc0 tr1 eo sc' tr' Hrun)
      as (Hmono & new & Hd & Hnd & Hnew).
    { apply childIn_NoDup. }
    { intros c. by apply elem_of_childIn. }
    { simpl. set_solver. }
    simpl in Hmono, Hd, Hnew. split; [set_solver|]. exists new. split_and!; [done..|].
    intros d Hin. right. destruct (Hnew d Hin) as [Hc%elem_of_childIn|(q & Hq & Hv & Hnv)].
    + exists p. split_and!; [done | set_solver | done].
    + exists q. split_and!; [done | done | set_solver].
Qed.

End SnapshotOnce.

(** X15: on a snapshot of [/proc] whose entries name each pid once,
    [getAllDescendants] lists no pid twice, however the parent links run:
    the jail operations write each descendant once. *)
Theorem X15_getAllDescendants_no_duplicates (K : Kernel) (es : list DirEntry)
    (files : string → option string) (fuel : nat) (pid : Z) (tr : Trace) :
  (∀ tr, k_ReadDir K tr "/proc" = Some es) →
  (∀ tr path, k_ReadFile K tr path = files path) →
  NoDup (omap listed es) →
  (length es + 2 ≤ fuel)%nat →
  ∃ l evs, runs (getAllDescendants K fuel pid) tr (Some (Ok l)) evs ∧ NoDup l.
Proof.
  intros Hdir Hfiles Hnodup Hfuel.
  destruct (findDescendants_snapshot K es files Hdir Hfiles fuel pid tr Hfuel)
    as (sc & evs & Hr & _).
  exists (descendants sc), (evs ++ []). split.
  { unfold getAllDescendants. eapply runs_bind; [exact Hr | apply runs_ret]. }
  destruct (findDescendants_collecting K es files Hdir Hfiles Hnodup fuel pid _ tr _ _ _ Hr)
    as (_ & new & Hd & Hnd & _).
  simpl in Hd. by rewrite Hd.
Qed.

Lemma X15_witness :
  ∃ l evs, runs (getAllDescendants hostV2 8 1) [] (Some (Ok l)) evs ∧ NoDup l.
Proof.
  apply (X15_getAllDescendants_no_duplicates hostV2 demoEntries demoFiles 8 1 []).
  - intros tr. reflexivity.
  - intros tr path. reflexivity.
  - vm_compute. repeat (apply NoDup_cons; split; [set_solver|]). apply NoDup_nil_2.
  - simpl. lia.
Defined.

(** * The host beyond the kernel: removals and commands *)

(** [cleanup] and [firewall.go] also remove directories and run the firewall
    tools.  A host answers these calls as a kernel answers the others: from
    the whole history.  The calls of the functions above are part of that
    history, and the kernel that they see is the one of the moment. *)
Inductive HostEvent :=
  | HvSys (ev : Event)
  | HvRemove (path : string) (ok : bool)
  | HvLookPath (file : string) (found : bool)
  | HvRun (argv : list string) (ok : bool)
  | HvCombinedOutput (argv : list string) (output : string) (ok : bool).

Definition HostTrace := list HostEvent.

Record Host := mkHost {
  h_Kernel : HostTrace → Kernel;
  h_Remove : HostTrace → string → bool;
  h_LookPath : HostTrace → string → bool;
  h_Run : HostTrace → list string → bool;
  h_CombinedOutput : HostTrace → list string → string * bool
}.

Definition HSys (A : Type) : Type := HostTrace → A * HostTrace.

Definition hret {A} (a : A) : HSys A := λ h, (a, h).

Definition hbind {A B} (m : HSys A) (k : A → HSys B) : HSys B :=
  λ h, let '(a, h') := m h in k a h'.

Notation "x <~ m ;; k" := (hbind m (λ x, k))
  (at level 100, m at next level, right associativity).

(** [strings.Contains], on bytes. *)
Fixpoint hasPrefix (s sub : string) : bool :=
  match sub, s with
  | EmptyString, _ => true
  | String b sub', String a s' => bool_decide (a = b) && hasPrefix s' sub'
  | String _ _, EmptyString => false
  end.

Fixpoint strings_Contains (s sub : string) : bool :=
  hasPrefix s sub
  || match s with
     | EmptyString => false
     | String _ s' => strings_Contains s' sub
     end.

Definition dquote : string := String "034"%char "".

Definition netClsClassID : string := "0x00100001".
Definition classIDPath : string := "/sys/fs/cgroup/net_cls/jail/net_cls.classid".

Section HostProgram.

Context (host : Host).

(** A computation of the functions above, run on the kernel of the moment. *)
Definition liftSys {A} (m : Kernel → Sys A) : HSys A :=
  λ h, let '(a, tr) := m (h_Kernel host h) [] in (a, h ++ (HvSys <$> tr)).

Definition os_Remove (path : string) : HSys bool :=
  λ h, let ok := h_Remove host h path in (ok, h ++ [HvRemove path ok]).



Definition cmd_CombinedOutput (argv : list string) : HSys (string * bool) :=
  λ h, let r := h_CombinedOutput host h argv in (r, h ++ [HvCombinedOutput argv r.1 r.2]).

(** *** [firewall.go] *)





Definition writeFile (path content : string) : HSys bool :=
  liftSys (λ K, os_WriteFile K path content).

(** The loop [Execute all commands] of the two set-up functions: the first
    command that fails ends it. *)
Fixpoint runCommands (tool : string) (commands : list (list string)) : HSys (option error) :=
  match commands with
  | [] => hret None
  | cmdArgs :: rest =>
      r <~ cmd_CombinedOutput cmdArgs ;;
      if negb r.2 then
        hret (Some (Wrapf ("failed to execute " +:+ tool +:+ " command") OsError))
      else runCommands tool rest
  end.

Definition setupNftablesJail (state : JailerState) : HSys (option error) :=
  let commands :=
    [ ["nft"; "add"; "table"; "inet"; "jail"];
      ["nft"; "add"; "chain"; "inet"; "jail"; "output"; "{"; "type"; "filter"; "hook";
       "output"; "priority"; "100"; ";"; "}"];
      ["nft"; "add"; "chain"; "inet"; "jail"; "input"; "{"; "type"; "filter"; "hook";
       "input"; "priority"; "100"; ";"; "}"] ] in
  r <~ (if bool_decide (CgroupVersion state = 2) then
          hret (inl (commands
                     ++ [ ["nft"; "add"; "rule"; "inet"; "jail"; "output"; "socket";
                           "cgroupv2"; "level"; "1"; dquote +:+ "jail" +:+ dquote; "drop"];
                          ["nft"; "add"; "rule"; "inet"; "jail"; "input"; "socket";
                           "cgroupv2"; "level"; "1"; dquote +:+ "jail" +:+ dquote; "drop"] ]))
        else
          ok <~ writeFile classIDPath (netClsClassID +:+ newline) ;;
          if negb ok then hret (inr (Wrapf "failed to set net_cls classid" OsError))
          else
            hret (inl (commands
                       ++ [ ["nft"; "add"; "rule"; "inet"; "jail"; "output"; "meta"; "cgroup";
                             netClsClassID; "drop"];
                            ["nft"; "add"; "rule"; "inet"; "jail"; "input"; "meta"; "cgroup";
                             netClsClassID; "drop"] ]))) ;;
  match r with
  | inr e => hret (Some e)
  | inl commands => runCommands "nftables" commands
  end.

Definition setupIptablesJail (state : JailerState) : HSys (option error) :=
  r <~ (if bool_decide (CgroupVersion state = 2) then
          hret (inl [ ["iptables"; "-A"; "OUTPUT"; "-m"; "cgroup"; "--path"; "jail"; "-j";
                       "DROP"];
                      ["iptables"; "-A"; "INPUT"; "-m"; "cgroup"; "--path"; "jail"; "-j";
                       "DROP"] ])
        else
          ok <~ writeFile classIDPath (netClsClassID +:+ newline) ;;
          if negb ok then hret (inr (Wrapf "failed to set net_cls classid" OsError))
          else
            hret (inl [ ["iptables"; "-A"; "OUTPUT"; "-m"; "cgroup"; "--cgroup";
                         netClsClassID; "-j"; "DROP"];
                        ["iptables"; "-A"; "INPUT"; "-m"; "cgroup"; "--cgroup";
                         netClsClassID; "-j"; "DROP"] ])) ;;
  match r with
  | inr e => hret (Some e)
  | inl commands => runCommands "iptables" commands
  end.

Definition setupNetworkJail (state : JailerState) : HSys (option error) :=
  if bool_decide (FirewallTool state = "nftables") then setupNftablesJail state
  else if bool_decide (FirewallTool state = "iptables") then setupIptablesJail state
  else hret (Some (Errorf ("unsupported firewall tool: " +:+ FirewallTool state))).

Definition cleanupNftablesJail : HSys (option error) :=
  r <~ cmd_CombinedOutput ["nft"; "delete"; "table"; "inet"; "jail"] ;;
  if negb r.2 then
    if negb (strings_Contains r.1 "No such file or directory") then
      hret (Some (Wrapf "failed to cleanup nftables jail" OsError))
    else hret None
  else hret None.

(** The loop [Execute removal commands]: a failure is at most a warning. *)
Fixpoint removeRules (commands : list (list string)) : HSys unit :=
  match commands with
  | [] => hret tt
  | cmdArgs :: rest =>
      _ <~ cmd_CombinedOutput cmdArgs ;;
      removeRules rest
  end.

Definition cleanupIptablesJail (state : JailerState) : HSys (option error) :=
  let commands :=
    if bool_decide (CgroupVersion state = 2) then
      [ ["iptables"; "-D"; "OUTPUT"; "-m"; "cgroup"; "--path"; "jail"; "-j"; "DROP"];
        ["iptables"; "-D"; "INPUT"; "-m"; "cgroup"; "--path"; "jail"; "-j"; "DROP"] ]
    else
      [ ["iptables"; "-D"; "OUTPUT"; "-m"; "cgroup"; "--cgroup"; netClsClassID; "-j"; "DROP"];
        ["iptables"; "-D"; "INPUT"; "-m"; "cgroup"; "--cgroup"; netClsClassID; "-j"; "DROP"] ]
  in
  _ <~ removeRules commands ;;
  hret None.

Definition cleanupNetworkJail (state : JailerState) : HSys (option error) :=
  if bool_decide (FirewallTool state = "nftables") then cleanupNftablesJail
  else if bool_decide (FirewallTool state = "iptables") then cleanupIptablesJail state
  else hret (Some (Errorf ("unsupported firewall tool: " +:+ FirewallTool state))).

(** *** [cgroups.go]: removing the jail cgroups *)

(** The test and the removal that [cleanupEmptyCgroup] and the three parts
    of [cleanupCgroupV1] share: the directory goes when its [cgroup.procs]
    can be read and holds only white space. *)
Definition removeIfEmpty (procsFile cgroupPath : string) : HSys unit :=
  content <~ liftSys (λ K, os_ReadFile K procsFile) ;;
  match content with
  | Some text =>
      if bool_decide (String.length (Go.TrimSpace text) = 0%nat) then
        _ <~ os_Remove cgroupPath ;;
        hret tt
      else hret tt
  | None => hret tt
  end.

Definition cleanupEmptyCgroup (cgroupPath description : string) : HSys unit :=
  let procsFile := Go.PathJoin [cgroupPath; "cgroup.procs"] in
  removeIfEmpty procsFile cgroupPath.

Definition cleanupCgroupV2 (state : JailerState) : HSys (option error) :=
  _ <~ cleanupEmptyCgroup (NetworkCgroupPath state) "network jail" ;;
  _ <~ cleanupEmptyCgroup (CpuCgroupPath state) "CPU jail" ;;
  _ <~ cleanupEmptyCgroup (NetworkCpuCgroupPath state) "network+CPU jail" ;;
  hret None.

Fixpoint cleanupSubsystemsV1 (subsystems : list string) : HSys unit :=
  match subsystems with
  | [] => hret tt
  | subsys :: rest =>
      let procsFile := Go.PathJoin ["/sys/fs/cgroup"; subsys; JailNetworkCgroup; "cgroup.procs"] in
      _ <~ removeIfEmpty procsFile (Go.PathJoin ["/sys/fs/cgroup"; subsys; JailNetworkCgroup]) ;;
      cleanupSubsystemsV1 rest
  end.

Definition cleanupCgroupV1 (_ : JailerState) : HSys (option error) :=
  let subsystems := ["memory"; "pids"; "net_cls"; "cpu"] in
  _ <~ cleanupSubsystemsV1 subsystems ;;
  let cpuProcsFile := Go.PathJoin ["/sys/fs/cgroup/cpu"; JailCpuCgroup; "cgroup.procs"] in
  _ <~ removeIfEmpty cpuProcsFile (Go.PathJoin ["/sys/fs/cgroup/cpu"; JailCpuCgroup]) ;;
  let networkCpuProcsFile :=
    Go.PathJoin ["/sys/fs/cgroup/cpu"; JailNetworkCpuCgroup; "cgroup.procs"] in
  _ <~ removeIfEmpty networkCpuProcsFile
                     (Go.PathJoin ["/sys/fs/cgroup/cpu"; JailNetworkCpuCgroup]) ;;
  hret None.

Definition cleanupCgroup (state : JailerState) : HSys (option error) :=
  if bool_decide (CgroupVersion state = 2) then cleanupCgroupV2 state
  else cleanupCgroupV1 state.

(** *** [main.go]: [cleanup] *)

(** The loop of [cleanup] over the registry, in the order of [map_fold];
    a failed unjail is a warning. *)
Definition unjailAll (state : JailerState) : HSys JailerState :=
  map_fold (λ pid _ acc,
              state <~ acc ;;
              r <~ liftSys (λ K, unjailProcess K state (Go.Itoa pid)) ;;
              hret r.2)
           (hret state) (ActiveJails state).

Definition cleanup (state : JailerState) : HSys JailerState :=
  if bool_decide (size (ActiveJails state) = 0%nat) then hret state
  else
    state <~ unjailAll state ;;
    _ <~ cleanupNetworkJail state ;;
    _ <~ cleanupCgroup state ;;
    hret state.

End HostProgram.

(** ** Runs on a host *)

Definition hruns {A} (m : HSys A) (h : HostTrace) (a : A) (evs : list HostEvent) : Prop :=
  m h = (a, h ++ evs).

Lemma hruns_ret {A} (a : A) h : hruns (hret a) h a [].
Proof. unfold hruns, hret. by rewrite app_nil_r. Qed.

Lemma hruns_bind {A B} (m : HSys A) (k : A → HSys B) h a e1 b e2 :
  hruns m h a e1 → hruns (k a) (h ++ e1) b e2 → hruns (x <~ m ;; k x) h b (e1 ++ e2).
Proof. unfold hruns, hbind. intros -> ->. by rewrite List.app_assoc. Qed.

Lemma hruns_liftSys {A} host (m : Kernel → Sys A) h a tr :
  runs (m (h_Kernel host h)) [] a tr → hruns (liftSys host m) h a (HvSys <$> tr).
Proof. unfold runs, hruns, liftSys. by intros ->. Qed.

Lemma hruns_CombinedOutput host argv h :
  hruns (cmd_CombinedOutput host argv) h (h_CombinedOutput host h argv)
        [HvCombinedOutput argv (h_CombinedOutput host h argv).1
                          (h_CombinedOutput host h argv).2].
Proof. done. Qed.

Lemma hruns_Remove host path h :
  hruns (os_Remove host path) h (h_Remove host h path) [HvRemove path (h_Remove host h path)].
Proof. done. Qed.

(** ** Removing the jail cgroups *)

(** What [cleanupCgroup] does about one directory: it reads the
    [cgroup.procs] file, and removes the directory when the file could be
    read and is blank; whether the removal worked is not looked at. *)
Definition removalStep (procsFile dir : string) (evs : list HostEvent) : Prop :=
  (∃ content, evs = [HvSys (EvReadFile procsFile content)]
              ∧ ∀ text, content = Some text → Go.TrimSpace text ≠ "")
  ∨ (∃ text ok, evs = [HvSys (EvReadFile procsFile (Some text)); HvRemove dir ok]
                ∧ Go.TrimSpace text = "").



Lemma removeIfEmpty_runs host procsFile dir h :
  ∃ evs, hruns (removeIfEmpty host procsFile dir) h tt evs ∧ removalStep procsFile dir evs.
Proof.
  unfold removeIfEmpty.
  set (content := k_ReadFile (h_Kernel host h) [] procsFile).
  assert (hruns (liftSys host (λ K, os_ReadFile K procsFile)) h content
                [HvSys (EvReadFile procsFile content)]) as Hread by done.
  destruct content as [text|] eqn:Hc.
  - destruct (decide (String.length (Go.TrimSpace text) = 0%nat)) as [Hblank|Hblank].
    + exists ([HvSys (EvReadFile procsFile (Some text))]
              ++ [HvRemove dir (h_Remove host (h ++ [HvSys (EvReadFile procsFile (Some text))])
                                         dir)] ++ []).
      split.
      * eapply hruns_bind; [exact Hread|]. cbv beta iota. rewrite bool_decide_eq_true_2 by done.
        eapply hruns_bind; [apply hruns_Remove | apply hruns_ret].
      * right. eexists text, _. split; [done|]. by destruct (Go.TrimSpace text).
    + exists ([HvSys (EvReadFile procsFile (Some text))] ++ []). split.
      * eapply hruns_bind; [exact Hread|]. cbv beta iota. rewrite bool_decide_eq_false_2 by done.
        apply hruns_ret.
      * left. exists (Some text). split; [done|]. intros ? [= <-] Heq. apply Hblank.
        by rewrite Heq.
  - exists ([HvSys (EvReadFile procsFile None)] ++ []). split.
    + eapply hruns_bind; [exact Hread | apply hruns_ret].
    + left. exists None. split; [done|]. intros ? [=].
Qed.


(** ** Shutting down *)

(** A computation that returns on every host history, and only adds to it. *)
Definition extends {A} (m : HSys A) : Prop := ∀ h, ∃ a evs, hruns m h a evs.

Lemma extends_ret {A} (a : A) : extends (hret a).
Proof. intros h. exists a, []. apply hruns_ret. Qed.

Lemma extends_bind {A B} (m : HSys A) (k : A → HSys B) :
  extends m → (∀ a, extends (k a)) → extends (x <~ m ;; k x).
Proof.
  intros Hm Hk h. destruct (Hm h) as (a & e1 & Hr1).
  destruct (Hk a (h ++ e1)) as (b & e2 & Hr2).
  exists b, (e1 ++ e2). by eapply hruns_bind.
Qed.

Lemma extends_CombinedOutput host argv : extends (cmd_CombinedOutput host argv).
Proof. intros h. eexists _, _. apply hruns_CombinedOutput. Qed.

Lemma extends_removeRules host commands : extends (removeRules host commands).
Proof.
  induction commands as [|c rest IH]; [apply extends_ret|].
  apply extends_bind; [apply extends_CombinedOutput | by intros _].
Qed.

Lemma extends_cleanupNetworkJail host state : extends (cleanupNetworkJail host state).
Proof.
  unfold cleanupNetworkJail, cleanupNftablesJail, cleanupIptablesJail.
  repeat case_bool_decide.
  - apply extends_bind; [apply extends_CombinedOutput|]. intros [out ok]. simpl.
    destruct ok; simpl; [apply extends_ret|].
    destruct (strings_Contains out "No such file or directory"); apply extends_ret.
  - apply extends_bind; [apply extends_removeRules | intros _; apply extends_ret].
  - apply extends_bind; [apply extends_removeRules | intros _; apply extends_ret].
  - apply extends_ret.
Qed.

Lemma extends_removeIfEmpty host procsFile dir : extends (removeIfEmpty host procsFile dir).
Proof. intros h. destruct (removeIfEmpty_runs host procsFile dir h) as (evs & Hr & _). eauto. Qed.

Lemma extends_cleanupCgroup host state : extends (cleanupCgroup host state).
Proof.
  unfold cleanupCgroup, cleanupCgroupV2, cleanupCgroupV1, cleanupEmptyCgroup.
  cbn [cleanupSubsystemsV1].
  case_bool_decide;
    repeat (apply extends_bind; [|intros _]);
    first [apply extends_removeIfEmpty | apply extends_ret].
Qed.

Lemma setActiveJails_id (state : JailerState) : setActiveJails state (ActiveJails state) = state.
Proof. by destruct state. Qed.

(** [unjailProcess] of a pid printed by [strconv.Itoa] returns, and then
    the registry has no record of the pid. *)
Lemma unjailProcess_deletes K (state : JailerState) (pid : Z) (tr : Trace) :
  Go.minInt ≤ pid ≤ Go.maxInt →
  ∃ err evs,
    runs (unjailProcess K state (Go.Itoa pid)) tr
         (err, setActiveJails state (delete pid (ActiveJails state))) evs.
Proof.
  intros Hrange. pose proof (Atoi_Itoa pid Hrange) as Hpid.
  destruct (ActiveJails state !! pid) as [jail|] eqn:Hjail.
  - destruct (unjailProcess_runs K state (Go.Itoa pid) pid jail tr Hpid Hjail)
      as (steps & Hr & _). eauto.
  - rewrite delete_id, setActiveJails_id by done.
    eexists _, []. unfold unjailProcess. rewrite Hpid, Hjail. apply runs_ret.
Qed.

Lemma unjailAll_runs host (state : JailerState) (h : HostTrace) :
  (∀ pid, is_Some (ActiveJails state !! pid) → Go.minInt ≤ pid ≤ Go.maxInt) →
  ∃ evs, hruns (unjailAll host state) h (setActiveJails state ∅) evs.
Proof.
  intros Hrange. unfold unjailAll.
  set (f := λ (pid : Z) (_ : Jail) (acc : HSys JailerState),
              state <~ acc ;;
              r <~ liftSys host (λ K, unjailProcess K state (Go.Itoa pid)) ;;
              hret r.2).
  enough (∀ m : gmap Z Jail,
            (∀ pid, is_Some (m !! pid) → Go.minInt ≤ pid ≤ Go.maxInt) →
            ∀ h, ∃ M evs,
              hruns (map_fold f (hret state) m) h (setActiveJails state M) evs
              ∧ ∀ k, M !! k = match m !! k with
                              | Some _ => None
                              | None => ActiveJails state !! k
                              end) as Hfold.
  { destruct (Hfold (ActiveJails state) Hrange h) as (M & evs & Hr & HM).
    assert (M = ∅) as -> by (apply map_empty; intros k; rewrite HM;
                             by destruct (ActiveJails state !! k)).
    by exists evs. }
  clear h Hrange. intros m.
  apply (map_fold_weak_ind
           (λ r m, (∀ pid, is_Some (m !! pid) → Go.minInt ≤ pid ≤ Go.maxInt) →
                   ∀ h, ∃ M evs,
                     hruns r h (setActiveJails state M) evs
                     ∧ ∀ k, M !! k = match m !! k with
                                     | Some _ => None
                                     | None => ActiveJails state !! k
                                     end)).
  - intros _ h. exists (ActiveJails state), []. split.
    + rewrite setActiveJails_id. apply hruns_ret.
    + intros k. by rewrite lookup_empty.
  - intros i x m' r Hi IH Hrange h.
    destruct (IH ltac:(intros pid Hp; apply Hrange;
                       destruct (decide (pid = i)) as [->|];
                       [by rewrite lookup_insert_eq | by rewrite lookup_insert_ne]) h)
      as (M & e1 & Hr1 & HM).
    assert (Go.minInt ≤ i ≤ Go.maxInt) as Hir
      by (apply Hrange; by rewrite lookup_insert_eq).
    destruct (unjailProcess_deletes (h_Kernel host (h ++ e1)) (setActiveJails state M) i []
                Hir) as (err & tr & Hr2).
    exists (delete i M), (e1 ++ (HvSys <$> tr) ++ []). split.
    + unfold f. eapply hruns_bind; [exact Hr1|].
      eapply hruns_bind; [apply hruns_liftSys; exact Hr2 | apply hruns_ret].
    + intros k. destruct (decide (k = i)) as [->|Hne].
      * by rewrite lookup_delete_eq, lookup_insert_eq.
      * by rewrite lookup_delete_ne, lookup_insert_ne, HM.
Qed.

(** X17: [cleanup] leaves an empty registry, whatever the kernel and the
    firewall tool answer: every record is dropped even when its processes
    could not be moved back.  When the registry is empty to begin with,
    [cleanup] returns at once, without a call: the firewall rules and the
    jail cgroups of the start-up are then left in place. *)
Theorem X17_cleanup_empties_registry (host : Host) (state : JailerState) (h : HostTrace) :
  (∀ pid, is_Some (ActiveJails state !! pid) → Go.minInt ≤ pid ≤ Go.maxInt) →
  ∃ evs,
    hruns (cleanup host state) h (setActiveJails state ∅) evs
    ∧ (ActiveJails state = ∅ → evs = []).
Proof.
  intros Hrange. unfold cleanup. case_bool_decide as Hsize.
  - apply map_size_empty_iff in Hsize. exists []. split; [|done].
    rewrite <- Hsize, setActiveJails_id. apply hruns_ret.
  - destruct (unjailAll_runs host state h Hrange) as (e1 & Hr1).
    destruct (extends_cleanupNetworkJail host (setActiveJails state ∅) (h ++ e1))
      as (err2 & e2 & Hr2).
    destruct (extends_cleanupCgroup host (setActiveJails state ∅) ((h ++ e1) ++ e2))
      as (err3 & e3 & Hr3).
    exists (e1 ++ e2 ++ e3 ++ []). split.
    + eapply hruns_bind; [exact Hr1|]. eapply hruns_bind; [exact Hr2|].
      eapply hruns_bind; [exact Hr3 | apply hruns_ret].
    + intros Hempty. rewrite Hempty in Hsize. by rewrite map_size_empty in Hsize.
Qed.

(** A host on which every call succeeds, with the kernel [hostV2]. *)
Definition demoHost : Host :=
  mkHost (λ _, hostV2) (λ _ _, true) (λ _ _, true) (λ _ _, true) (λ _ _, ("", true)).

Lemma X17_witness :
  ∃ evs,
    hruns (cleanup demoHost demoState) [] (setActiveJails demoState ∅) evs
    ∧ (ActiveJails demoState = ∅ → evs = []).
Proof.
  apply (X17_cleanup_empties_registry demoHost demoState []).
  intros pid [jail Hjail].
  change (ActiveJails demoState) with ({[100 := demoJail]} : gmap Z Jail) in Hjail.
  apply lookup_singleton_Some in Hjail as [<- _]. vm_compute. split; discriminate.
Defined.

(** ** Setting up the firewall *)

(** The commands of [setupNetworkJail], by tool and cgroup version. *)
Definition firewallRules (tool : string) (version : Z) : list (list string) :=
  if bool_decide (tool = "nftables") then
    [ ["nft"; "add"; "table"; "inet"; "jail"];
      ["nft"; "add"; "chain"; "inet"; "jail"; "output"; "{"; "type"; "filter"; "hook";
       "output"; "priority"; "100"; ";"; "}"];
      ["nft"; "add"; "chain"; "inet"; "jail"; "input"; "{"; "type"; "filter"; "hook";
       "input"; "priority"; "100"; ";"; "}"] ]
    ++ (if bool_decide (version = 2) then
          [ ["nft"; "add"; "rule"; "inet"; "jail"; "output"; "socket"; "cgroupv2"; "level";
             "1"; dquote +:+ "jail" +:+ dquote; "drop"];
            ["nft"; "add"; "rule"; "inet"; "jail"; "input"; "socket"; "cgroupv2"; "level";
             "1"; dquote +:+ "jail" +:+ dquote; "drop"] ]
        else
          [ ["nft"; "add"; "rule"; "inet"; "jail"; "output"; "meta"; "cgroup";
             "0x00100001"; "drop"];
            ["nft"; "add"; "rule"; "inet"; "jail"; "input"; "meta"; "cgroup";
             "0x00100001"; "drop"] ])
  else if bool_decide (version = 2) then
    [ ["iptables"; "-A"; "OUTPUT"; "-m"; "cgroup"; "--path"; "jail"; "-j"; "DROP"];
      ["iptables"; "-A"; "INPUT"; "-m"; "cgroup"; "--path"; "jail"; "-j"; "DROP"] ]
  else
    [ ["iptables"; "-A"; "OUTPUT"; "-m"; "cgroup"; "--cgroup"; "0x00100001"; "-j"; "DROP"];
      ["iptables"; "-A"; "INPUT"; "-m"; "cgroup"; "--cgroup"; "0x00100001"; "-j"; "DROP"] ].

(** The commands are run in order up to the first one that fails; there is
    an error exactly when one failed. *)
Fixpoint commandsRun (commands : list (list string)) (evs : list HostEvent)
    (err : option error) : Prop :=
  match commands with
  | [] => evs = [] ∧ err = None
  | argv :: rest =>
      ∃ out ok evs',
        evs = HvCombinedOutput argv out ok :: evs'
        ∧ if ok then commandsRun rest evs' err else evs' = [] ∧ err ≠ None
  end.

Lemma runCommands_runs host tool commands h :
  ∃ err evs, hruns (runCommands host tool commands) h err evs ∧ commandsRun commands evs err.
Proof.
  revert h. induction commands as [|argv rest IH]; intros h.
  - exists None, []. split; [apply hruns_ret | done].
  - cbn [runCommands]. destruct (h_CombinedOutput host h argv) as [out ok] eqn:Hout.
    pose proof (hruns_CombinedOutput host argv h) as Hcmd. rewrite Hout in Hcmd.
    destruct ok.
    + destruct (IH (h ++ [HvCombinedOutput argv out true])) as (err & evs & Hr & Hrun).
      exists err, ([HvCombinedOutput argv out true] ++ evs). split.
      * eapply hruns_bind; [exact Hcmd | exact Hr].
      * exists out, true, evs. done.
    + eexists (Some _), ([HvCombinedOutput argv out false] ++ []). split.
      * eapply hruns_bind; [exact Hcmd | apply hruns_ret].
      * exists out, false, []. done.
Qed.

(** X18: with a supported tool [setupNetworkJail] runs the commands of the
    tool and the cgroup version in order and stops at the first one that
    fails, leaving the earlier ones applied; it returns [nil] only when all
    of them succeeded.  Under per-subsystem hierarchies the class id is
    first written into [net_cls.classid], and no command is run when that
    write fails. *)
Theorem X18_setupNetworkJail_stops_at_first_failure (host : Host) (state : JailerState)
    (h : HostTrace) :
  FirewallTool state = "nftables" ∨ FirewallTool state = "iptables" →
  ∃ err evs,
    hruns (setupNetworkJail host state) h err evs
    ∧ if bool_decide (CgroupVersion state = 2) then
        commandsRun (firewallRules (FirewallTool state) 2) evs err
      else
        ∃ ok evs',
          evs = HvSys (EvWriteFile "/sys/fs/cgroup/net_cls/jail/net_cls.classid"
                                   ("0x00100001" +:+ newline) ok) :: evs'
          ∧ if ok then
              commandsRun (firewallRules (FirewallTool state) (CgroupVersion state)) evs' err
            else evs' = [] ∧ err ≠ None.
Proof.
  intros Htool.
  set (okv := k_WriteFile (h_Kernel host h) [] classIDPath (netClsClassID +:+ newline)).
  assert (hruns (writeFile host classIDPath (netClsClassID +:+ newline)) h okv
                [HvSys (EvWriteFile classIDPath (netClsClassID +:+ newline) okv)])
    as Hwrite by done.
  unfold setupNetworkJail, firewallRules.
  destruct Htool as [Ht|Ht]; rewrite Ht.
  - rewrite !(bool_decide_eq_true_2 ("nftables" = "nftables")) by done.
    unfold setupNftablesJail.
    destruct (decide (CgroupVersion state = 2)) as [Hv|Hv].
    + rewrite !(bool_decide_eq_true_2 _ Hv).
      match goal with
      | |- context [hret (inl ?cmds)] =>
          destruct (runCommands_runs host "nftables" cmds (h ++ [])) as (err & evs & Hr & Hrun)
      end.
      exists err, ([] ++ evs). split; [|exact Hrun].
      eapply hruns_bind; [apply hruns_ret | exact Hr].
    + rewrite !(bool_decide_eq_false_2 _ Hv). destruct okv eqn:Hok.
      * match goal with
        | |- context [hret (inl ?cmds)] =>
            destruct (runCommands_runs host "nftables" cmds
                        (h ++ [HvSys (EvWriteFile classIDPath (netClsClassID +:+ newline) true)]))
              as (err & evs & Hr & Hrun)
        end.
        exists err, (([HvSys (EvWriteFile classIDPath (netClsClassID +:+ newline) true)] ++ [])
                     ++ evs).
        split; [|exists true, evs; split; [done | exact Hrun]].
        eapply hruns_bind;
          [eapply hruns_bind; [exact Hwrite | apply hruns_ret] | exact Hr].
      * eexists (Some _),
          (([HvSys (EvWriteFile classIDPath (netClsClassID +:+ newline) false)] ++ []) ++ []).
        split; [|exists false, []; done].
        eapply hruns_bind;
          [eapply hruns_bind; [exact Hwrite | apply hruns_ret] | apply hruns_ret].
  - rewrite !(bool_decide_eq_false_2 ("iptables" = "nftables")) by done.
    rewrite !(bool_decide_eq_true_2 ("iptables" = "iptables")) by done.
    unfold setupIptablesJail.
    destruct (decide (CgroupVersion state = 2)) as [Hv|Hv].
    + rewrite !(bool_decide_eq_true_2 _ Hv).
      match goal with
      | |- context [hret (inl ?cmds)] =>
          destruct (runCommands_runs host "iptables" cmds (h ++ [])) as (err & evs & Hr & Hrun)
      end.
      exists err, ([] ++ evs). split; [|exact Hrun].
      eapply hruns_bind; [apply hruns_ret | exact Hr].
    + rewrite !(bool_decide_eq_false_2 _ Hv). destruct okv eqn:Hok.
      * match goal with
        | |- context [hret (inl ?cmds)] =>
            destruct (runCommands_runs host "iptables" cmds
                        (h ++ [HvSys (EvWriteFile classIDPath (netClsClassID +:+ newline) true)]))
              as (err & evs & Hr & Hrun)
        end.
        exists err, (([HvSys (EvWriteFile classIDPath (netClsClassID +:+ newline) true)] ++ [])
                     ++ evs).
        split; [|exists true, evs; split; [done | exact Hrun]].
        eapply hruns_bind;
          [eapply hruns_bind; [exact Hwrite | apply hruns_ret] | exact Hr].
      * eexists (Some _),
          (([HvSys (EvWriteFile classIDPath (netClsClassID +:+ newline) false)] ++ []) ++ []).
        split; [|exists false, []; done].
        eapply hruns_bind;
          [eapply hruns_bind; [exact Hwrite | apply hruns_ret] | apply hruns_ret].
Qed.

Lemma X18_witness :
  ∃ err evs,
    hruns (setupNetworkJail demoHost (mkState ∅ "" "" "" 2 "nftables")) [] err evs
    ∧ commandsRun (firewallRules "nftables" 2) evs err.
Proof.
  apply (X18_setupNetworkJail_stops_at_first_failure
           demoHost (mkState ∅ "" "" "" 2 "nftables") []).
  by left.
Defined.

(** ** What the firewall rules name *)

Definition hemits {A} (P : HostEvent → Prop) (m : HSys A) : Prop :=
  ∀ h, ∃ a evs, hruns m h a evs ∧ Forall P evs.

Lemma hemits_ret {A} P (a : A) : hemits P (hret a).
Proof. intros h. exists a, []. split; [apply hruns_ret | constructor]. Qed.

Lemma hemits_bind {A B} P (m : HSys A) (k : A → HSys B) :
  hemits P m → (∀ a, hemits P (k a)) → hemits P (x <~ m ;; k x).
Proof.
  intros Hm Hk h. destruct (Hm h) as (a & e1 & Hr1 & H1).
  destruct (Hk a (h ++ e1)) as (b & e2 & Hr2 & H2).
  exists b, (e1 ++ e2). split; [by eapply hruns_bind | by apply Forall_app].
Qed.

Lemma hemits_CombinedOutput host (P : HostEvent → Prop) argv :
  (∀ out ok, P (HvCombinedOutput argv out ok)) → hemits P (cmd_CombinedOutput host argv).
Proof.
  intros HP h. eexists _, _. split; [apply hruns_CombinedOutput | by constructor].
Qed.

Lemma hemits_writeFile host (P : HostEvent → Prop) path content :
  (∀ ok, P (HvSys (EvWriteFile path content ok))) → hemits P (writeFile host path content).
Proof.
  intros HP h.
  exists (k_WriteFile (h_Kernel host h) [] path content),
         [HvSys (EvWriteFile path content (k_WriteFile (h_Kernel host h) [] path content))].
  split; [done | by constructor].
Qed.

Lemma hemits_runCommands host (P : HostEvent → Prop) tool commands :
  Forall (λ argv, ∀ out ok, P (HvCombinedOutput argv out ok)) commands →
  hemits P (runCommands host tool commands).
Proof.
  induction 1 as [|argv rest Hargv _ IH]; [apply hemits_ret|].
  cbn [runCommands]. apply hemits_bind; [by apply hemits_CombinedOutput|].
  intros [out ok]. destruct ok; [exact IH | apply hemits_ret].
Qed.

Definition hwp {A} (m : HSys A) (h : HostTrace) (Q : A → list HostEvent → Prop) : Prop :=
  ∃ a evs, hruns m h a evs ∧ Q a evs.

Lemma hwp_ret {A} (a : A) h (Q : A → list HostEvent → Prop) : Q a [] → hwp (hret a) h Q.
Proof. intros HQ. exists a, []. split; [apply hruns_ret | done]. Qed.

Lemma hwp_bind {A B} (m : HSys A) (k : A → HSys B) h (Q : B → list HostEvent → Prop) :
  hwp m h (λ a evs, hwp (k a) (h ++ evs) (λ b evs', Q b (evs ++ evs'))) →
  hwp (x <~ m ;; k x) h Q.
Proof.
  intros (a & evs & Hr & b & evs' & Hr' & HQ).
  exists b, (evs ++ evs'). split; [by eapply hruns_bind | done].
Qed.

Lemma hwp_mono {A} (m : HSys A) h (Q Q' : A → list HostEvent → Prop) :
  hwp m h Q → (∀ a evs, Q a evs → Q' a evs) → hwp m h Q'.
Proof. intros (a & evs & Hr & HQ) Himp. exists a, evs. auto. Qed.

Lemma hwp_writeFile host path content h (Q : bool → list HostEvent → Prop) :
  (∀ ok, Q ok [HvSys (EvWriteFile path content ok)]) → hwp (writeFile host path content) h Q.
Proof.
  intros HQ.
  exists (k_WriteFile (h_Kernel host h) [] path content),
         [HvSys (EvWriteFile path content (k_WriteFile (h_Kernel host h) [] path content))].
  split; [done | apply HQ].
Qed.

(** A command none of whose arguments holds [jail-], the common start of the
    names of the three jail cgroups; or the write of the class id. *)
Definition namesNoJailCgroup (ev : HostEvent) : Prop :=
  match ev with
  | HvCombinedOutput argv _ _ => Forall (λ arg, strings_Contains arg "jail-" = false) argv
  | HvSys (EvWriteFile path _ _) => path = "/sys/fs/cgroup/net_cls/jail/net_cls.classid"
  | _ => False
  end.

(** A call that creates no directory outside [dirs]. *)
Definition createsOnly (dirs : list string) (ev : Event) : Prop :=
  match ev with
  | EvMkdirAll path _ => path ∈ dirs
  | _ => True
  end.

Lemma initializeCgroupV2_dirs K state :
  emits (createsOnly [NetworkCgroupPath state; CpuCgroupPath state;
                      NetworkCpuCgroupPath state])
        (initializeCgroupV2 K state).
Proof.
  unfold initializeCgroupV2, setupCpuLimitV2.
  repeat first
    [ apply emits_ret
    | apply emits_bind; [|intros ?]
    | apply emits_WriteFile; intros ?; exact I
    | apply emits_MkdirAll; intros ?; simpl; set_solver
    | match goal with
      | |- emits _ (if ?b then _ else _) => destruct b
      | |- emits _ (match ?x with _ => _ end) => destruct x
      end ].
Qed.

Lemma initializeCgroupV1_dirs K state :
  emits (createsOnly ["/sys/fs/cgroup/memory/jail-network"; "/sys/fs/cgroup/pids/jail-network";
                      "/sys/fs/cgroup/net_cls/jail-network"; "/sys/fs/cgroup/cpu/jail-network";
                      "/sys/fs/cgroup/cpu/jail-cpu"; "/sys/fs/cgroup/cpu/jail-network-cpu"])
        (initializeCgroupV1 K state).
Proof.
  unfold initializeCgroupV1, setupCpuLimitV1. cbn [createNetworkCgroups].
  repeat first
    [ apply emits_ret
    | apply emits_bind; [|intros ?]
    | apply emits_WriteFile; intros ?; exact I
    | apply emits_Stat; intros ?; exact I
    | apply emits_MkdirAll; intros ?; vm_compute; set_solver
    | match goal with
      | |- emits _ (if ?b then _ else _) => destruct b
      | |- emits _ (match ?x with _ => _ end) => destruct x
      end ].
Qed.

(** X19: the rules that [setupNetworkJail] installs never name a cgroup
    that [initializeCgroup] creates.  Whatever the tool and the cgroup
    version, no argument of a command holds [jail-network], [jail-cpu] or
    [jail-network-cpu]: the rules match the cgroup [jail], or the class id,
    and the only file written is
    [/sys/fs/cgroup/net_cls/jail/net_cls.classid].  And [initializeCgroup]
    creates neither [/sys/fs/cgroup/net_cls/jail] nor a directory below
    it. *)
Theorem X19_firewall_rules_miss_the_jail_cgroups (host : Host) (state : JailerState)
    (K : Kernel) (state0 : JailerState) :
  hemits namesNoJailCgroup (setupNetworkJail host state)
  ∧ emits (λ ev, match ev with
                 | EvMkdirAll path _ =>
                     hasPrefix (path +:+ "/") "/sys/fs/cgroup/net_cls/jail/" = false
                 | _ => True
                 end)
          (initializeCgroup K state0).
Proof.
  split.
  - intros h. change (hwp (setupNetworkJail host state) h
                         (λ _ evs, Forall namesNoJailCgroup evs)).
    assert (∀ tool cmds h' pre,
              Forall namesNoJailCgroup pre →
              Forall (λ argv, ∀ out ok, namesNoJailCgroup (HvCombinedOutput argv out ok)) cmds →
              hwp (runCommands host tool cmds) h'
                  (λ _ evs, Forall namesNoJailCgroup (pre ++ evs))) as Hcmds.
    { intros tool cmds h' pre Hpre Hall.
      eapply hwp_mono; [apply (hemits_runCommands host _ tool cmds Hall h')|].
      intros ? evs Hevs. by apply Forall_app. }
    unfold setupNetworkJail, setupNftablesJail, setupIptablesJail.
    repeat case_bool_decide; try (apply hwp_ret; constructor); apply hwp_bind.
    + apply hwp_ret. apply Hcmds; by repeat constructor.
    + apply hwp_bind, hwp_writeFile. intros [|]; cbn [negb]; apply hwp_ret.
      * apply Hcmds; by repeat constructor.
      * apply hwp_ret. by repeat constructor.
    + apply hwp_ret. apply Hcmds; by repeat constructor.
    + apply hwp_bind, hwp_writeFile. intros [|]; cbn [negb]; apply hwp_ret.
      * apply Hcmds; by repeat constructor.
      * apply hwp_ret. by repeat constructor.
  - intros tr.
    set (P := λ ev, match ev with
                    | EvMkdirAll path _ =>
                        hasPrefix (path +:+ "/") "/sys/fs/cgroup/net_cls/jail/" = false
                    | _ => True
                    end).
    assert (∀ dirs : list string,
              Forall (λ p, hasPrefix (p +:+ "/") "/sys/fs/cgroup/net_cls/jail/" = false) dirs →
              ∀ ev, createsOnly dirs ev → P ev) as Hdirs.
    { intros dirs Hall ev. destruct ev; try done. simpl. intros Hin.
      by apply (proj1 (Forall_forall _ _) Hall). }
    change (wp (initializeCgroup K state0) tr (λ _ evs, Forall P evs)).
    unfold initializeCgroup, detectCgroupVersion.
    apply wp_bind. wp_call.
    1: apply wp_ret.
    2,3: wp_call; apply wp_ret.
    all: cbn beta iota zeta; try (apply wp_ret; by repeat constructor).
    all: rewrite ?bool_decide_eq_true_2 by done; rewrite ?bool_decide_eq_false_2 by done.
    all: apply wp_bind.
    + eapply wp_mono; [apply initializeCgroupV2_dirs|].
      intros err evs Hall. apply wp_ret. rewrite !app_nil_r.
      apply Forall_app. split; [by repeat constructor|].
      eapply Forall_impl; [exact Hall|]. apply Hdirs. by repeat constructor.
    + eapply wp_mono; [apply initializeCgroupV1_dirs|].
      intros err evs Hall. apply wp_ret. rewrite !app_nil_r.
      apply Forall_app. split; [by repeat constructor|].
      eapply Forall_impl; [exact Hall|]. apply Hdirs. by repeat constructor.
    + eapply wp_mono; [apply initializeCgroupV1_dirs|].
      intros err evs Hall. apply wp_ret. rewrite !app_nil_r.
      apply Forall_app. split; [by repeat constructor|].
      eapply Forall_impl; [exact Hall|]. apply Hdirs. by repeat constructor.
Qed.

(** ** A first jail on a snapshot *)



(** ** Taking the firewall rules down, and choosing the tool *)

(** The command that deletes the rule that [argv] appends. *)
Definition deletion (argv : list string) : list string :=
  (λ arg, if bool_decide (arg = "-A") then "-D" else arg) <$> argv.

(** [evs] are runs of the commands [commands], one each, in order. *)
Definition ranAll (commands : list (list string)) (evs : list HostEvent) : Prop :=
  Forall2 (λ ev argv, ∃ out ok, ev = HvCombinedOutput argv out ok) evs commands.

Lemma removeRules_runs host commands h :
  ∃ evs, hruns (removeRules host commands) h tt evs ∧ ranAll commands evs.
Proof.
  revert h. induction commands as [|argv rest IH]; intros h.
  - exists []. split; [apply hruns_ret | constructor].
  - cbn [removeRules].
    destruct (IH (h ++ [HvCombinedOutput argv (h_CombinedOutput host h argv).1
                                         (h_CombinedOutput host h argv).2]))
      as (evs & Hr & Hall).
    eexists (_ ++ evs). split.
    + eapply hruns_bind; [apply hruns_CombinedOutput | exact Hr].
    + constructor; [eauto | exact Hall].
Qed.

(** X21: [cleanupNetworkJail] mirrors the set-up.  With iptables it runs,
    for each rule that [setupNetworkJail] appends under the same cgroup
    version, the same command with [-D] for [-A], goes on when a deletion
    fails, and returns [nil].  With nftables it runs the one command that
    deletes the table [inet jail], the table that every command of the
    set-up adds or adds to, and returns an error exactly when the command
    failed with an output that does not hold [No such file or directory]. *)
Theorem X21_cleanupNetworkJail_mirrors_setup (host : Host) (state : JailerState)
    (h : HostTrace) :
  FirewallTool state = "nftables" ∨ FirewallTool state = "iptables" →
  ∃ err evs,
    hruns (cleanupNetworkJail host state) h err evs
    ∧ if bool_decide (FirewallTool state = "nftables") then
        (∃ out ok,
           evs = [HvCombinedOutput ["nft"; "delete"; "table"; "inet"; "jail"] out ok]
           ∧ (err = None ↔ ok = true ∨ strings_Contains out "No such file or directory" = true))
        ∧ Forall (λ argv, ∃ what rest, argv = "nft" :: "add" :: what :: "inet" :: "jail" :: rest)
                 (firewallRules "nftables" (CgroupVersion state))
      else
        err = None
        ∧ ranAll (deletion <$> firewallRules "iptables" (CgroupVersion state)) evs.
Proof.
  intros Htool. unfold cleanupNetworkJail.
  destruct Htool as [Ht|Ht]; rewrite Ht.
  - rewrite !(bool_decide_eq_true_2 ("nftables" = "nftables")) by done.
    unfold cleanupNftablesJail.
    pose proof (hruns_CombinedOutput host ["nft"; "delete"; "table"; "inet"; "jail"] h) as Hcmd.
    destruct (h_CombinedOutput host h ["nft"; "delete"; "table"; "inet"; "jail"])
      as [out ok] eqn:Hout.
    assert (Forall (λ argv, ∃ what rest,
                      argv = "nft" :: "add" :: what :: "inet" :: "jail" :: rest)
                   (firewallRules "nftables" (CgroupVersion state))) as Htable.
    { unfold firewallRules. rewrite bool_decide_eq_true_2 by done.
      case_bool_decide; repeat constructor; eauto. }
    destruct ok; [|destruct (strings_Contains out "No such file or directory") eqn:Hc].
    + exists None, ([HvCombinedOutput ["nft"; "delete"; "table"; "inet"; "jail"] out true] ++ []).
      split; [eapply hruns_bind; [exact Hcmd | apply hruns_ret]|].
      split; [|exact Htable]. exists out, true. split; [done|]. split; auto.
    + exists None, ([HvCombinedOutput ["nft"; "delete"; "table"; "inet"; "jail"] out false] ++ []).
      split.
      { eapply hruns_bind; [exact Hcmd|]. simpl. rewrite Hc. apply hruns_ret. }
      split; [|exact Htable]. exists out, false. split; [done|]. split; auto.
    + eexists (Some _),
        ([HvCombinedOutput ["nft"; "delete"; "table"; "inet"; "jail"] out false] ++ []).
      split.
      { eapply hruns_bind; [exact Hcmd|]. simpl. rewrite Hc. apply hruns_ret. }
      split; [|exact Htable]. exists out, false. split; [done|].
      split; [done|]. intros [?|?]; congruence.
  - rewrite !(bool_decide_eq_false_2 ("iptables" = "nftables")) by done.
    rewrite !(bool_decide_eq_true_2 ("iptables" = "iptables")) by done.
    unfold cleanupIptablesJail, firewallRules.
    rewrite (bool_decide_eq_false_2 ("iptables" = "nftables")) by done.
    case_bool_decide as Hv.
    + match goal with
      | |- context [removeRules host ?cmds] =>
          destruct (removeRules_runs host cmds h) as (evs & Hr & Hall)
      end.
      exists None, (evs ++ []). split; [eapply hruns_bind; [exact Hr | apply hruns_ret]|].
      split; [done|]. rewrite app_nil_r. exact Hall.
    + match goal with
      | |- context [removeRules host ?cmds] =>
          destruct (removeRules_runs host cmds h) as (evs & Hr & Hall)
      end.
      exists None, (evs ++ []). split; [eapply hruns_bind; [exact Hr | apply hruns_ret]|].
      split; [done|]. rewrite app_nil_r. exact Hall.
Qed.

Lemma X21_witness :
  ∃ err evs,
    hruns (cleanupNetworkJail demoHost (mkState ∅ "" "" "" 1 "iptables")) [] err evs
    ∧ err = None
    ∧ ranAll (deletion <$> firewallRules "iptables" 1) evs.
Proof.
  apply (X21_cleanupNetworkJail_mirrors_setup demoHost (mkState ∅ "" "" "" 1 "iptables") []).
  by right.
Defined.

